(** * OpenRadioss pre-processor: deck reader, writer and indexed model

    A shallow embedding of the line-oriented deck reader and writer
    ([src/io/RadFileReader.cpp], class [OpenRadiossGUI::RadFileReader]), of the
    basic reader of the same class ([src/radfilereader.cpp]), of the indexed
    model store ([Model.cpp]) and of the index buffers built from them for
    rendering ([main.cpp], [rendering/Mesh.cpp]), followed by the properties
    proved about them.

    Conventions.
    - [int] fields are [Z]; [std::stoi] performs the range check, so every
      stored identifier lies in the 32-bit range.  [size_t] positions and
      container sizes are [nat].
    - [std::string] is [string]; a file is the string of its bytes and
      [std::getline] cuts it (see [getline]).
    - [std::unordered_map<int, size_t>] is [gmap Z nat], [std::unordered_set<int>]
      is [gset Z], [std::unordered_map<std::string, double>] is
      [gmap string double].
    - Floating point values stay abstract: the C++ library operations on them
      that the code calls are the fields of the class [CxxLib]. *)

From Stdlib Require Import ZArith List Ascii String Bool Lia.
From Stdlib Require Import DecimalString.
From Stdlib Require DecimalPos.
From stdpp Require Import gmap strings list fin_maps.

Local Open Scope string_scope.
Local Open Scope Z_scope.

(** ** Characters and strings *)

Module Str.

(** The set [" \t\r\n"] that [trim] passes to [find_first_not_of]. *)
Definition is_blank (c : ascii) : bool :=
  match c with
  | " "%char | "009"%char | "013"%char | "010"%char => true
  | _ => false
  end.

(** [isspace] of the C locale, which [strtol] skips. *)
Definition isspace (c : ascii) : bool :=
  match c with
  | " "%char | "009"%char | "010"%char | "011"%char | "012"%char | "013"%char => true
  | _ => false
  end.

Definition is_digit (c : ascii) : bool :=
  (48 <=? Z.of_nat (nat_of_ascii c)) && (Z.of_nat (nat_of_ascii c) <=? 57).

Definition digit_value (c : ascii) : Z := Z.of_nat (nat_of_ascii c) - 48.

(** [::toupper] in the C locale. *)
Definition toupper (c : ascii) : ascii :=
  let n := nat_of_ascii c in
  if (97 <=? Z.of_nat n) && (Z.of_nat n <=? 122) then ascii_of_nat (n - 32) else c.

Fixpoint map_chars (f : ascii -> ascii) (s : string) : string :=
  match s with
  | EmptyString => EmptyString
  | String c r => String (f c) (map_chars f r)
  end.

(** [str.find_first_not_of(set)]: [None] is [npos]. *)
Fixpoint find_first_not_of (set : ascii -> bool) (s : string) : option nat :=
  match s with
  | EmptyString => None
  | String c r => if set c then S <$> find_first_not_of set r else Some 0%nat
  end.

(** [str.find_last_not_of(set)]. *)
Fixpoint find_last_not_of (set : ascii -> bool) (s : string) : option nat :=
  match s with
  | EmptyString => None
  | String c r =>
      match find_last_not_of set r with
      | Some i => Some (S i)
      | None => if set c then None else Some 0%nat
      end
  end.

(** [str.find_first_of(set) != npos]. *)
Fixpoint has_any_of (set : ascii -> bool) (s : string) : bool :=
  match s with
  | EmptyString => false
  | String c r => set c || has_any_of set r
  end.

(** [hay.find(needle) != npos]. *)
Fixpoint contains (needle hay : string) : bool :=
  String.prefix needle hay ||
  match hay with
  | EmptyString => false
  | String _ r => contains needle r
  end.

(** The successive results of [std::getline(stream, token, d)] until the
    stream is exhausted: the delimiter is consumed and not stored, and a
    stream that ends right after a delimiter yields no further token. *)
Fixpoint getline (d : ascii) (s : string) : list string :=
  match s with
  | EmptyString => []
  | String c r =>
      if Ascii.eqb c d then EmptyString :: getline d r
      else match getline d r with
           | [] => [String c EmptyString]
           | t :: ts => String c t :: ts
           end
  end.

Definition is_empty (s : string) : bool :=
  match s with EmptyString => true | _ => false end.

(** Whether the last character of a stream is the delimiter: the last
    successful [std::getline] then stops at the delimiter, and otherwise at
    the end of the stream, which sets [eofbit]. *)
Fixpoint ends_with (d : ascii) (s : string) : bool :=
  match s with
  | EmptyString => false
  | String c EmptyString => Ascii.eqb c d
  | String _ r => ends_with d r
  end.

(** Decimal text of an [int] ([std::to_string], [operator<<]). *)
Definition to_string (z : Z) : string := NilZero.string_of_int (Z.to_int z).

(** [std::setw(w) << s] with the default right alignment and fill. *)
Definition setw (w : nat) (s : string) : string :=
  String.concat "" (repeat " " (w - String.length s)) +:+ s.

(** The text that [strtol(s, &end, 10)] converts: the longest prefix made of
    blanks, an optional sign and decimal digits. *)
Fixpoint skip_space (s : string) : string :=
  match s with
  | String c r => if isspace c then skip_space r else s
  | EmptyString => EmptyString
  end.

Fixpoint leading_digits (s : string) : list Z :=
  match s with
  | String c r => if is_digit c then digit_value c :: leading_digits r else []
  | EmptyString => []
  end.

Definition decimal_value (ds : list Z) : Z :=
  fold_left (fun acc d => 10 * acc + d) ds 0.

(** An optional sign in front of the digits: whether it is a minus, and the
    text after it. *)
Definition sign_and_rest (body : string) : bool * string :=
  match body with
  | String "-"%char r => (true, r)
  | String "+"%char r => (false, r)
  | _ => (false, body)
  end.

(** The number that the converted text denotes, before any limit of a
    machine type; [None] when the text has no digit. *)
Definition integer_prefix (s : string) : option Z :=
  let '(negative, unsigned) := sign_and_rest (skip_space s) in
  match leading_digits unsigned with
  | [] => None
  | digits => Some (if negative then - decimal_value digits else decimal_value digits)
  end.

(** [long] is the 64-bit type of the LP64 platforms the project is built
    on; [int] has 32 bits. *)
Definition LONG_MIN : Z := - 9223372036854775808.
Definition LONG_MAX : Z := 9223372036854775807.
Definition INT_MIN : Z := - 2147483648.
Definition INT_MAX : Z := 2147483647.

(** [strtol(s, &end, 10)]: the value returned and whether [errno] is set to
    [ERANGE]; a number outside [long] is replaced by the nearest limit.
    [None] when no conversion is performed. *)
Definition strtol (s : string) : option (Z * bool) :=
  v ← integer_prefix s;
  Some (if v <? LONG_MIN then (LONG_MIN, true)
        else if LONG_MAX <? v then (LONG_MAX, true)
        else (v, false)).

(** [std::stoi]: [None] stands for the exception it throws
    ([invalid_argument] when [strtol] converts nothing, [out_of_range] when
    [strtol] reports [ERANGE] or its value lies outside [int]). *)
Definition stoi (s : string) : option Z :=
  '(v, erange) ← strtol s;
  if negb erange && (INT_MIN <=? v) && (v <=? INT_MAX) then Some v else None.

(** [stream >> int] on the text left in a stream: blanks are skipped, a sign
    and the decimal digits after it are consumed; the value read and the text
    that remains, [None] when the stream fails (no digit, or a value outside
    [int]). *)
Fixpoint drop_digits (s : string) : string :=
  match s with
  | String c r => if is_digit c then drop_digits r else s
  | EmptyString => EmptyString
  end.

Definition extract_int (s : string) : option (Z * string) :=
  v ← stoi s;
  Some (v, drop_digits (sign_and_rest (skip_space s)).2).

(** [::tolower] in the C locale. *)
Definition tolower (c : ascii) : ascii :=
  let n := nat_of_ascii c in
  if (65 <=? Z.of_nat n) && (Z.of_nat n <=? 90) then ascii_of_nat (n + 32) else c.

(** [str.find_last_of(c)]: [None] is [npos]. *)
Fixpoint find_last_of (c : ascii) (s : string) : option nat :=
  match s with
  | EmptyString => None
  | String a r =>
      match find_last_of c r with
      | Some i => Some (S i)
      | None => if Ascii.eqb a c then Some 0%nat else None
      end
  end.

(** [str.substr(pos)] for [pos <= str.size()]. *)
Definition substr_from (pos : nat) (s : string) : string :=
  String.substring pos (String.length s - pos) s.

End Str.

(** ** Library operations that are not modelled

    The floating point types and the C++ library calls whose results depend
    on them, together with the [std::regex] search of [parseHeader]. *)

Class CxxLib := {
  float : Type;
  double : Type;
  (** [0.0f] and [0.0]. *)
  float_zero : float;
  double_zero : double;
  (** [std::stof] and [std::stod]; [None] when they throw. *)
  stof : string -> option float;
  stod : string -> option double;
  (** [glm::min] and [glm::max] on one component. *)
  fmin : float -> float -> float;
  fmax : float -> float -> float;
  (** [operator<<] under [std::scientific << std::setprecision(6)]. *)
  scientific6 : float -> string;
  scientific6_double : double -> string;
  (** [stream >> float] on the text left in a stream: the value read and the
      text that remains, [None] when the stream fails. *)
  extract_float : string -> option (float * string);
  (** [std::regex_search] for [version\s*(\d+(?:\.\d+)?)]: the first group. *)
  version_search : string -> option string
}.

(** ** The deck reader and writer of [src/io/RadFileReader.cpp] *)

Module Reader.
Import Str.

Section Embedding.
Context `{L : CxxLib}.

(** [glm::vec3]. *)
Record vec3 := { vec_x : float; vec_y : float; vec_z : float }.

(** [glm::vec3(0.0f)]. *)
Definition vec3_zero : vec3 := {| vec_x := float_zero; vec_y := float_zero; vec_z := float_zero |}.

Definition vec3_min (a b : vec3) : vec3 :=
  {| vec_x := fmin (vec_x a) (vec_x b); vec_y := fmin (vec_y a) (vec_y b);
     vec_z := fmin (vec_z a) (vec_z b) |}.

Definition vec3_max (a b : vec3) : vec3 :=
  {| vec_x := fmax (vec_x a) (vec_x b); vec_y := fmax (vec_y a) (vec_y b);
     vec_z := fmax (vec_z a) (vec_z b) |}.

Record Node := {
  node_id : Z;
  node_position : vec3;
  node_dof_constraints : list Z
}.

(** [Element::Type]. *)
Inductive ElementType :=
  | UNKNOWN | TRIA3 | QUAD4 | TETRA4 | HEXA8 | PENTA6 | PYRAM5.

(** The enumerators' values, the keys of [elementsByType]. *)
Definition type_code (t : ElementType) : Z :=
  match t with
  | UNKNOWN => 0 | TRIA3 => 3 | QUAD4 => 4 | TETRA4 => 10
  | HEXA8 => 12 | PENTA6 => 13 | PYRAM5 => 14
  end.

Record Element := {
  elem_id : Z;
  elem_type : ElementType;
  elem_materialId : Z;
  elem_propertyId : Z;
  elem_nodeIds : list Z
}.

Record Material := {
  mat_id : Z;
  mat_name : string;
  mat_type : string;
  mat_properties : gmap string double
}.

Record Property := {
  prop_id : Z;
  prop_name : string;
  prop_type : string;
  prop_values : gmap string double
}.

Record LoadCase := {
  load_id : Z;
  load_name : string;
  load_type : string;
  load_nodeIds : list Z;
  load_vector : vec3;
  load_magnitude : double
}.

Record BoundaryCondition := {
  bc_id : Z;
  bc_type : string;
  bc_nodeIds : list Z;
  bc_dofs : list Z
}.

(** [RadFileReader::ParseState]. *)
Inductive ParseState :=
  | STATE_HEADER | STATE_TITLE | STATE_NODES | STATE_ELEMENTS | STATE_MATERIALS
  | STATE_PROPERTIES | STATE_LOADS | STATE_BOUNDARY_CONDITIONS | STATE_UNKNOWN.

(** The data members of [RadFileReader]. *)
Record RadFileReader := {
  nodes_ : list Node;
  elements_ : list Element;
  materials_ : list Material;
  properties_ : list Property;
  loadCases_ : list LoadCase;
  boundaryConditions_ : list BoundaryCondition;
  title_ : string;
  version_ : string;
  filename_ : string;
  isValid_ : bool;
  lastError_ : string;
  nodeIdToIndex_ : gmap Z nat;
  elementIdToIndex_ : gmap Z nat;
  materialIdToIndex_ : gmap Z nat;
  propertyIdToIndex_ : gmap Z nat
}.

(** Assignments to one data member. *)
Definition with_nodes (v : list Node) (r : RadFileReader) : RadFileReader :=
  Build_RadFileReader v (elements_ r) (materials_ r) (properties_ r) (loadCases_ r)
    (boundaryConditions_ r) (title_ r) (version_ r) (filename_ r) (isValid_ r) (lastError_ r)
    (nodeIdToIndex_ r) (elementIdToIndex_ r) (materialIdToIndex_ r) (propertyIdToIndex_ r).

Definition with_elements (v : list Element) (r : RadFileReader) : RadFileReader :=
  Build_RadFileReader (nodes_ r) v (materials_ r) (properties_ r) (loadCases_ r)
    (boundaryConditions_ r) (title_ r) (version_ r) (filename_ r) (isValid_ r) (lastError_ r)
    (nodeIdToIndex_ r) (elementIdToIndex_ r) (materialIdToIndex_ r) (propertyIdToIndex_ r).

Definition with_materials (v : list Material) (r : RadFileReader) : RadFileReader :=
  Build_RadFileReader (nodes_ r) (elements_ r) v (properties_ r) (loadCases_ r)
    (boundaryConditions_ r) (title_ r) (version_ r) (filename_ r) (isValid_ r) (lastError_ r)
    (nodeIdToIndex_ r) (elementIdToIndex_ r) (materialIdToIndex_ r) (propertyIdToIndex_ r).

Definition with_properties (v : list Property) (r : RadFileReader) : RadFileReader :=
  Build_RadFileReader (nodes_ r) (elements_ r) (materials_ r) v (loadCases_ r)
    (boundaryConditions_ r) (title_ r) (version_ r) (filename_ r) (isValid_ r) (lastError_ r)
    (nodeIdToIndex_ r) (elementIdToIndex_ r) (materialIdToIndex_ r) (propertyIdToIndex_ r).

Definition with_loadCases (v : list LoadCase) (r : RadFileReader) : RadFileReader :=
  Build_RadFileReader (nodes_ r) (elements_ r) (materials_ r) (properties_ r) v
    (boundaryConditions_ r) (title_ r) (version_ r) (filename_ r) (isValid_ r) (lastError_ r)
    (nodeIdToIndex_ r) (elementIdToIndex_ r) (materialIdToIndex_ r) (propertyIdToIndex_ r).

Definition with_boundaryConditions (v : list BoundaryCondition) (r : RadFileReader) : RadFileReader :=
  Build_RadFileReader (nodes_ r) (elements_ r) (materials_ r) (properties_ r) (loadCases_ r)
    v (title_ r) (version_ r) (filename_ r) (isValid_ r) (lastError_ r)
    (nodeIdToIndex_ r) (elementIdToIndex_ r) (materialIdToIndex_ r) (propertyIdToIndex_ r).

Definition with_title (v : string) (r : RadFileReader) : RadFileReader :=
  Build_RadFileReader (nodes_ r) (elements_ r) (materials_ r) (properties_ r) (loadCases_ r)
    (boundaryConditions_ r) v (version_ r) (filename_ r) (isValid_ r) (lastError_ r)
    (nodeIdToIndex_ r) (elementIdToIndex_ r) (materialIdToIndex_ r) (propertyIdToIndex_ r).

Definition with_version (v : string) (r : RadFileReader) : RadFileReader :=
  Build_RadFileReader (nodes_ r) (elements_ r) (materials_ r) (properties_ r) (loadCases_ r)
    (boundaryConditions_ r) (title_ r) v (filename_ r) (isValid_ r) (lastError_ r)
    (nodeIdToIndex_ r) (elementIdToIndex_ r) (materialIdToIndex_ r) (propertyIdToIndex_ r).

Definition with_filename (v : string) (r : RadFileReader) : RadFileReader :=
  Build_RadFileReader (nodes_ r) (elements_ r) (materials_ r) (properties_ r) (loadCases_ r)
    (boundaryConditions_ r) (title_ r) (version_ r) v (isValid_ r) (lastError_ r)
    (nodeIdToIndex_ r) (elementIdToIndex_ r) (materialIdToIndex_ r) (propertyIdToIndex_ r).

Definition with_isValid (v : bool) (r : RadFileReader) : RadFileReader :=
  Build_RadFileReader (nodes_ r) (elements_ r) (materials_ r) (properties_ r) (loadCases_ r)
    (boundaryConditions_ r) (title_ r) (version_ r) (filename_ r) v (lastError_ r)
    (nodeIdToIndex_ r) (elementIdToIndex_ r) (materialIdToIndex_ r) (propertyIdToIndex_ r).

(** [setError] and [clearError]. *)
Definition setError (error : string) (r : RadFileReader) : RadFileReader :=
  Build_RadFileReader (nodes_ r) (elements_ r) (materials_ r) (properties_ r) (loadCases_ r)
    (boundaryConditions_ r) (title_ r) (version_ r) (filename_ r) (isValid_ r) error
    (nodeIdToIndex_ r) (elementIdToIndex_ r) (materialIdToIndex_ r) (propertyIdToIndex_ r).

Definition clearError (r : RadFileReader) : RadFileReader := setError "" r.

Definition with_tables (n e m p : gmap Z nat) (r : RadFileReader) : RadFileReader :=
  Build_RadFileReader (nodes_ r) (elements_ r) (materials_ r) (properties_ r) (loadCases_ r)
    (boundaryConditions_ r) (title_ r) (version_ r) (filename_ r) (isValid_ r) (lastError_ r)
    n e m p.

Definition clearLookupTables (r : RadFileReader) : RadFileReader := with_tables ∅ ∅ ∅ ∅ r.

(** One loop of [buildLookupTables]: [table[items[i].id] = i] for [i] upwards. *)
Fixpoint index_from {A} (key : A -> Z) (i : nat) (items : list A) (table : gmap Z nat) : gmap Z nat :=
  match items with
  | [] => table
  | x :: rest => index_from key (S i) rest (<[key x := i]> table)
  end.

Definition buildLookupTables (r : RadFileReader) : RadFileReader :=
  let r := clearLookupTables r in
  with_tables (index_from node_id 0 (nodes_ r) (nodeIdToIndex_ r))
              (index_from elem_id 0 (elements_ r) (elementIdToIndex_ r))
              (index_from mat_id 0 (materials_ r) (materialIdToIndex_ r))
              (index_from prop_id 0 (properties_ r) (propertyIdToIndex_ r)) r.

(** The state a default-constructed reader has, which is also what [clear]
    leaves behind. *)
Definition empty_reader : RadFileReader :=
  Build_RadFileReader [] [] [] [] [] [] "" "" "" false "" ∅ ∅ ∅ ∅.

Definition clear (r : RadFileReader) : RadFileReader :=
  let r := with_nodes [] r in
  let r := with_elements [] r in
  let r := with_materials [] r in
  let r := with_properties [] r in
  let r := with_loadCases [] r in
  let r := with_boundaryConditions [] r in
  let r := with_title "" r in
  let r := with_version "" r in
  let r := with_filename "" r in
  let r := with_isValid false r in
  let r := clearLookupTables r in
  clearError r.

(** *** Line utilities *)

Definition trim (str : string) : string :=
  match find_first_not_of is_blank str with
  | None => ""
  | Some start =>
      match find_last_not_of is_blank str with
      | Some last => String.substring start (last - start + 1) str
      | None => ""
      end
  end.

(** [tokenizeLine] with its default delimiter, the space. *)
Definition tokenizeLine (line : string) : list string :=
  filter (fun token => is_empty token = false) (trim <$> getline " " line).

Definition first_char_is (c : ascii) (s : string) : bool :=
  match s with
  | String c0 _ => Ascii.eqb c0 c
  | EmptyString => false
  end.

Definition isComment (line : string) : bool :=
  let trimmed := trim line in
  is_empty trimmed || first_char_is "#" trimmed || first_char_is "C" trimmed
  || first_char_is "c" trimmed.

Definition isEmpty (line : string) : bool := is_empty (trim line).

Definition determineSection (line : string) : ParseState :=
  let upperLine := map_chars toupper line in
  if contains "/TITLE" upperLine then STATE_TITLE
  else if contains "/NODE" upperLine then STATE_NODES
  else if contains "/CNODE" upperLine then STATE_NODES
  else if contains "/BRICK" upperLine then STATE_ELEMENTS
  else if contains "/HEXA" upperLine then STATE_ELEMENTS
  else if contains "/TETRA4" upperLine then STATE_ELEMENTS
  else if contains "/TETRA10" upperLine then STATE_ELEMENTS
  else if contains "/SHELL" upperLine then STATE_ELEMENTS
  else if contains "/SH3N" upperLine then STATE_ELEMENTS
  else if contains "/QUAD" upperLine then STATE_ELEMENTS
  else if contains "/TRIA" upperLine then STATE_ELEMENTS
  else if contains "/MAT" upperLine then STATE_MATERIALS
  else if contains "/PROP" upperLine then STATE_PROPERTIES
  else if contains "/PART" upperLine then STATE_PROPERTIES
  else if contains "/LOAD" upperLine then STATE_LOADS
  else if contains "/CLOAD" upperLine then STATE_LOADS
  else if contains "/PLOAD" upperLine then STATE_LOADS
  else if contains "/BCS" upperLine then STATE_BOUNDARY_CONDITIONS
  else if contains "/SPC" upperLine then STATE_BOUNDARY_CONDITIONS
  else if contains "/IMPVEL" upperLine then STATE_BOUNDARY_CONDITIONS
  else STATE_UNKNOWN.


(** *** Section parsers

    Each parser returns its [bool] result and the reader after the call.  The
    [try] blocks build a local entity and append it as their last step, so a
    thrown exception ([None] below) leaves the reader as it was. *)

(** [tokens[i]], read only below [tokens.size()]. *)
Definition token (tokens : list string) (i : nat) : string := nth i tokens "".

Definition parseHeader (line : string) (r : RadFileReader) : bool * RadFileReader :=
  if contains "#RADIOSS" line then
    match version_search line with
    | Some v => (true, with_version v r)
    | None => (true, r)
    end
  else if contains "/BEGIN" line then (true, r)
  else (true, r).

Definition parseTitle (line : string) (r : RadFileReader) : bool * RadFileReader :=
  if is_empty (title_ r) then (true, with_title (trim line) r)
  else (true, with_title (title_ r +:+ " " +:+ trim line) r).

Definition parseNode (line : string) (r : RadFileReader) : bool * RadFileReader :=
  let tokens := tokenizeLine line in
  if (length tokens <? 4)%nat then (false, r)
  else
    match
      id ← stoi (token tokens 0);
      x ← stof (token tokens 1);
      y ← stof (token tokens 2);
      z ← stof (token tokens 3);
      Some {| node_id := id; node_position := {| vec_x := x; vec_y := y; vec_z := z |};
              node_dof_constraints := [] |}
    with
    | Some node => (true, with_nodes (nodes_ r ++ [node]) r)
    | None => (false, r)
    end.

(** The [switch (nodeCount)] of [parseElement]. *)
Definition type_of_node_count (nodeCount : nat) : ElementType :=
  match nodeCount with
  | 3 => TRIA3
  | 4 => QUAD4
  | 5 => PYRAM5
  | 6 => PENTA6
  | 8 => HEXA8
  | _ => UNKNOWN
  end%nat.

Definition parseElement (line : string) (r : RadFileReader) : bool * RadFileReader :=
  let tokens := tokenizeLine line in
  if (length tokens <? 3)%nat then (false, r)
  else
    match
      id ← stoi (token tokens 0);
      let nodeCount := (length tokens - 3)%nat in
      if (2 <=? nodeCount)%nat then
        materialId ← stoi (token tokens 1);
        propertyId ← stoi (token tokens 2);
        nodeIds ← mapM stoi (drop 3 tokens);
        Some {| elem_id := id; elem_type := type_of_node_count nodeCount;
                elem_materialId := materialId; elem_propertyId := propertyId;
                elem_nodeIds := nodeIds |}
      else
        Some {| elem_id := id; elem_type := UNKNOWN; elem_materialId := 0;
                elem_propertyId := 0; elem_nodeIds := [] |}
    with
    | Some element => (true, with_elements (elements_ r ++ [element]) r)
    | None => (false, r)
    end.

(** The loop [for (i = 2; i < tokens.size(); i += 2)] of [parseMaterial] and
    [parseProperty], run on the tokens from position 2: a name with the value
    after it is stored, a last token without a value is passed over. *)
Fixpoint parse_named_values (tokens : list string) (bag : gmap string double)
  : option (gmap string double) :=
  match tokens with
  | propName :: value :: rest =>
      propValue ← stod value;
      parse_named_values rest (<[propName := propValue]> bag)
  | _ => Some bag
  end.

Definition parseMaterial (line : string) (r : RadFileReader) : bool * RadFileReader :=
  let tokens := tokenizeLine line in
  if (length tokens <? 2)%nat then (false, r)
  else
    match
      id ← stoi (token tokens 0);
      properties ← parse_named_values (drop 2 tokens) ∅;
      Some {| mat_id := id; mat_name := "";
              mat_type := if (1 <? length tokens)%nat then token tokens 1 else "";
              mat_properties := properties |}
    with
    | Some material => (true, with_materials (materials_ r ++ [material]) r)
    | None => (false, r)
    end.

Definition parseProperty (line : string) (r : RadFileReader) : bool * RadFileReader :=
  let tokens := tokenizeLine line in
  if (length tokens <? 2)%nat then (false, r)
  else
    match
      id ← stoi (token tokens 0);
      values ← parse_named_values (drop 2 tokens) ∅;
      Some {| prop_id := id; prop_name := "";
              prop_type := if (1 <? length tokens)%nat then token tokens 1 else "";
              prop_values := values |}
    with
    | Some property => (true, with_properties (properties_ r ++ [property]) r)
    | None => (false, r)
    end.

Definition parseLoadCase (line : string) (r : RadFileReader) : bool * RadFileReader :=
  let tokens := tokenizeLine line in
  if (length tokens <? 5)%nat then (false, r)
  else
    match
      id ← stoi (token tokens 0);
      magnitude ← stod (token tokens 2);
      x ← stof (token tokens 3);
      y ← stof (token tokens 4);
      z ← (if (5 <? length tokens)%nat then stof (token tokens 5) else Some float_zero);
      nodeIds ← mapM stoi (drop 6 tokens);
      Some {| load_id := id; load_name := ""; load_type := token tokens 1;
              load_nodeIds := nodeIds;
              load_vector := {| vec_x := x; vec_y := y; vec_z := z |};
              load_magnitude := magnitude |}
    with
    | Some loadCase => (true, with_loadCases (loadCases_ r ++ [loadCase]) r)
    | None => (false, r)
    end.

(** The characters of ["123456"]. *)
Definition is_dof_char (c : ascii) : bool :=
  (49 <=? Z.of_nat (nat_of_ascii c)) && (Z.of_nat (nat_of_ascii c) <=? 54).

(** [for (char c : token) if (c >= '1' && c <= '6') dofs.push_back(c - '0')]. *)
Fixpoint push_dofs (tok : string) (dofs : list Z) : list Z :=
  match tok with
  | EmptyString => dofs
  | String c rest =>
      push_dofs rest (if is_dof_char c then dofs ++ [digit_value c] else dofs)
  end.

(** The loop over [tokens[2..]] of [parseBoundaryCondition]. *)
Fixpoint parse_bc_tokens (tokens : list string) (bc : BoundaryCondition)
  : option BoundaryCondition :=
  match tokens with
  | [] => Some bc
  | tok :: rest =>
      if has_any_of is_dof_char tok then
        parse_bc_tokens rest
          {| bc_id := bc_id bc; bc_type := bc_type bc; bc_nodeIds := bc_nodeIds bc;
             bc_dofs := push_dofs tok (bc_dofs bc) |}
      else
        nodeId ← stoi tok;
        parse_bc_tokens rest
          {| bc_id := bc_id bc; bc_type := bc_type bc;
             bc_nodeIds := bc_nodeIds bc ++ [nodeId]; bc_dofs := bc_dofs bc |}
  end.

Definition parseBoundaryCondition (line : string) (r : RadFileReader) : bool * RadFileReader :=
  let tokens := tokenizeLine line in
  if (length tokens <? 3)%nat then (false, r)
  else
    match
      id ← stoi (token tokens 0);
      parse_bc_tokens (drop 2 tokens)
        {| bc_id := id; bc_type := token tokens 1; bc_nodeIds := []; bc_dofs := [] |}
    with
    | Some bc => (true, with_boundaryConditions (boundaryConditions_ r ++ [bc]) r)
    | None => (false, r)
    end.

(** *** The reading loop *)

(** The [switch (currentState)] of [parseFile]. *)
Definition parseContent (currentState : ParseState) (line : string) (r : RadFileReader)
  : bool * RadFileReader :=
  match currentState with
  | STATE_HEADER => parseHeader line r
  | STATE_TITLE => parseTitle line r
  | STATE_NODES => parseNode line r
  | STATE_ELEMENTS => parseElement line r
  | STATE_MATERIALS => parseMaterial line r
  | STATE_PROPERTIES => parseProperty line r
  | STATE_LOADS => parseLoadCase line r
  | STATE_BOUNDARY_CONDITIONS => parseBoundaryCondition line r
  | STATE_UNKNOWN => (true, r)
  end.

Definition is_unknown (s : ParseState) : bool :=
  match s with STATE_UNKNOWN => true | _ => false end.

(** What the loop of [parseFile] leaves: whether it ran to the end of the
    stream, its locals [currentState] and [lineNumber], and the reader. *)
Record LoopResult := {
  loop_ok : bool;
  loop_state : ParseState;
  loop_line : Z;
  loop_reader : RadFileReader
}.

(** The [while (std::getline(file, line))] loop of [parseFile] over the lines
    still to be read. *)
Fixpoint parseLoop (lines : list string) (currentState : ParseState) (lineNumber : Z)
    (r : RadFileReader) : LoopResult :=
  match lines with
  | [] => Build_LoopResult true currentState lineNumber r
  | line :: rest =>
      let lineNumber := lineNumber + 1 in
      if isEmpty line || isComment line then parseLoop rest currentState lineNumber r
      else
        let newState := determineSection line in
        if negb (is_unknown newState) then parseLoop rest newState lineNumber r
        else
          let '(parseSuccess, r') := parseContent currentState line r in
          if parseSuccess then parseLoop rest currentState lineNumber r'
          else
            Build_LoopResult false currentState lineNumber
              (setError ("Parse error at line " +:+ to_string lineNumber +:+ ": " +:+ line) r')
  end.

(** [parseFile] on the bytes of an opened file. *)
Definition parseFile (file : string) (r : RadFileReader) : bool * RadFileReader :=
  let res := parseLoop (getline "010" file) STATE_HEADER 0 r in
  (loop_ok res, loop_reader res).

(** *** Lookup, bounds and validation *)

(** [findNode]: [None] is the null pointer. *)
Definition findNode (r : RadFileReader) (id : Z) : option Node :=
  match nodeIdToIndex_ r !! id with
  | Some i => if (i <? length (nodes_ r))%nat then nodes_ r !! i else None
  | None => None
  end.

Definition findElement (r : RadFileReader) (id : Z) : option Element :=
  match elementIdToIndex_ r !! id with
  | Some i => if (i <? length (elements_ r))%nat then elements_ r !! i else None
  | None => None
  end.

Definition getBoundingBox (r : RadFileReader) : vec3 * vec3 :=
  match nodes_ r with
  | [] => (vec3_zero, vec3_zero)
  | first :: _ =>
      fold_left
        (fun '(minPos, maxPos) node =>
           (vec3_min minPos (node_position node), vec3_max maxPos (node_position node)))
        (nodes_ r) (node_position first, node_position first)
  end.

(** [RadFileUtils::getElementNodeCount]. *)
Definition getElementNodeCount (t : ElementType) : Z :=
  match t with
  | TRIA3 => 3
  | QUAD4 => 4
  | TETRA4 => 4
  | PYRAM5 => 5
  | PENTA6 => 6
  | HEXA8 => 8
  | UNKNOWN => 0
  end.

(** The loop of [validateNodes] with its local set [nodeIds]. *)
Fixpoint validateNodes_from (nodes : list Node) (nodeIds : gset Z) : bool :=
  match nodes with
  | [] => true
  | node :: rest =>
      if decide (node_id node ∈ nodeIds) then false
      else validateNodes_from rest ({[node_id node]} ∪ nodeIds)
  end.

Definition validateNodes (r : RadFileReader) : bool := validateNodes_from (nodes_ r) ∅.

(** The loop of [validateElements]; [element.nodeIds.size()] is cast to
    [int], which is exact for every size below [2^31]. *)
Fixpoint validateElements_from (elements : list Element) (elementIds : gset Z) : bool :=
  match elements with
  | [] => true
  | element :: rest =>
      if decide (elem_id element ∈ elementIds) then false
      else
        let expectedNodes := getElementNodeCount (elem_type element) in
        if (0 <? expectedNodes)
           && negb (Z.of_nat (length (elem_nodeIds element)) =? expectedNodes)
        then false
        else validateElements_from rest ({[elem_id element]} ∪ elementIds)
  end.

Definition validateElements (r : RadFileReader) : bool :=
  validateElements_from (elements_ r) ∅.

Definition validateReferences (r : RadFileReader) : bool :=
  forallb (fun element => forallb (fun nodeId => bool_decide (is_Some (findNode r nodeId)))
                            (elem_nodeIds element))
          (elements_ r).

Definition validateData (r : RadFileReader) : bool :=
  validateNodes r && validateElements r && validateReferences r.

(** *** Loading

    [fs] is the file system seen by [std::ifstream]: the bytes of the file a
    path opens, [None] for a path that cannot be opened. *)
Definition loadFile (fs : string -> option string) (filename : string) (r : RadFileReader)
  : bool * RadFileReader :=
  let r := clear r in
  let r := with_filename filename r in
  match fs filename with
  | None => (false, setError ("Cannot open file: " +:+ filename) r)
  | Some file =>
      let '(success, r) := parseFile file r in
      if success then
        let r := buildLookupTables r in
        let r := with_isValid (validateData r) r in
        let r := if isValid_ r then r else setError "File validation failed" r in
        (success && isValid_ r, r)
      else (success && isValid_ r, r)
  end.

(** *** Writing *)

Definition newline : string := String "010" EmptyString.

Definition writeHeader (r : RadFileReader) : string :=
  "#RADIOSS STARTER" +:+ newline +:+ "/BEGIN" +:+ newline +:+
  (if is_empty (title_ r) then "" else "/TITLE" +:+ newline +:+ title_ r +:+ newline).

Definition write_float (x : float) : string := setw 20 (scientific6 x).
Definition write_double (x : double) : string := setw 20 (scientific6_double x).
Definition write_int (z : Z) : string := setw 10 (to_string z).

Definition write_node (node : Node) : string :=
  write_int (node_id node) +:+ write_float (vec_x (node_position node))
  +:+ write_float (vec_y (node_position node)) +:+ write_float (vec_z (node_position node))
  +:+ newline.

Definition writeNodes (r : RadFileReader) : string :=
  match nodes_ r with
  | [] => ""
  | _ => "/NODE" +:+ newline +:+ String.concat "" (write_node <$> nodes_ r)
  end.

(** [elementsByType[element.type].push_back(&element)] over all elements. *)
Definition group_by_type (elements : list Element) : gmap Z (list Element) :=
  fold_left
    (fun groups element =>
       <[type_code (elem_type element) :=
           (default [] (groups !! type_code (elem_type element)) ++ [element])%list]> groups)
    elements ∅.

(** The header [writeElements] emits for a key of [elementsByType]. *)
Definition element_header (code : Z) : string :=
  if code =? type_code TRIA3 then "/SH3N"
  else if code =? type_code QUAD4 then "/SHELL"
  else if code =? type_code TETRA4 then "/TETRA4"
  else if code =? type_code HEXA8 then "/BRICK"
  else if code =? type_code PENTA6 then "/PENTA6"
  else if code =? type_code PYRAM5 then "/PYRAM5"
  else "/SHELL".

Definition write_element (element : Element) : string :=
  write_int (elem_id element) +:+ write_int (elem_materialId element)
  +:+ write_int (elem_propertyId element)
  +:+ String.concat "" (write_int <$> elem_nodeIds element) +:+ newline.

(** The groups are written in the iteration order of the unordered map, which
    C++ leaves unspecified; here it is the order of [map_to_list]. *)
Definition writeElements (r : RadFileReader) : string :=
  String.concat ""
    ((fun '(code, elements) =>
        element_header code +:+ newline +:+ String.concat "" (write_element <$> elements))
     <$> map_to_list (group_by_type (elements_ r))).

Definition write_material (material : Material) : string :=
  "/MAT/" +:+ mat_type material +:+ newline +:+ write_int (mat_id material)
  +:+ String.concat "" ((fun prop => write_double prop.2) <$> map_to_list (mat_properties material))
  +:+ newline.

Definition writeMaterials (r : RadFileReader) : string :=
  String.concat "" (write_material <$> materials_ r).

Definition write_property (property : Property) : string :=
  "/PROP/" +:+ prop_type property +:+ newline +:+ write_int (prop_id property)
  +:+ String.concat "" ((fun val => write_double val.2) <$> map_to_list (prop_values property))
  +:+ newline.

Definition writeProperties (r : RadFileReader) : string :=
  String.concat "" (write_property <$> properties_ r).

Definition write_loadCase (loadCase : LoadCase) : string :=
  "/CLOAD" +:+ newline +:+ write_int (load_id loadCase)
  +:+ write_double (load_magnitude loadCase)
  +:+ write_float (vec_x (load_vector loadCase))
  +:+ write_float (vec_y (load_vector loadCase))
  +:+ write_float (vec_z (load_vector loadCase))
  +:+ String.concat "" (write_int <$> load_nodeIds loadCase) +:+ newline.

Definition writeLoadCases (r : RadFileReader) : string :=
  String.concat "" (write_loadCase <$> loadCases_ r).

Definition write_boundaryCondition (bc : BoundaryCondition) : string :=
  "/BCS" +:+ newline +:+ write_int (bc_id bc)
  +:+ String.concat "" (to_string <$> bc_dofs bc)
  +:+ setw 10 ""
  +:+ String.concat "" (write_int <$> bc_nodeIds bc) +:+ newline.

Definition writeBoundaryConditions (r : RadFileReader) : string :=
  String.concat "" (write_boundaryCondition <$> boundaryConditions_ r).

(** [saveFile]: the bytes written to the file, [None] when it returns [false]
    before opening one.  The output stream is taken to open and to stay good. *)
Definition saveFile (r : RadFileReader) : option string :=
  if negb (isValid_ r) then None
  else
    Some (writeHeader r +:+ writeNodes r +:+ writeElements r +:+ writeMaterials r
          +:+ writeProperties r +:+ writeLoadCases r +:+ writeBoundaryConditions r).

(** *** Further lookups and the editing entry points *)

Definition findMaterial (r : RadFileReader) (id : Z) : option Material :=
  match materialIdToIndex_ r !! id with
  | Some i => if (i <? length (materials_ r))%nat then materials_ r !! i else None
  | None => None
  end.

Definition findProperty (r : RadFileReader) (id : Z) : option Property :=
  match propertyIdToIndex_ r !! id with
  | Some i => if (i <? length (properties_ r))%nat then properties_ r !! i else None
  | None => None
  end.

Definition addNode (node : Node) (r : RadFileReader) : RadFileReader :=
  buildLookupTables (with_nodes (nodes_ r ++ [node]) r).

Definition addElement (element : Element) (r : RadFileReader) : RadFileReader :=
  buildLookupTables (with_elements (elements_ r ++ [element]) r).

Definition addMaterial (material : Material) (r : RadFileReader) : RadFileReader :=
  buildLookupTables (with_materials (materials_ r ++ [material]) r).

Definition addProperty (property : Property) (r : RadFileReader) : RadFileReader :=
  buildLookupTables (with_properties (properties_ r ++ [property]) r).

(** *** [RadFileUtils] *)

(** [isRadFile]: the extension is the text after the last dot; without a
    dot, [find_last_of] returns [npos], [npos + 1] wraps to 0 and the whole
    name is taken. *)
Definition isRadFile (filename : string) : bool :=
  let extension :=
    match find_last_of "." filename with
    | Some i => substr_from (S i) filename
    | None => substr_from 0 filename
    end in
  let extension := map_chars tolower extension in
  String.eqb extension "rad" || String.eqb extension "key" || String.eqb extension "k".

(** The loop of [detectFileFormat] over the lines of the file. *)
Fixpoint detect_in (lines : list string) : string :=
  match lines with
  | [] => "UNKNOWN"
  | line :: rest =>
      if contains "#RADIOSS" line then "RADIOSS"
      else if contains "*KEYWORD" line then "LS-DYNA"
      else if contains "/BEGIN" line then "RADIOSS"
      else detect_in rest
  end.

Definition detectFileFormat (fs : string -> option string) (filename : string) : string :=
  match fs filename with
  | None => "UNKNOWN"
  | Some file => detect_in (getline "010" file)
  end.

Definition elementTypeToString (t : ElementType) : string :=
  match t with
  | TRIA3 => "TRIA3"
  | QUAD4 => "QUAD4"
  | TETRA4 => "TETRA4"
  | HEXA8 => "HEXA8"
  | PENTA6 => "PENTA6"
  | PYRAM5 => "PYRAM5"
  | UNKNOWN => "UNKNOWN"
  end.

Definition stringToElementType (typeStr : string) : ElementType :=
  let upper := map_chars toupper typeStr in
  if String.eqb upper "TRIA3" || String.eqb upper "TRI3" then TRIA3
  else if String.eqb upper "QUAD4" || String.eqb upper "QUAD" then QUAD4
  else if String.eqb upper "TETRA4" || String.eqb upper "TET4" then TETRA4
  else if String.eqb upper "HEXA8" || String.eqb upper "HEX8" then HEXA8
  else if String.eqb upper "PENTA6" || String.eqb upper "PENT6" then PENTA6
  else if String.eqb upper "PYRAM5" || String.eqb upper "PYR5" then PYRAM5
  else UNKNOWN.

(** *** The element buffers of [createGeometryBuffers] ([main.cpp])

    A vertex is one group of six floats of [elementData]: the position of a
    node and the colour chosen by the [switch] on the element type.  The
    OpenGL calls are left out. *)

Inductive Colour := Green | Blue | Yellow | Magenta | Grey.

Definition colour_of (t : ElementType) : Colour :=
  match t with
  | TRIA3 => Green
  | QUAD4 => Blue
  | TETRA4 => Yellow
  | HEXA8 => Magenta
  | _ => Grey
  end.

Record Vertex := { vertex_position : vec3; vertex_colour : Colour }.

(** The positions in [elementIndices] that the faces of a type read, in the
    order of the [push_back] calls. *)
Definition face_corners (t : ElementType) : list nat :=
  match t with
  | TRIA3 => [0; 1; 2]
  | QUAD4 => [0; 1; 2; 0; 2; 3]
  | TETRA4 => [0; 1; 2; 0; 1; 3; 0; 2; 3; 1; 2; 3]
  | HEXA8 =>
      concat ((fun face : nat * nat * nat * nat =>
                 let '(a, b, c, d) := face in [a; b; c; a; c; d])
              <$> [(0, 1, 2, 3); (4, 7, 6, 5); (0, 4, 5, 1);
                   (2, 6, 7, 3); (0, 3, 7, 4); (1, 5, 6, 2)])
  | _ => []
  end%nat.

(** The loop over [element.nodeIds]: a vertex is appended for every node that
    [findNode] resolves, and its number is [elementData.size() / 6]. *)
Fixpoint collect_vertices (r : RadFileReader) (t : ElementType) (nodeIds : list Z)
    (elementData : list Vertex) (elementIndices : list nat) : list Vertex * list nat :=
  match nodeIds with
  | [] => (elementData, elementIndices)
  | nodeId :: rest =>
      match findNode r nodeId with
      | Some node =>
          collect_vertices r t rest
            (elementData ++ [{| vertex_position := node_position node;
                                vertex_colour := colour_of t |}])
            (elementIndices ++ [length elementData])
      | None => collect_vertices r t rest elementData elementIndices
      end
  end.

(** The body of the loop over the elements; [None] is a read of
    [elementIndices] past its end. *)
Definition add_element_geometry (r : RadFileReader) (element : Element)
    (buffers : list Vertex * list nat) : option (list Vertex * list nat) :=
  let '(elementData, indices) := buffers in
  if (length (elem_nodeIds element) <? 3)%nat then Some buffers
  else
    let '(elementData, elementIndices) :=
      collect_vertices r (elem_type element) (elem_nodeIds element) elementData [] in
    if (3 <=? length elementIndices)%nat then
      picked ← mapM (fun corner => elementIndices !! corner) (face_corners (elem_type element));
      Some (elementData, (indices ++ picked)%list)
    else Some (elementData, indices).

Fixpoint element_geometry_from (r : RadFileReader) (elements : list Element)
    (buffers : list Vertex * list nat) : option (list Vertex * list nat) :=
  match elements with
  | [] => Some buffers
  | element :: rest =>
      buffers' ← add_element_geometry r element buffers;
      element_geometry_from r rest buffers'
  end.

(** The vertex and index buffers for the elements; nothing is built for a
    reader that is not valid. *)
Definition element_geometry (r : RadFileReader) : option (list Vertex * list nat) :=
  if negb (isValid_ r) then Some ([], [])
  else element_geometry_from r (elements_ r) ([], []).

End Embedding.
End Reader.

(** ** The basic reader of [src/radfilereader.cpp]

    The same class with a simpler [loadFile]: it knows the node and element
    sections only and keeps no lookup tables.  [Node], [Element] and the data
    members are those of the header shared with the reader above. *)

Module BasicReader.
Import Str Reader.

Section Embedding.
Context `{L : CxxLib}.

Definition clear (r : RadFileReader) : RadFileReader :=
  let r := with_nodes [] r in
  let r := with_elements [] r in
  let r := with_title "" r in
  let r := with_isValid false r in
  setError "" r.

(** [iss >> id >> x >> y >> z]. *)
Definition read_node (line : string) : option Node :=
  '(id, s) ← extract_int line;
  '(x, s) ← extract_float s;
  '(y, s) ← extract_float s;
  '(z, _) ← extract_float s;
  Some {| node_id := id; node_position := {| vec_x := x; vec_y := y; vec_z := z |};
          node_dof_constraints := [] |}.

(** [while (iss >> val) values.push_back(val)]; every extraction consumes a
    character, so the length of the text plus one bounds the iterations. *)
Fixpoint read_ints (fuel : nat) (s : string) : list Z :=
  match fuel with
  | O => []
  | S fuel =>
      match extract_int s with
      | Some (val, rest) => val :: read_ints fuel rest
      | None => []
      end
  end.

Definition read_element (line : string) : option Element :=
  let values := read_ints (S (String.length line)) line in
  if (4 <=? length values)%nat then
    let nodeIds := drop 3 values in
    Some {| elem_id := nth 0 values 0; elem_type :=
              match length nodeIds with
              | 3 => TRIA3
              | 4 => QUAD4
              | 8 => HEXA8
              | _ => UNKNOWN
              end%nat;
            elem_materialId := nth 1 values 0; elem_propertyId := nth 2 values 0;
            elem_nodeIds := nodeIds |}
  else None.

(** [line.empty() || line[0] == '#' || line[0] == 'C']. *)
Definition skipped (line : string) : bool :=
  is_empty line || first_char_is "#" line || first_char_is "C" line.

(** The [while (std::getline(file, line))] loop of [loadFile] with its flags
    [inNodes] and [inElements]; a line with [/TITLE] takes the line after it
    from the stream as the title.  When that line is the last of the stream,
    the inner [std::getline] empties the title if the line ended with a
    newline ([terminated]); if it ended with the stream, [eofbit] is set, the
    call fails before it touches the title, and the title stays. *)
Fixpoint load_loop (terminated : bool) (lines : list string) (inNodes inElements : bool)
    (r : RadFileReader) : RadFileReader :=
  match lines with
  | [] => r
  | line :: rest =>
      if skipped line then load_loop terminated rest inNodes inElements r
      else if contains "/NODE" line then load_loop terminated rest true false r
      else if contains "/SHELL" line || contains "/BRICK" line || contains "/TRIA" line
      then load_loop terminated rest false true r
      else if contains "/TITLE" line then
        match rest with
        | title :: rest' => load_loop terminated rest' inNodes inElements (with_title title r)
        | [] => if terminated then with_title "" r else r
        end
      else
        let r :=
          if inNodes then
            match read_node line with
            | Some node => with_nodes (nodes_ r ++ [node]) r
            | None => r
            end
          else r in
        let r :=
          if inElements then
            match read_element line with
            | Some element => with_elements (elements_ r ++ [element]) r
            | None => r
            end
          else r in
        load_loop terminated rest inNodes inElements r
  end.

Definition loadFile (fs : string -> option string) (filename : string) (r : RadFileReader)
  : bool * RadFileReader :=
  let r := clear r in
  match fs filename with
  | None => (false, setError ("Cannot open file: " +:+ filename) r)
  | Some file =>
      let r := load_loop (ends_with "010" file) (getline "010" file) false false r in
      let r := with_isValid (negb (match nodes_ r with [] => true | _ => false end)) r in
      (isValid_ r, r)
  end.

(** [std::find_if] over a vector: the first item that satisfies the test. *)
Fixpoint find_if {A} (test : A -> bool) (items : list A) : option A :=
  match items with
  | [] => None
  | x :: rest => if test x then Some x else find_if test rest
  end.

Definition findNode (r : RadFileReader) (id : Z) : option Node :=
  find_if (fun node => node_id node =? id) (nodes_ r).

Definition findElement (r : RadFileReader) (id : Z) : option Element :=
  find_if (fun element => elem_id element =? id) (elements_ r).

Definition getBoundingBox (r : RadFileReader) : vec3 * vec3 := Reader.getBoundingBox r.

(** [operator<<] for a [float] under the default formatting of a stream,
    which stays abstract. *)
Variable float_text : float -> string.

(** The lines that [saveFile] writes for a node and for an element. *)
Definition save_node_line (node : Node) : string :=
  to_string (node_id node) +:+ " " +:+ float_text (vec_x (node_position node))
  +:+ " " +:+ float_text (vec_y (node_position node))
  +:+ " " +:+ float_text (vec_z (node_position node)) +:+ newline.

Definition save_element_line (element : Element) : string :=
  to_string (elem_id element) +:+ " " +:+ to_string (elem_materialId element)
  +:+ " " +:+ to_string (elem_propertyId element)
  +:+ String.concat "" ((fun nodeId => " " +:+ to_string nodeId) <$> elem_nodeIds element)
  +:+ newline.

(** [saveFile]: the bytes written to the file, [None] when it returns [false]
    before opening one.  The output stream is taken to open. *)
Definition saveFile (r : RadFileReader) : option string :=
  if negb (isValid_ r) then None
  else
    Some ("#RADIOSS STARTER" +:+ newline +:+ "/BEGIN" +:+ newline
          +:+ (if is_empty (title_ r) then ""
               else "/TITLE" +:+ newline +:+ title_ r +:+ newline)
          +:+ (match nodes_ r with
               | [] => ""
               | _ => "/NODE" +:+ newline +:+ String.concat "" (save_node_line <$> nodes_ r)
               end)
          +:+ (match elements_ r with
               | [] => ""
               | _ => "/SHELL" +:+ newline
                      +:+ String.concat "" (save_element_line <$> elements_ r)
               end)
          +:+ "/END" +:+ newline).

End Embedding.
End BasicReader.

(** ** The indexed model store of [Model.h] and [Model.cpp] *)

Module Model.
Import Reader.

(** What a lookup returns: the null pointer, a pointer to a stored entity, or
    a pointer past the end of the vector ([&v[i]] with [i >= v.size()]). *)
Inductive Pointer (A : Type) :=
  | Null
  | Stored (x : A)
  | PastTheEnd.
Arguments Null {A}.
Arguments Stored {A} x.
Arguments PastTheEnd {A}.

Section Embedding.
Context `{L : CxxLib}.

(** [struct Node] of [core/Node.h]. *)
Record Node := {
  id : Z;
  position : vec3;
  displacement : vec3;
  velocity : vec3;
  acceleration : vec3;
  fixedX : bool;
  fixedY : bool;
  fixedZ : bool
}.

(** [enum class ElementType] of [core/Element.h]. *)
Inductive ElementType :=
  | UNKNOWN | SHELL3 | SHELL4 | TETRA4 | HEXA8 | BEAM2 | SPRING1.

Record Element := {
  element_id : Z;
  element_type : ElementType;
  nodeIds : list Z;
  materialId : Z;
  propertyId : Z;
  thickness : float
}.

(** [Element::StringToType], [Element::TypeToString] and
    [Element::GetNodeCount] of [core/Element.cpp]. *)
Definition StringToType (typeStr : string) : ElementType :=
  if String.eqb typeStr "SH3N" then SHELL3
  else if String.eqb typeStr "SHELL" then SHELL4
  else if String.eqb typeStr "TETRA" then TETRA4
  else if String.eqb typeStr "BRICK" then HEXA8
  else if String.eqb typeStr "BEAM" then BEAM2
  else if String.eqb typeStr "SPRING" then SPRING1
  else UNKNOWN.

Definition TypeToString (t : ElementType) : string :=
  match t with
  | SHELL3 => "SH3N"
  | SHELL4 => "SHELL"
  | TETRA4 => "TETRA"
  | HEXA8 => "BRICK"
  | BEAM2 => "BEAM"
  | SPRING1 => "SPRING"
  | UNKNOWN => "UNKNOWN"
  end.

Definition GetNodeCount (t : ElementType) : Z :=
  match t with
  | SHELL3 => 3
  | SHELL4 => 4
  | TETRA4 => 4
  | HEXA8 => 8
  | BEAM2 => 2
  | SPRING1 => 1
  | UNKNOWN => 0
  end.

(** [enum class MaterialType] of [core/Material.h]. *)
Inductive MaterialType :=
  | ELASTIC | PLASTIC | JOHNSON_COOK | COMPOSITE | HYPERELASTIC.

Record Material := {
  material_id : Z;
  material_name : string;
  material_type : MaterialType;
  density : float;
  youngModulus : float;
  poissonRatio : float;
  yieldStress : float;
  tangentModulus : float;
  jc_A : float; jc_B : float; jc_n : float; jc_C : float; jc_m : float;
  jc_D1 : float; jc_D2 : float; jc_D3 : float; jc_D4 : float; jc_D5 : float
}.

(** The data members of [Model]. *)
Record Model := {
  m_Nodes : list Node;
  m_Elements : list Element;
  m_Materials : list Material;
  m_NodeIdToIndex : gmap Z nat;
  m_ElementIdToIndex : gmap Z nat;
  m_MaterialIdToIndex : gmap Z nat;
  m_MinBounds : vec3;
  m_MaxBounds : vec3
}.

(** [Model::Model()]. *)
Definition empty : Model :=
  Build_Model [] [] [] ∅ ∅ ∅ vec3_zero vec3_zero.

Definition AddNode (node : Node) (m : Model) : Model :=
  Build_Model (m_Nodes m ++ [node]) (m_Elements m) (m_Materials m)
    (<[id node := length (m_Nodes m)]> (m_NodeIdToIndex m))
    (m_ElementIdToIndex m) (m_MaterialIdToIndex m) (m_MinBounds m) (m_MaxBounds m).

(** The loop [for (auto& pair : table) if (pair.second > index) pair.second--]. *)
Definition shift_down (index : nat) (table : gmap Z nat) : gmap Z nat :=
  (fun position => if (index <? position)%nat then (position - 1)%nat else position) <$> table.

(** [RemoveNode]; [vector::erase] at a position that is not in the vector is
    undefined, which is [None] here. *)
Definition RemoveNode (nodeId : Z) (m : Model) : option Model :=
  match m_NodeIdToIndex m !! nodeId with
  | Some index =>
      if (index <? length (m_Nodes m))%nat then
        Some (Build_Model (delete index (m_Nodes m)) (m_Elements m) (m_Materials m)
                (shift_down index (delete nodeId (m_NodeIdToIndex m)))
                (m_ElementIdToIndex m) (m_MaterialIdToIndex m) (m_MinBounds m) (m_MaxBounds m))
      else None
  | None => Some m
  end.

Definition at_index {A} (items : list A) (index : nat) : Pointer A :=
  match items !! index with
  | Some x => Stored x
  | None => PastTheEnd
  end.

Definition GetNode (nodeId : Z) (m : Model) : Pointer Node :=
  match m_NodeIdToIndex m !! nodeId with
  | Some index => at_index (m_Nodes m) index
  | None => Null
  end.

Definition AddElement (element : Element) (m : Model) : Model :=
  Build_Model (m_Nodes m) (m_Elements m ++ [element]) (m_Materials m)
    (m_NodeIdToIndex m)
    (<[element_id element := length (m_Elements m)]> (m_ElementIdToIndex m))
    (m_MaterialIdToIndex m) (m_MinBounds m) (m_MaxBounds m).

Definition RemoveElement (elementId : Z) (m : Model) : option Model :=
  match m_ElementIdToIndex m !! elementId with
  | Some index =>
      if (index <? length (m_Elements m))%nat then
        Some (Build_Model (m_Nodes m) (delete index (m_Elements m)) (m_Materials m)
                (m_NodeIdToIndex m)
                (shift_down index (delete elementId (m_ElementIdToIndex m)))
                (m_MaterialIdToIndex m) (m_MinBounds m) (m_MaxBounds m))
      else None
  | None => Some m
  end.

Definition GetElement (elementId : Z) (m : Model) : Pointer Element :=
  match m_ElementIdToIndex m !! elementId with
  | Some index => at_index (m_Elements m) index
  | None => Null
  end.

Definition AddMaterial (material : Material) (m : Model) : Model :=
  Build_Model (m_Nodes m) (m_Elements m) (m_Materials m ++ [material])
    (m_NodeIdToIndex m) (m_ElementIdToIndex m)
    (<[material_id material := length (m_Materials m)]> (m_MaterialIdToIndex m))
    (m_MinBounds m) (m_MaxBounds m).

Definition GetMaterial (materialId : Z) (m : Model) : Pointer Material :=
  match m_MaterialIdToIndex m !! materialId with
  | Some index => at_index (m_Materials m) index
  | None => Null
  end.

Definition Clear (m : Model) : Model :=
  Build_Model [] [] [] ∅ ∅ ∅ vec3_zero vec3_zero.

(** The mutating operations of the store, and a run of them in order. *)
Inductive Operation :=
  | OpAddNode (node : Node)
  | OpRemoveNode (nodeId : Z)
  | OpAddElement (element : Element)
  | OpRemoveElement (elementId : Z)
  | OpAddMaterial (material : Material)
  | OpClear.

Definition apply (op : Operation) (m : Model) : option Model :=
  match op with
  | OpAddNode node => Some (AddNode node m)
  | OpRemoveNode nodeId => RemoveNode nodeId m
  | OpAddElement element => Some (AddElement element m)
  | OpRemoveElement elementId => RemoveElement elementId m
  | OpAddMaterial material => Some (AddMaterial material m)
  | OpClear => Some (Clear m)
  end.

Fixpoint run (ops : list Operation) (m : Model) : option Model :=
  match ops with
  | [] => Some m
  | op :: rest => m' ← apply op m; run rest m'
  end.

End Embedding.
End Model.

(** ** The render mesh of [rendering/Mesh.cpp]

    [Mesh::BuildFromModel] without its OpenGL calls: the four vectors that it
    fills from a model.  The sizes of the vectors are taken to fit into
    [unsigned int]. *)

Module Mesh.
Import Model.

Section Embedding.
Context `{L : CxxLib}.

(** [Mesh::CalculateNormal], a floating point computation that stays
    abstract. *)
Variable CalculateNormal : Reader.vec3 -> Reader.vec3 -> Reader.vec3 -> Reader.vec3.

(** [struct Vertex] of [rendering/Mesh.h]. *)
Record Vertex := {
  vertex_position : Reader.vec3;
  vertex_normal : Reader.vec3;
  vertex_texCoords : float * float
}.

Record Mesh := {
  m_Vertices : list Vertex;
  m_Indices : list nat;
  m_WireIndices : list nat;
  m_NodePositions : list Reader.vec3
}.

(** The loop over [element.nodeIds]: the positions of the nodes that
    [GetNode] returns; [None] is the read through a pointer past the end of
    the node vector. *)
Fixpoint element_positions (model : Model) (nodeIds : list Z) : option (list Reader.vec3) :=
  match nodeIds with
  | [] => Some []
  | nodeId :: rest =>
      match GetNode nodeId model with
      | Null => element_positions model rest
      | Stored node => cons (position node) <$> element_positions model rest
      | PastTheEnd => None
      end
  end.

(** The indices pushed for the triangles of an element. *)
Definition solid_indices (t : ElementType) (baseIndex : nat) : list nat :=
  match t with
  | SHELL3 => [baseIndex; baseIndex + 1; baseIndex + 2]
  | SHELL4 => [baseIndex; baseIndex + 1; baseIndex + 2;
               baseIndex; baseIndex + 2; baseIndex + 3]
  | _ => []
  end%nat.

(** The loop [for (i = 0; i < positions.size(); ++i)] over the edges. *)
Definition wire_indices (baseIndex count : nat) : list nat :=
  flat_map (fun i => [baseIndex + i; baseIndex + (i + 1) mod count])%nat (seq 0 count).

(** The body of the loop over the elements. *)
Definition add_element (model : Model) (element : Element) (mesh : Mesh) : option Mesh :=
  positions ← element_positions model (nodeIds element);
  match positions with
  | p0 :: p1 :: p2 :: _ =>
      let normal := CalculateNormal p0 p1 p2 in
      let baseIndex := length (m_Vertices mesh) in
      Some {| m_Vertices :=
                m_Vertices mesh
                ++ ((fun pos => {| vertex_position := pos; vertex_normal := normal;
                                   vertex_texCoords := (float_zero, float_zero) |})
                    <$> positions);
              m_Indices := m_Indices mesh ++ solid_indices (element_type element) baseIndex;
              m_WireIndices := m_WireIndices mesh ++ wire_indices baseIndex (length positions);
              m_NodePositions := m_NodePositions mesh |}
  | _ => Some mesh
  end.

Fixpoint add_elements (model : Model) (elements : list Element) (mesh : Mesh) : option Mesh :=
  match elements with
  | [] => Some mesh
  | element :: rest => mesh' ← add_element model element mesh; add_elements model rest mesh'
  end.

(** [BuildFromModel] on a model pointer that is not null. *)
Definition BuildFromModel (model : Model) : option Mesh :=
  add_elements model (m_Elements model)
    {| m_Vertices := []; m_Indices := []; m_WireIndices := [];
       m_NodePositions := position <$> m_Nodes model |}.

End Embedding.
End Mesh.

(** ** A decimal stand-in for the floating point library

    Used to run the embedding on concrete decks.  A value is the decimal that
    was written, [mantissa * 10 ^ exponent], without rounding; texts with an
    exponent part are not read. *)

Module Sample.
Import Str.

Record Decimal := { mantissa : Z; exponent : Z }.

Definition read_decimal (s : string) : option (Decimal * string) :=
  let '(negative, unsigned) := sign_and_rest (skip_space s) in
  let whole := leading_digits unsigned in
  let after_whole := drop_digits unsigned in
  let '(fraction, rest) :=
    match after_whole with
    | String "."%char r => (leading_digits r, drop_digits r)
    | _ => ([], after_whole)
    end in
  match (whole ++ fraction)%list with
  | [] => None
  | digits =>
      let m := decimal_value digits in
      Some ({| mantissa := if negative then - m else m;
               exponent := - Z.of_nat (length fraction) |}, rest)
  end.

Definition decimal_leb (a b : Decimal) : bool :=
  let e := Z.min (exponent a) (exponent b) in
  mantissa a * 10 ^ (exponent a - e) <=? mantissa b * 10 ^ (exponent b - e).

Definition decimal_text (a : Decimal) : string :=
  to_string (mantissa a) +:+ "e" +:+ to_string (exponent a).

(** The text after the first occurrence of [needle]. *)
Fixpoint text_after (needle hay : string) : option string :=
  if String.prefix needle hay then
    Some (String.substring (String.length needle) (String.length hay) hay)
  else
    match hay with
    | EmptyString => None
    | String _ r => text_after needle r
    end.

Fixpoint take_digit_chars (s : string) : string :=
  match s with
  | String c r => if is_digit c then String c (take_digit_chars r) else EmptyString
  | EmptyString => EmptyString
  end.

Definition find_version (line : string) : option string :=
  rest ← text_after "version" line;
  match take_digit_chars (skip_space rest) with
  | EmptyString => None
  | digits => Some digits
  end.

#[export] Instance decimal_lib : CxxLib := {|
  float := Decimal;
  double := Decimal;
  float_zero := {| mantissa := 0; exponent := 0 |};
  double_zero := {| mantissa := 0; exponent := 0 |};
  stof := fun s => fst <$> read_decimal s;
  stod := fun s => fst <$> read_decimal s;
  fmin := fun a b => if decimal_leb b a then b else a;
  fmax := fun a b => if decimal_leb a b then b else a;
  scientific6 := decimal_text;
  scientific6_double := decimal_text;
  extract_float := read_decimal;
  version_search := find_version
|}.

(** The file system with one file. *)
Definition one_file (path content : string) : string -> option string :=
  fun p => if String.eqb p path then Some content else None.

(** Lines joined into the bytes of a file, each ended by a newline. *)
Definition deck (lines : list string) : string :=
  String.concat "" ((fun l => l +:+ String "010" EmptyString) <$> lines).

End Sample.

(** ** Vocabulary of the properties *)

Module Spec.
Import Str Reader.

(** The first character of a line that is not one of [" \t\r\n"]. *)
Fixpoint first_nonblank (s : string) : option ascii :=
  match s with
  | EmptyString => None
  | String c r => if is_blank c then first_nonblank r else Some c
  end.

(** The tokens of a line in the sense of the specification's grammars,
    which are white-space delimited: the maximal runs of characters that are
    not white space. *)
Fixpoint whitespace_tokens (s : string) : list string :=
  match s with
  | EmptyString => []
  | String c r =>
      if isspace c then whitespace_tokens r
      else
        match r with
        | EmptyString => [String c EmptyString]
        | String c' _ =>
            if isspace c' then String c EmptyString :: whitespace_tokens r
            else
              match whitespace_tokens r with
              | t :: ts => String c t :: ts
              | [] => [String c EmptyString]
              end
        end
  end.

(** The digits [1] to [6] that occur in a token, in order. *)
Fixpoint dofs_of (tok : string) : list Z :=
  match tok with
  | EmptyString => []
  | String c rest => if is_dof_char c then digit_value c :: dofs_of rest else dofs_of rest
  end.

(** A token that holds at least one of the characters [1] to [6]. *)
Definition is_dof_token (tok : string) : Prop := has_any_of is_dof_char tok = true.

#[export] Instance is_dof_token_dec tok : Decision (is_dof_token tok).
Proof. unfold is_dof_token. apply _. Defined.

(** The sections whose parser starts with [std::stoi(tokens[0])]. *)
Definition is_data_section (s : ParseState) : bool :=
  match s with
  | STATE_NODES | STATE_ELEMENTS | STATE_MATERIALS | STATE_PROPERTIES
  | STATE_LOADS | STATE_BOUNDARY_CONDITIONS => true
  | STATE_HEADER | STATE_TITLE | STATE_UNKNOWN => false
  end.

(** Every entry of an identifier table points at a stored item that carries
    the identifier. *)
Definition consistent {A} (key : A -> Z) (items : list A) (table : gmap Z nat) : Prop :=
  forall k i, table !! k = Some i -> exists x, items !! i = Some x /\ key x = k.

(** What a lookup through a table yields: a stored item that carries the
    identifier asked for, or the null pointer when the table has no entry for
    it, and never a pointer past the end. *)
Definition resolves {A} (key : A -> Z) (items : list A) (table : gmap Z nat)
    (k : Z) (p : Model.Pointer A) : Prop :=
  match p with
  | Model.Stored x => x ∈ items /\ key x = k
  | Model.Null => table !! k = None
  | Model.PastTheEnd => False
  end.

(** The text up to its last character that is not a blank. *)
Definition rstrip (s : string) : string :=
  match find_last_not_of is_blank s with
  | Some j => String.substring 0 (S j) s
  | None => ""
  end.

(** A token in normal form: not empty, its own [trim], and without the
    delimiter of [tokenizeLine]. *)
Definition is_token (t : string) : Prop :=
  t <> "" /\ trim t = t /\ has_any_of (fun c => Ascii.eqb c " ") t = false.

(** The characters that open a comment line. *)
Definition is_comment_char (c : ascii) : bool :=
  Ascii.eqb c "#" || Ascii.eqb c "C" || Ascii.eqb c "c".

(** A title as the reading loop can leave it: empty, or beginning with a
    character that is neither a blank nor one that opens a comment. *)
Definition title_start_ok (t : string) : Prop :=
  match t with
  | EmptyString => True
  | String c _ => is_blank c = false /\ is_comment_char c = false
  end.

(** A text without a slash, and a text whose last character is a newline. *)
Definition slash_free (s : string) : Prop :=
  has_any_of (fun c => Ascii.eqb c "/") s = false.

Definition ends_with_newline (s : string) : Prop :=
  exists s0, s = s0 +:+ String "010" "".

Section WithLibrary.
Context `{L : CxxLib}.

(** The node count test of [validateElements] on one element. *)
Definition count_matches (element : Element) : Prop :=
  0 < getElementNodeCount (elem_type element) ->
  Z.of_nat (length (elem_nodeIds element)) = getElementNodeCount (elem_type element).

(** The three tables of a model agree with its three collections. *)
Definition indices_consistent (m : Model.Model) : Prop :=
  consistent Model.id (Model.m_Nodes m) (Model.m_NodeIdToIndex m)
  /\ consistent Model.element_id (Model.m_Elements m) (Model.m_ElementIdToIndex m)
  /\ consistent Model.material_id (Model.m_Materials m) (Model.m_MaterialIdToIndex m).

(** A valid reader with one node at the origin and one material of law
    [LAW1] that has no property value, as [loadFile] leaves it after the deck
    [/NODE], [1 0 0 0], [/MAT], [1 LAW1]. *)
Definition bare_material_model : RadFileReader :=
  buildLookupTables
    (with_isValid true
       (with_materials
          [{| mat_id := 1; mat_name := ""; mat_type := "LAW1"; mat_properties := ∅ |}]
          (with_nodes
             [{| node_id := 1; node_position := vec3_zero; node_dof_constraints := [] |}]
             (with_filename "model.rad" empty_reader)))).

(** The second reader holds what the first holds and possibly more at the
    end of each collection; its file name, validity flag and lookup tables are
    those of the first. *)
Definition grows (r r' : RadFileReader) : Prop :=
  nodes_ r `prefix_of` nodes_ r'
  /\ elements_ r `prefix_of` elements_ r'
  /\ materials_ r `prefix_of` materials_ r'
  /\ properties_ r `prefix_of` properties_ r'
  /\ loadCases_ r `prefix_of` loadCases_ r'
  /\ boundaryConditions_ r `prefix_of` boundaryConditions_ r'
  /\ filename_ r' = filename_ r
  /\ isValid_ r' = isValid_ r
  /\ nodeIdToIndex_ r' = nodeIdToIndex_ r
  /\ elementIdToIndex_ r' = elementIdToIndex_ r
  /\ materialIdToIndex_ r' = materialIdToIndex_ r
  /\ propertyIdToIndex_ r' = propertyIdToIndex_ r.

(** The lines that the reading loop passes over. *)
Definition is_skipped (line : string) : bool := isEmpty line || isComment line.

(** A node of the model store at the origin, and a shell of the store. *)
Definition store_node (k : Z) : Model.Node :=
  {| Model.id := k; Model.position := vec3_zero; Model.displacement := vec3_zero;
     Model.velocity := vec3_zero; Model.acceleration := vec3_zero;
     Model.fixedX := false; Model.fixedY := false; Model.fixedZ := false |}.

Definition store_shell (k : Z) (t : Model.ElementType) (nodes : list Z) : Model.Element :=
  {| Model.element_id := k; Model.element_type := t; Model.nodeIds := nodes;
     Model.materialId := 1; Model.propertyId := 1; Model.thickness := float_zero |}.

End WithLibrary.

(** A deck whose third line lacks a coordinate. *)
Definition short_node_deck : string :=
  Sample.deck ["/NODE"; "1 0.0 0.0 0.0"; "5 1.0 2.0"; "2 1.0 0.0 0.0"].

(** The deck of the C2 defect: a node section closed by [/END]. *)
Definition end_marker_deck : string := Sample.deck ["/NODE"; "1 0.0 0.0 0.0"; "/END"].

(** The sample deck [examples/test.rad] that [setup_project.sh] creates. *)
Definition repository_test_deck : list string :=
  ["#RADIOSS STARTER";
   "/BEGIN";
   "/TITLE";
   "Simple Test Model - 4 Node Quad Element";
   "/NODE";
   "        1               0.0               0.0               0.0";
   "        2               1.0               0.0               0.0";
   "        3               1.0               1.0               0.0";
   "        4               0.0               1.0               0.0";
   "/SHELL";
   "        1         1         1         1         2         3         4";
   "/MAT/LAW1";
   "        1              7.8E-6              210000               0.3";
   "/PROP/SHELL";
   "        1               0.001";
   "/END"].

(** Three nodes and the triangle [1 1 1 1 2 3] on them. *)
Definition triangle_deck : string :=
  Sample.deck ["/NODE"; "1 0.0 0.0 0.0"; "2 1.0 0.0 0.0"; "3 1.0 1.0 0.0"; "/SH3N";
               "1 1 1 1 2 3"].

(** A four-node shell with identifier 7, material 1 and property 2. *)
Definition sample_quad : Element :=
  {| elem_id := 7; elem_type := QUAD4; elem_materialId := 1; elem_propertyId := 2;
     elem_nodeIds := [1; 2; 3; 4] |}.

End Spec.

(** * Properties *)

(** ** Lines: trimming and comments *)

Section LineFacts.
Import Str Reader Spec.

(** [std::stoi] in terms of the number that the text denotes: the limits of
    [long] in [strtol] never show, since [int] lies inside [long]. *)
Lemma stoi_integer_prefix s :
  stoi s
  = v ← integer_prefix s; if (INT_MIN <=? v) && (v <=? INT_MAX) then Some v else None.
Proof.
  unfold stoi, strtol. destruct (integer_prefix s) as [v|]; [|done]. cbn [mbind option_bind].
  destruct (Z.ltb_spec v LONG_MIN) as [Hlo|Hlo].
  { cbn. destruct (Z.leb_spec INT_MIN v) as [H|H]; [|done].
    unfold INT_MIN, LONG_MIN in *. lia. }
  destruct (Z.ltb_spec LONG_MAX v) as [Hhi|Hhi]; [|done].
  cbn. destruct (Z.leb_spec v INT_MAX) as [H|H]; [|by rewrite andb_false_r].
  unfold INT_MAX, LONG_MAX in *. lia.
Qed.

Lemma find_first_none_last_none s :
  find_first_not_of is_blank s = None -> find_last_not_of is_blank s = None.
Proof.
  induction s as [|c r IH]; simpl; [done|].
  destruct (is_blank c) eqn:Hc; [|done].
  destruct (find_first_not_of is_blank r); [done|].
  intros _. by rewrite IH.
Qed.

Lemma find_first_some_last_some s i :
  find_first_not_of is_blank s = Some i ->
  exists j, find_last_not_of is_blank s = Some j /\ (i <= j)%nat.
Proof.
  revert i. induction s as [|c r IH]; simpl; intros i; [done|].
  destruct (is_blank c) eqn:Hc.
  - destruct (find_first_not_of is_blank r) as [k|]; [|done].
    intros [= <-]. destruct (IH k eq_refl) as (j & -> & Hj).
    exists (S j). split; [done|lia].
  - intros [= <-]. destruct (find_last_not_of is_blank r) as [j|].
    + exists (S j). split; [done|lia].
    + by exists 0%nat.
Qed.

Lemma trim_skips_blank c r : is_blank c = true -> trim (String c r) = trim r.
Proof.
  intros Hc. unfold trim. simpl. rewrite Hc.
  destruct (find_first_not_of is_blank r) as [i|] eqn:Hi; simpl; [|done].
  destruct (find_first_some_last_some _ _ Hi) as (j & -> & Hj).
  by replace (S j - S i + 1)%nat with (j - i + 1)%nat by lia.
Qed.

Lemma trim_keeps_nonblank c r :
  is_blank c = false -> exists rest, trim (String c r) = String c rest.
Proof.
  intros Hc. unfold trim. simpl. rewrite Hc.
  destruct (find_last_not_of is_blank r) as [j|].
  - replace (S j - 0 + 1)%nat with (S (S j)) by lia. simpl. eauto.
  - simpl. eauto.
Qed.

Lemma trim_first_nonblank s :
  match first_nonblank s with
  | None => trim s = ""
  | Some c => exists rest, trim s = String c rest
  end.
Proof.
  induction s as [|c r IH]; simpl; [done|].
  destruct (is_blank c) eqn:Hc.
  - rewrite (trim_skips_blank _ _ Hc). exact IH.
  - by apply trim_keeps_nonblank.
Qed.

End LineFacts.

Section CommentLines.
Import Str Reader Spec.
Context `{L : CxxLib}.

Lemma isComment_first_nonblank line :
  isComment line = true <->
  match first_nonblank line with
  | None => True
  | Some c => c = "#"%char \/ c = "C"%char \/ c = "c"%char
  end.
Proof.
  unfold isComment. pose proof (trim_first_nonblank line) as H.
  destruct (first_nonblank line) as [c|].
  - destruct H as (rest & ->). simpl.
    rewrite !orb_true_iff. rewrite !Ascii.eqb_eq. tauto.
  - rewrite H. simpl. tauto.
Qed.





End CommentLines.

(** ** Section grammars *)

Section Grammars.
Import Str Reader Spec.
Context `{L : CxxLib}.

Lemma push_dofs_app tok dofs : push_dofs tok dofs = (dofs ++ dofs_of tok)%list.
Proof.
  revert dofs. induction tok as [|c rest IH]; intros dofs; simpl.
  - by rewrite app_nil_r.
  - rewrite IH. destruct (is_dof_char c); [|done]. by rewrite <- app_assoc.
Qed.

Lemma parse_bc_tokens_split tokens bc :
  parse_bc_tokens tokens bc =
  nodeIds ← mapM stoi (filter (fun tok => ~ is_dof_token tok) tokens);
  Some {| bc_id := bc_id bc; bc_type := bc_type bc;
          bc_nodeIds := (bc_nodeIds bc ++ nodeIds)%list;
          bc_dofs := (bc_dofs bc ++ concat (dofs_of <$> filter is_dof_token tokens))%list |}.
Proof.
  revert bc. induction tokens as [|tok rest IH]; intros bc.
  - simpl. rewrite !app_nil_r. by destruct bc.
  - simpl. rewrite !filter_cons.
    destruct (decide (is_dof_token tok)) as [Hd|Hd].
    + rewrite decide_False by tauto.
      unfold is_dof_token in Hd. rewrite Hd.
      rewrite IH. simpl. rewrite push_dofs_app.
      destruct (mapM stoi _); simpl; [|done]. by rewrite <- app_assoc.
    + rewrite decide_True by done.
      unfold is_dof_token in Hd. apply not_true_is_false in Hd. rewrite Hd.
      simpl. destruct (stoi tok) as [nodeId|]; simpl; [|done].
      rewrite IH. simpl.
      destruct (mapM stoi _); simpl; [|done]. by rewrite <- app_assoc.
Qed.

Lemma ltb_leb_negb (a b : nat) : (a <? b)%nat = negb (b <=? a)%nat.
Proof. destruct (Nat.ltb_spec a b), (Nat.leb_spec b a); simpl; try done; lia. Qed.

(** C5 (as the code has it): on a boundary-condition line a token after the
    first two is a packed degree-of-freedom specification exactly when it
    holds at least one of the characters [1] to [6]; each such character of
    it is appended as one constrained degree of freedom and its other
    characters are passed over.  Every token without such a character is
    converted by [stoi] and appended to the node identifiers, and the line is
    rejected when one of these conversions fails. *)
Theorem parseBoundaryCondition_by_token (line : string) (r : RadFileReader) :
  let tokens := tokenizeLine line in
  parseBoundaryCondition line r =
  if (3 <=? length tokens)%nat then
    match stoi (token tokens 0),
          mapM stoi (filter (fun tok => ~ is_dof_token tok) (drop 2 tokens)) with
    | Some id, Some nodeIds =>
        (true,
         with_boundaryConditions
           (boundaryConditions_ r ++
              [{| bc_id := id; bc_type := token tokens 1; bc_nodeIds := nodeIds;
                  bc_dofs := concat (dofs_of <$> filter is_dof_token (drop 2 tokens)) |}])
           r)
    | _, _ => (false, r)
    end
  else (false, r).
Proof.
  intros tokens. unfold parseBoundaryCondition. fold tokens.
  rewrite ltb_leb_negb. destruct (3 <=? length tokens)%nat; simpl; [|done].
  destruct (stoi (token tokens 0)) as [id|]; simpl; [|done].
  rewrite parse_bc_tokens_split. simpl.
  by destruct (mapM stoi _).
Qed.

Lemma parseElement_inv line r r' :
  parseElement line r = (true, r') ->
  let tokens := tokenizeLine line in
  (5 <= length tokens)%nat ->
  exists id materialId propertyId nodeIds,
    stoi (token tokens 0) = Some id /\
    stoi (token tokens 1) = Some materialId /\
    stoi (token tokens 2) = Some propertyId /\
    mapM stoi (drop 3 tokens) = Some nodeIds /\
    r' = with_elements
           (elements_ r ++
              [{| elem_id := id; elem_type := type_of_node_count (length tokens - 3);
                  elem_materialId := materialId; elem_propertyId := propertyId;
                  elem_nodeIds := nodeIds |}]) r.
Proof.
  intros H tokens Hn. unfold parseElement in H. fold tokens in H.
  destruct (Nat.ltb_spec (length tokens) 3) as [?|_]; [lia|].
  destruct (Nat.leb_spec 2 (length tokens - 3)) as [_|?]; [|lia].
  destruct (stoi (token tokens 0)) as [id|]; simpl in H; [|done].
  destruct (stoi (token tokens 1)) as [materialId|]; simpl in H; [|done].
  destruct (stoi (token tokens 2)) as [propertyId|]; simpl in H; [|done].
  destruct (mapM stoi (drop 3 tokens)) as [nodeIds|]; simpl in H; [|done].
  injection H as <-. by exists id, materialId, propertyId, nodeIds.
Qed.

(** C7 (as the code has it): the tokens of an element line are the pieces
    that [tokenizeLine] cuts at the space character, trimmed, the empty ones
    dropped; a tab does not separate two tokens.  An element line of [n >= 5]
    such tokens that [parseElement] accepts appends one element whose
    topology follows from [n - 3] alone (3: TRIA3, 4: QUAD4, 5: PYRAM5,
    6: PENTA6, 8: HEXA8, otherwise UNKNOWN) and whose node identifiers are the
    values of the tokens from the fourth on, in order. *)
Theorem parseElement_topology_from_count (line : string) (r r' : RadFileReader) :
  parseElement line r = (true, r') ->
  let tokens := tokenizeLine line in
  let n := length tokens in
  (5 <= n)%nat ->
  exists element,
    r' = with_elements (elements_ r ++ [element]) r /\
    mapM stoi (drop 3 tokens) = Some (elem_nodeIds element) /\
    length (elem_nodeIds element) = (n - 3)%nat /\
    elem_type element =
      (if decide (n - 3 = 3)%nat then TRIA3
       else if decide (n - 3 = 4)%nat then QUAD4
       else if decide (n - 3 = 5)%nat then PYRAM5
       else if decide (n - 3 = 6)%nat then PENTA6
       else if decide (n - 3 = 8)%nat then HEXA8
       else UNKNOWN).
Proof.
  intros H tokens n Hn.
  destruct (parseElement_inv _ _ _ H Hn)
    as (id & materialId & propertyId & nodeIds & _ & _ & _ & Hnodes & ->).
  eexists. split; [reflexivity|]. simpl. split; [done|]. split.
  - apply length_mapM in Hnodes. rewrite <- Hnodes. by rewrite length_drop.
  - fold tokens. fold n. unfold type_of_node_count.
    destruct (n - 3)%nat as [|[|[|[|[|[|[|[|[|k]]]]]]]]];
      repeat case_decide; try done; lia.
Qed.

End Grammars.

(** ** Validation *)

Section Validation.
Import Str Reader Spec.
Context `{L : CxxLib}.

Lemma validateNodes_from_NoDup nodes (seen : gset Z) :
  validateNodes_from nodes seen = true <->
  NoDup (node_id <$> nodes) /\ (forall x, x ∈ node_id <$> nodes -> x ∉ seen).
Proof.
  revert seen. induction nodes as [|node rest IH]; intros seen; simpl.
  - split; [|done]. intros _. split; [constructor|]. intros x Hx. by apply elem_of_nil in Hx.
  - rewrite NoDup_cons. case_decide as Hin.
    + split; [done|]. intros (_ & Hfresh). exfalso. apply (Hfresh (node_id node)); [|done].
      apply elem_of_cons. by left.
    + rewrite IH. split.
      * intros (Hnd & Hfresh). split; [split; [|done]|].
        -- intros Hdup. apply (Hfresh _ Hdup), elem_of_union. left. by apply elem_of_singleton.
        -- intros x [->|Hx]%elem_of_cons; [done|]. intros Hs.
           apply (Hfresh x Hx), elem_of_union. by right.
      * intros ((Hhead & Hnd) & Hfresh). split; [done|].
        intros x Hx [->%elem_of_singleton|Hs]%elem_of_union; [done|].
        apply (Hfresh x); [|done]. apply elem_of_cons. by right.
Qed.

Lemma count_test_false element :
  (0 <? getElementNodeCount (elem_type element))
  && negb (Z.of_nat (length (elem_nodeIds element)) =? getElementNodeCount (elem_type element))
  = false <-> count_matches element.
Proof.
  unfold count_matches.
  destruct (Z.ltb_spec 0 (getElementNodeCount (elem_type element)));
    destruct (Z.eqb_spec (Z.of_nat (length (elem_nodeIds element)))
                (getElementNodeCount (elem_type element))); simpl; split; try done; try lia.
Qed.

Lemma validateElements_from_spec elements (seen : gset Z) :
  validateElements_from elements seen = true <->
  NoDup (elem_id <$> elements) /\ (forall x, x ∈ elem_id <$> elements -> x ∉ seen)
  /\ Forall count_matches elements.
Proof.
  revert seen. induction elements as [|element rest IH]; intros seen; simpl.
  - split; [|done]. intros _. split; [constructor|]. split; [|constructor].
    intros x Hx. by apply elem_of_nil in Hx.
  - rewrite NoDup_cons, Forall_cons. case_decide as Hin.
    + split; [done|]. intros (_ & Hfresh & _). exfalso.
      apply (Hfresh (elem_id element)); [|done]. apply elem_of_cons. by left.
    + pose proof (count_test_false element) as Hcount.
      destruct ((0 <? getElementNodeCount (elem_type element)) && _).
      * split; [done|]. intros (_ & _ & Hbad & _). by apply Hcount in Hbad.
      * rewrite IH. assert (count_matches element) as Hok by by apply Hcount.
        split.
        -- intros (Hnd & Hfresh & Hall). split; [split; [|done]|split; [|done]].
           ++ intros Hdup. apply (Hfresh _ Hdup), elem_of_union. left.
              by apply elem_of_singleton.
           ++ intros x [->|Hx]%elem_of_cons; [done|]. intros Hs.
              apply (Hfresh x Hx), elem_of_union. by right.
        -- intros ((Hhead & Hnd) & Hfresh & _ & Hall). split; [done|]. split; [|done].
           intros x Hx [->%elem_of_singleton|Hs]%elem_of_union; [done|].
           apply (Hfresh x); [|done]. apply elem_of_cons. by right.
Qed.

Lemma findNode_is_Some r nodeId :
  is_Some (findNode r nodeId) <->
  exists i node, nodeIdToIndex_ r !! nodeId = Some i /\ nodes_ r !! i = Some node.
Proof.
  unfold findNode. destruct (nodeIdToIndex_ r !! nodeId) as [i|].
  - destruct (Nat.ltb_spec i (length (nodes_ r))) as [Hlt|Hge].
    + split.
      * intros [node Hnode]. by exists i, node.
      * intros (i' & node & [= <-] & Hnode). by exists node.
    + split; [by intros [? ?]|]. intros (i' & node & [= <-] & Hnode).
      apply lookup_lt_Some in Hnode. lia.
  - split; [by intros [? ?]|]. by intros (? & ? & ? & _).
Qed.

Lemma validateReferences_spec r :
  validateReferences r = true <->
  forall element nodeId, element ∈ elements_ r -> nodeId ∈ elem_nodeIds element ->
    exists i node, nodeIdToIndex_ r !! nodeId = Some i /\ nodes_ r !! i = Some node.
Proof.
  unfold validateReferences. rewrite forallb_forall. split.
  - intros H element nodeId He Hn. apply list_elem_of_In in He.
    specialize (H element He). rewrite forallb_forall in H.
    apply list_elem_of_In in Hn. specialize (H nodeId Hn).
    apply bool_decide_eq_true in H. by apply findNode_is_Some.
  - intros H element He. apply forallb_forall. intros nodeId Hn.
    apply bool_decide_eq_true, findNode_is_Some.
    apply (H element nodeId); by apply list_elem_of_In.
Qed.

(** What [index_from] stores: an entry is either one that the table held
    before or the position of an item with that key. *)
Lemma index_from_lookup {A} (key : A -> Z) i0 (items : list A) table k i :
  index_from key i0 items table !! k = Some i ->
  table !! k = Some i \/
  ((i0 <= i)%nat /\ exists x, items !! (i - i0)%nat = Some x /\ key x = k).
Proof.
  revert i0 table. induction items as [|x rest IH]; intros i0 table; simpl; [by left|].
  intros H. destruct (IH _ _ H) as [Hin|(Hle & y & Hy & Hk)].
  - destruct (decide (key x = k)) as [<-|Hne].
    + rewrite lookup_insert_eq in Hin. injection Hin as <-. right.
      split; [lia|]. exists x. by rewrite Nat.sub_diag.
    + rewrite lookup_insert_ne in Hin by done. by left.
  - right. split; [lia|]. exists y. split; [|done].
    replace (i - i0)%nat with (S (i - S i0)) by lia. done.
Qed.

(** Every key of an item is in the table that [index_from] returns. *)
Lemma index_from_covers {A} (key : A -> Z) i0 (items : list A) table k :
  k ∈ key <$> items \/ is_Some (table !! k) ->
  is_Some (index_from key i0 items table !! k).
Proof.
  revert i0 table. induction items as [|x rest IH]; intros i0 table; simpl.
  - intros [H|H]; [by apply elem_of_nil in H|done].
  - intros [[->|H]%elem_of_cons|H]; apply IH.
    + right. rewrite lookup_insert_eq. by eexists.
    + by left.
    + right. destruct (decide (key x = k)) as [<-|Hne].
      * rewrite lookup_insert_eq. by eexists.
      * by rewrite lookup_insert_ne.
Qed.

(** After [buildLookupTables] an identifier resolves in the node index exactly
    when a stored node carries it. *)
Lemma built_index_resolves r nodeId :
  (exists i node, nodeIdToIndex_ (buildLookupTables r) !! nodeId = Some i
                  /\ nodes_ (buildLookupTables r) !! i = Some node)
  <-> exists node, node ∈ nodes_ r /\ node_id node = nodeId.
Proof.
  simpl. split.
  - intros (i & node & Hi & Hnode).
    apply index_from_lookup in Hi as [Hi|(_ & x & Hx & Hk)]; [by rewrite lookup_empty in Hi|].
    exists x. split; [|done]. by eapply list_elem_of_lookup_2.
  - intros (node & Hin & Hid).
    destruct (index_from_covers node_id 0 (nodes_ r) ∅ nodeId) as [i Hi].
    { left. apply list_elem_of_fmap. by exists node. }
    pose proof Hi as Hi'.
    apply index_from_lookup in Hi' as [Hi'|(_ & x & Hx & _)]; [by rewrite lookup_empty in Hi'|].
    rewrite Nat.sub_0_r in Hx. by exists i, x.
Qed.

Lemma validateData_spec (r : RadFileReader) :
  validateData r = true <->
  NoDup (node_id <$> nodes_ r)
  /\ NoDup (elem_id <$> elements_ r)
  /\ (forall element, element ∈ elements_ r -> count_matches element)
  /\ (forall element nodeId, element ∈ elements_ r -> nodeId ∈ elem_nodeIds element ->
        exists i node, nodeIdToIndex_ r !! nodeId = Some i /\ nodes_ r !! i = Some node).
Proof.
  unfold validateData, validateNodes, validateElements.
  rewrite !andb_true_iff, validateNodes_from_NoDup, validateElements_from_spec,
    validateReferences_spec, Forall_forall.
  split.
  - intros (((Hn & _) & (He & _ & Hc)) & Hr). done.
  - intros (Hn & He & Hc & Hr).
    repeat split; try done; intros x _; apply not_elem_of_empty.
Qed.

Lemma validateData_built_spec (r : RadFileReader) :
  validateData (buildLookupTables r) = true <->
  NoDup (node_id <$> nodes_ r)
  /\ NoDup (elem_id <$> elements_ r)
  /\ (forall element, element ∈ elements_ r -> count_matches element)
  /\ (forall element nodeId, element ∈ elements_ r -> nodeId ∈ elem_nodeIds element ->
        exists node, node ∈ nodes_ r /\ node_id node = nodeId).
Proof.
  rewrite validateData_spec. simpl.
  split; intros (Hn & He & Hc & Hr); repeat split; try done.
  - intros element nodeId Hel Hid. apply built_index_resolves. simpl. by eapply Hr.
  - intros element nodeId Hel Hid.
    pose proof (proj2 (built_index_resolves r nodeId) (Hr _ _ Hel Hid)) as H. exact H.
Qed.

(** The node count test of an element, with the canonical count of each
    topology written out. *)
Lemma count_matches_canonical element :
  count_matches element <->
  match elem_type element with
  | TRIA3 => length (elem_nodeIds element) = 3%nat
  | QUAD4 => length (elem_nodeIds element) = 4%nat
  | TETRA4 => length (elem_nodeIds element) = 4%nat
  | PYRAM5 => length (elem_nodeIds element) = 5%nat
  | PENTA6 => length (elem_nodeIds element) = 6%nat
  | HEXA8 => length (elem_nodeIds element) = 8%nat
  | UNKNOWN => True
  end.
Proof. unfold count_matches. destruct (elem_type element); simpl; split; intros; lia. Qed.

(** C4: validation succeeds exactly when (a) the node identifiers are
    pairwise distinct, (b) the element identifiers are pairwise distinct,
    (c) every element whose topology has a canonical node count has that many
    node identifiers, the canonical counts being 3 for the 3-node shell, 4
    for the 4-node shell and the tetrahedron, 5 for the pyramid, 6 for the
    pentahedron and 8 for the hexahedron, with none for the unknown topology,
    and (d) every node identifier of every element has an entry in the node
    index that points at a stored node.  Once the lookup tables are built, as
    [loadFile] does before it validates, (d) says that a stored node carries
    the identifier.  The canonical counts are those of
    [getElementNodeCount]. *)
Theorem validateData_iff_four_conditions (r : RadFileReader) :
  (validateData r = true <->
     NoDup (node_id <$> nodes_ r)
     /\ NoDup (elem_id <$> elements_ r)
     /\ (forall element, element ∈ elements_ r ->
           match elem_type element with
           | TRIA3 => length (elem_nodeIds element) = 3%nat
           | QUAD4 => length (elem_nodeIds element) = 4%nat
           | TETRA4 => length (elem_nodeIds element) = 4%nat
           | PYRAM5 => length (elem_nodeIds element) = 5%nat
           | PENTA6 => length (elem_nodeIds element) = 6%nat
           | HEXA8 => length (elem_nodeIds element) = 8%nat
           | UNKNOWN => True
           end)
     /\ (forall element nodeId, element ∈ elements_ r -> nodeId ∈ elem_nodeIds element ->
           exists i node, nodeIdToIndex_ r !! nodeId = Some i /\ nodes_ r !! i = Some node))
  /\ (validateData (buildLookupTables r) = true <->
     NoDup (node_id <$> nodes_ r)
     /\ NoDup (elem_id <$> elements_ r)
     /\ (forall element, element ∈ elements_ r ->
           match elem_type element with
           | TRIA3 => length (elem_nodeIds element) = 3%nat
           | QUAD4 => length (elem_nodeIds element) = 4%nat
           | TETRA4 => length (elem_nodeIds element) = 4%nat
           | PYRAM5 => length (elem_nodeIds element) = 5%nat
           | PENTA6 => length (elem_nodeIds element) = 6%nat
           | HEXA8 => length (elem_nodeIds element) = 8%nat
           | UNKNOWN => True
           end)
     /\ (forall element nodeId, element ∈ elements_ r -> nodeId ∈ elem_nodeIds element ->
           exists node, node ∈ nodes_ r /\ node_id node = nodeId))
  /\ (getElementNodeCount TRIA3 = 3 /\ getElementNodeCount QUAD4 = 4
      /\ getElementNodeCount TETRA4 = 4 /\ getElementNodeCount PYRAM5 = 5
      /\ getElementNodeCount PENTA6 = 6 /\ getElementNodeCount HEXA8 = 8
      /\ getElementNodeCount UNKNOWN = 0).
Proof.
  split; [|split; [|by repeat split]].
  - rewrite validateData_spec. split.
    + intros (Hn & He & Hc & Hr). repeat split; try done.
      intros element Hel. by apply count_matches_canonical, Hc.
    + intros (Hn & He & Hc & Hr). repeat split; try done.
      intros element Hel. by apply count_matches_canonical, Hc.
  - rewrite validateData_built_spec. split.
    + intros (Hn & He & Hc & Hr). repeat split; try done.
      intros element Hel. by apply count_matches_canonical, Hc.
    + intros (Hn & He & Hc & Hr). repeat split; try done.
      intros element Hel. by apply count_matches_canonical, Hc.
Qed.

End Validation.

(** ** The reading loop *)

Section ReadingLoop.
Import Str Reader Spec.
Context `{L : CxxLib}.

Lemma clear_is_empty r : clear r = empty_reader.
Proof. reflexivity. Qed.

(** A parser that rejects a line leaves the reader as it was. *)
Lemma parseContent_rejected_unchanged currentState line r :
  (parseContent currentState line r).1 = false ->
  (parseContent currentState line r).2 = r.
Proof.
  destruct currentState; simpl.
  - unfold parseHeader. repeat case_match; simpl; done.
  - unfold parseTitle. case_match; simpl; done.
  - unfold parseNode. repeat case_match; simpl; done.
  - unfold parseElement. repeat case_match; simpl; done.
  - unfold parseMaterial. repeat case_match; simpl; done.
  - unfold parseProperty. repeat case_match; simpl; done.
  - unfold parseLoadCase. repeat case_match; simpl; done.
  - unfold parseBoundaryCondition. repeat case_match; simpl; done.
  - done.
Qed.

(** The loop over a concatenation: the second part is read only when the
    first part was read to its end, and then from where the first part left
    the locals and the reader. *)
Lemma parseLoop_app pre rest currentState lineNumber r :
  parseLoop (pre ++ rest) currentState lineNumber r =
  let before := parseLoop pre currentState lineNumber r in
  if loop_ok before
  then parseLoop rest (loop_state before) (loop_line before) (loop_reader before)
  else before.
Proof.
  revert currentState lineNumber r.
  induction pre as [|line pre IH]; intros currentState lineNumber r; [done|].
  cbn [app parseLoop].
  destruct (isEmpty line || isComment line); [apply IH|].
  destruct (negb (is_unknown (determineSection line))); [apply IH|].
  destruct (parseContent currentState line r) as [[] r']; [apply IH|done].
Qed.

(** While the loop runs, [lineNumber] counts the lines read. *)
Lemma parseLoop_line lines currentState lineNumber r :
  loop_ok (parseLoop lines currentState lineNumber r) = true ->
  loop_line (parseLoop lines currentState lineNumber r) = lineNumber + Z.of_nat (length lines).
Proof.
  revert currentState lineNumber r.
  induction lines as [|line lines IH]; intros currentState lineNumber r; simpl; [lia|].
  destruct (isEmpty line || isComment line).
  { intros H. rewrite (IH _ _ _ H). lia. }
  destruct (negb (is_unknown (determineSection line))).
  { intros H. rewrite (IH _ _ _ H). lia. }
  destruct (parseContent currentState line r) as [[] r']; [|done].
  intros H. rewrite (IH _ _ _ H). lia.
Qed.

(** [currentState] is never assigned [STATE_UNKNOWN]. *)
Lemma parseLoop_state_never_unknown lines currentState lineNumber r :
  is_unknown currentState = false ->
  is_unknown (loop_state (parseLoop lines currentState lineNumber r)) = false.
Proof.
  revert currentState lineNumber r.
  induction lines as [|line lines IH]; intros currentState lineNumber r Hs; simpl; [done|].
  destruct (isEmpty line || isComment line); [by apply IH|].
  destruct (is_unknown (determineSection line)) eqn:Hd; simpl.
  - destruct (parseContent currentState line r) as [[] r']; [by apply IH|done].
  - by apply IH.
Qed.

(** What the loop does with a line that is neither a comment nor a
    recognised marker and that the parser of the current section rejects. *)
Lemma parseLoop_rejected line rest currentState lineNumber r :
  isEmpty line || isComment line = false ->
  determineSection line = STATE_UNKNOWN ->
  (parseContent currentState line r).1 = false ->
  parseLoop (line :: rest) currentState lineNumber r =
  {| loop_ok := false; loop_state := currentState; loop_line := lineNumber + 1;
     loop_reader :=
       setError ("Parse error at line " +:+ to_string (lineNumber + 1) +:+ ": " +:+ line) r |}.
Proof.
  intros Hc Hd Hp. simpl. rewrite Hc, Hd. simpl.
  pose proof (parseContent_rejected_unchanged _ _ _ Hp) as Hr.
  destruct (parseContent currentState line r) as [ok r']. simpl in *. by subst.
Qed.

(** The loop fails only in that way: when it stops early, some line that is
    neither a comment nor a recognised marker was rejected by the parser of
    the section it was read in, and the lines before it were all read. *)
Lemma parseLoop_fails_only_at_rejected_line lines currentState lineNumber r :
  loop_ok (parseLoop lines currentState lineNumber r) = false ->
  exists pre line post,
    lines = (pre ++ line :: post)%list
    /\ loop_ok (parseLoop pre currentState lineNumber r) = true
    /\ isEmpty line || isComment line = false
    /\ determineSection line = STATE_UNKNOWN
    /\ (parseContent (loop_state (parseLoop pre currentState lineNumber r)) line
          (loop_reader (parseLoop pre currentState lineNumber r))).1 = false.
Proof.
  revert currentState lineNumber r.
  induction lines as [|line lines IH]; intros currentState lineNumber r; [done|].
  cbn [parseLoop].
  destruct (isEmpty line || isComment line) eqn:Hc.
  { intros H. destruct (IH _ _ _ H) as (pre & l & post & -> & Hok & Hl & Hd & Hp).
    exists (line :: pre), l, post. cbn [parseLoop]. rewrite Hc.
    split; [done|]. by split; [|split; [|split]]. }
  destruct (is_unknown (determineSection line)) eqn:Hd; cbn [negb].
  - destruct (parseContent currentState line r) as [[] r'] eqn:Hp.
    + intros H. destruct (IH _ _ _ H) as (pre & l & post & -> & Hok & Hl & Hd' & Hp').
      exists (line :: pre), l, post. cbn [parseLoop]. rewrite Hc, Hd, Hp.
      split; [done|]. by split; [|split; [|split]].
    + intros _. exists [], line, lines. cbn [parseLoop loop_ok loop_state loop_reader app].
      split; [done|]. split; [done|]. split; [done|]. split.
      * by destruct (determineSection line).
      * by rewrite Hp.
  - intros H. destruct (IH _ _ _ H) as (pre & l & post & -> & Hok & Hl & Hd' & Hp').
    exists (line :: pre), l, post. cbn [parseLoop]. rewrite Hc, Hd.
    split; [done|]. by split; [|split; [|split]].
Qed.

(** C1 (as the code has it): the read stops at the first data line that the
    parser of its section rejects.  [loadFile] then returns [false], the
    reader holds what the lines before that one produced together with the
    message "Parse error at line N: <line>", where [N] is the position of the
    line in the file, and no later line is read. *)
Theorem loadFile_stops_at_rejected_line
    (fs : string -> option string) (filename file : string) (r : RadFileReader)
    (pre : list string) (line : string) (post : list string) :
  fs filename = Some file ->
  getline "010" file = (pre ++ line :: post)%list ->
  let before := parseLoop pre STATE_HEADER 0 (with_filename filename (clear r)) in
  loop_ok before = true ->
  isEmpty line || isComment line = false ->
  determineSection line = STATE_UNKNOWN ->
  (parseContent (loop_state before) line (loop_reader before)).1 = false ->
  loadFile fs filename r =
  (false,
   setError ("Parse error at line " +:+ to_string (Z.of_nat (length pre) + 1) +:+ ": " +:+ line)
     (loop_reader before)).
Proof.
  intros Hfs Hlines before Hok Hc Hd Hp.
  pose proof (parseLoop_line _ _ _ _ Hok) as Hline. fold before in Hline.
  unfold loadFile, parseFile. cbv zeta. rewrite Hfs, Hlines, parseLoop_app. cbv zeta.
  change (parseLoop pre STATE_HEADER 0 (with_filename filename (clear r))) with before.
  rewrite Hok, (parseLoop_rejected _ _ _ _ _ Hc Hd Hp). simpl.
  rewrite Hline. done.
Qed.

(** C10: [loadFile] clears the reader before it opens the file, so that its
    outcome does not depend on what was loaded before; for a path that cannot
    be opened it returns [false] and leaves every collection and lookup table
    empty, the title empty, the reader invalid and a last error that is not
    empty. *)
Theorem loadFile_unopened_leaves_cleared
    (fs : string -> option string) (filename : string) (r : RadFileReader) :
  loadFile fs filename r = loadFile fs filename empty_reader
  /\ (fs filename = None ->
      (loadFile fs filename r).1 = false
      /\ (let r' := (loadFile fs filename r).2 in
          nodes_ r' = [] /\ elements_ r' = [] /\ materials_ r' = [] /\ properties_ r' = []
          /\ loadCases_ r' = [] /\ boundaryConditions_ r' = []
          /\ title_ r' = "" /\ version_ r' = ""
          /\ nodeIdToIndex_ r' = ∅ /\ elementIdToIndex_ r' = ∅
          /\ materialIdToIndex_ r' = ∅ /\ propertyIdToIndex_ r' = ∅
          /\ isValid_ r' = false
          /\ lastError_ r' = "Cannot open file: " +:+ filename
          /\ lastError_ r' <> "")).
Proof.
  split; [unfold loadFile; by rewrite !clear_is_empty|].
  intros Hfs. unfold loadFile. rewrite !clear_is_empty, Hfs. simpl.
  repeat split; done.
Qed.

End ReadingLoop.

(** ** Marker lines that the keyword table does not know *)

Section UnknownMarkers.
Import Str Reader Spec.
Context `{L : CxxLib}.

Lemma getline_nil d s : getline d s = [] -> s = "".
Proof.
  destruct s as [|c r]; [done|]. simpl.
  destruct (Ascii.eqb c d); [done|]. by destruct (getline d r).
Qed.

Lemma first_nonblank_not_blank s c : first_nonblank s = Some c -> is_blank c = false.
Proof.
  induction s as [|a r IH]; simpl; [done|].
  destruct (is_blank a) eqn:Ha; [done|]. by intros [= <-].
Qed.

(** The first token of a line starts with the first character of the line
    that is not a blank. *)
Lemma tokenizeLine_head line c :
  first_nonblank line = Some c ->
  exists rest tokens, tokenizeLine line = String c rest :: tokens.
Proof.
  unfold tokenizeLine. induction line as [|a r IH]; simpl; [done|].
  destruct (is_blank a) eqn:Ha.
  - intros Hc. destruct (IH Hc) as (rest & tokens & Htok).
    destruct (Ascii.eqb a " ") eqn:Hsp.
    + rewrite fmap_cons, filter_cons. simpl. by exists rest, tokens.
    + destruct (getline " " r) as [|t ts] eqn:Hg.
      { apply getline_nil in Hg. by subst. }
      rewrite fmap_cons in *. rewrite (trim_skips_blank _ _ Ha). by exists rest, tokens.
  - intros [= <-].
    assert (Ascii.eqb a " " = false) as ->.
    { destruct (Ascii.eqb_spec a " ") as [->|]; done. }
    destruct (trim_keeps_nonblank a "" Ha) as (rest0 & H0).
    destruct (getline " " r) as [|t ts].
    + rewrite fmap_cons, filter_cons, H0. simpl. eauto.
    + destruct (trim_keeps_nonblank a t Ha) as (rest1 & H1).
      rewrite fmap_cons, filter_cons, H1. simpl. eauto.
Qed.

Lemma stoi_slash rest : stoi (String "/" rest) = None.
Proof. reflexivity. Qed.

Lemma parseContent_slash_rejected currentState line r :
  first_nonblank line = Some "/"%char ->
  is_data_section currentState = true ->
  (parseContent currentState line r).1 = false.
Proof.
  intros Hc Hs. destruct (tokenizeLine_head _ _ Hc) as (rest & tokens & Htok).
  destruct currentState; try done; simpl.
  - unfold parseNode. rewrite Htok. unfold token. simpl nth. rewrite stoi_slash.
    by case_match.
  - unfold parseElement. rewrite Htok. unfold token. simpl nth. rewrite stoi_slash.
    by case_match.
  - unfold parseMaterial. rewrite Htok. unfold token. simpl nth. rewrite stoi_slash.
    by case_match.
  - unfold parseProperty. rewrite Htok. unfold token. simpl nth. rewrite stoi_slash.
    by case_match.
  - unfold parseLoadCase. rewrite Htok. unfold token. simpl nth. rewrite stoi_slash.
    by case_match.
  - unfold parseBoundaryCondition. rewrite Htok. unfold token. simpl nth. rewrite stoi_slash.
    by case_match.
Qed.

Lemma slash_line_not_skipped line :
  first_nonblank line = Some "/"%char -> isEmpty line || isComment line = false.
Proof.
  intros Hc. apply orb_false_iff. split.
  - unfold isEmpty. pose proof (trim_first_nonblank line) as H. rewrite Hc in H.
    by destruct H as (rest & ->).
  - apply not_true_is_false. rewrite isComment_first_nonblank, Hc.
    intros [H|[H|H]]; discriminate H.
Qed.

(** In the header and title sections a marker that matches no keyword is
    taken as text of the section, and the section stays what it was. *)
Lemma unknown_marker_in_header_or_title line rest currentState lineNumber r :
  first_nonblank line = Some "/"%char ->
  determineSection line = STATE_UNKNOWN ->
  currentState = STATE_HEADER \/ currentState = STATE_TITLE ->
  parseLoop (line :: rest) currentState lineNumber r
  = parseLoop rest currentState (lineNumber + 1) (parseContent currentState line r).2.
Proof.
  intros Hc Hd Hs. cbn [parseLoop]. rewrite (slash_line_not_skipped _ Hc), Hd. cbn [is_unknown negb].
  destruct Hs as [-> | ->]; cbn [parseContent].
  - unfold parseHeader. repeat case_match; simplify_eq; reflexivity.
  - unfold parseTitle. repeat case_match; simplify_eq; reflexivity.
Qed.

(** C2 (what the code does instead): a line that starts with [/] and matches
    no keyword does not move the parser to [STATE_UNKNOWN]; it is handed to
    the parser of the current section.  In the node, element, material,
    property, load and boundary-condition sections that parser rejects it and
    the read stops there with a parse error. *)
Theorem unknown_marker_stops_read
    (line : string) (rest : list string) (currentState : ParseState) (lineNumber : Z)
    (r : RadFileReader) :
  first_nonblank line = Some "/"%char ->
  determineSection line = STATE_UNKNOWN ->
  is_data_section currentState = true ->
  parseLoop (line :: rest) currentState lineNumber r =
  {| loop_ok := false; loop_state := currentState; loop_line := lineNumber + 1;
     loop_reader :=
       setError ("Parse error at line " +:+ to_string (lineNumber + 1) +:+ ": " +:+ line) r |}.
Proof.
  intros Hc Hd Hs. apply parseLoop_rejected; [by apply slash_line_not_skipped|done|].
  by apply parseContent_slash_rejected.
Qed.

End UnknownMarkers.

(** ** The integer loop of the basic reader *)

Section BasicReaderFacts.
Import Str Reader BasicReader.
Context `{L : CxxLib}.

Lemma skip_space_length s : (String.length (skip_space s) <= String.length s)%nat.
Proof. induction s as [|c r IH]; simpl; [done|]. destruct (isspace c); simpl; lia. Qed.

Lemma sign_and_rest_length body :
  (String.length (sign_and_rest body).2 <= String.length body)%nat.
Proof.
  destruct body as [|c r]; [done|].
  destruct c as [[] [] [] [] [] [] [] []]; simpl; lia.
Qed.

Lemma drop_digits_length s : (String.length (drop_digits s) <= String.length s)%nat.
Proof. induction s as [|c r IH]; simpl; [done|]. destruct (is_digit c); simpl; lia. Qed.

Lemma drop_digits_shorter s :
  leading_digits s <> [] -> (String.length (drop_digits s) < String.length s)%nat.
Proof.
  destruct s as [|c r]; simpl; [done|]. destruct (is_digit c); [|done].
  intros _. pose proof (drop_digits_length r). lia.
Qed.

(** [stream >> int] consumes at least one character when it succeeds. *)
Lemma extract_int_shorter s v rest :
  extract_int s = Some (v, rest) -> (String.length rest < String.length s)%nat.
Proof.
  unfold extract_int. rewrite stoi_integer_prefix. unfold integer_prefix.
  pose proof (skip_space_length s). pose proof (sign_and_rest_length (skip_space s)).
  destruct (sign_and_rest (skip_space s)) as [negative unsigned]. simpl in *.
  destruct (leading_digits unsigned) as [|d ds] eqn:Hd; simpl; [done|].
  case_match; simpl; [|done]. intros [= _ <-].
  assert (leading_digits unsigned <> []) as Hne by by rewrite Hd.
  pose proof (drop_digits_shorter _ Hne). lia.
Qed.

(** The bound on the iterations of [while (iss >> val)] is never reached:
    more fuel reads the same values. *)
Lemma read_ints_fuel_irrelevant fuel fuel' s :
  (String.length s < fuel)%nat -> (String.length s < fuel')%nat ->
  read_ints fuel s = read_ints fuel' s.
Proof.
  revert fuel' s. induction fuel as [|fuel IH]; intros fuel' s H1 H2; [lia|].
  destruct fuel' as [|fuel']; [lia|]. simpl.
  destruct (extract_int s) as [[v rest]|] eqn:He; [|done].
  apply extract_int_shorter in He. f_equal. apply IH; lia.
Qed.

End BasicReaderFacts.

(** ** Loading a deck without nodes *)

Section NoNodes.
Import Str Reader Spec.
Context `{L : CxxLib}.

Lemma getElementNodeCount_nonneg t : 0 <= getElementNodeCount t.
Proof. by destruct t. Qed.

(** What [loadFile] returns for a file that opens, in terms of the parse and
    of the validation of what was parsed. *)
Lemma loadFile_opened fs filename file r :
  fs filename = Some file ->
  let parsed := parseFile file (with_filename filename (clear r)) in
  (loadFile fs filename r).1 = parsed.1 && validateData (buildLookupTables parsed.2)
  /\ nodes_ (loadFile fs filename r).2 = nodes_ parsed.2
  /\ elements_ (loadFile fs filename r).2 = elements_ parsed.2.
Proof.
  intros Hfs parsed. unfold loadFile. cbv zeta. rewrite Hfs. fold parsed.
  destruct parsed as [[] p]; [|done].
  cbn [fst snd andb isValid_ with_isValid].
  by destruct (validateData (buildLookupTables p)).
Qed.

Lemma validateData_without_nodes r :
  nodes_ r = [] ->
  validateData (buildLookupTables r) = true <->
  NoDup (elem_id <$> elements_ r)
  /\ Forall (fun element => elem_nodeIds element = []
                            /\ getElementNodeCount (elem_type element) = 0) (elements_ r).
Proof.
  intros Hnodes. rewrite validateData_built_spec, Hnodes, Forall_forall. split.
  - intros (_ & He & Hc & Hr). split; [done|]. intros element Hel.
    assert (elem_nodeIds element = []) as Hempty.
    { destruct (elem_nodeIds element) as [|nodeId ?] eqn:Hids; [done|].
      destruct (Hr element nodeId Hel) as (node & Hnode & _).
      - rewrite Hids. apply elem_of_cons. by left.
      - by apply elem_of_nil in Hnode. }
    split; [done|]. specialize (Hc element Hel). unfold count_matches in Hc.
    rewrite Hempty in Hc. pose proof (getElementNodeCount_nonneg (elem_type element)).
    simpl in Hc. lia.
  - intros (He & Hall). repeat split; [constructor|done| |].
    + intros element Hel. destruct (Hall element Hel) as (_ & Hcount).
      unfold count_matches. lia.
    + intros element nodeId Hel Hid. destruct (Hall element Hel) as (Hempty & _).
      rewrite Hempty in Hid. by apply elem_of_nil in Hid.
Qed.

(** C3 (as the code has it): after a file that opens and leaves no node in
    the reader, the bounding box is the pair (origin, origin) in both readers.
    The basic reader of [radfilereader.cpp] returns [false].  The reader of
    [io/RadFileReader.cpp] returns the outcome of parsing and validation: it
    returns [true] exactly when no line was rejected, the element identifiers
    are pairwise distinct and no element lists a node or has a topology with a
    canonical node count. *)
Theorem load_without_nodes
    (fs : string -> option string) (filename file : string) (r : RadFileReader) :
  fs filename = Some file ->
  (nodes_ (BasicReader.loadFile fs filename r).2 = [] ->
     (BasicReader.loadFile fs filename r).1 = false
     /\ BasicReader.getBoundingBox (BasicReader.loadFile fs filename r).2
        = (vec3_zero, vec3_zero))
  /\ (nodes_ (loadFile fs filename r).2 = [] ->
     getBoundingBox (loadFile fs filename r).2 = (vec3_zero, vec3_zero)
     /\ ((loadFile fs filename r).1 = true <->
         (parseFile file (with_filename filename (clear r))).1 = true
         /\ NoDup (elem_id <$> elements_ (loadFile fs filename r).2)
         /\ Forall (fun element => elem_nodeIds element = []
                                   /\ getElementNodeCount (elem_type element) = 0)
              (elements_ (loadFile fs filename r).2))).
Proof.
  intros Hfs. split.
  - unfold BasicReader.loadFile, BasicReader.getBoundingBox, getBoundingBox.
    cbv zeta. rewrite Hfs. cbn [fst snd isValid_ with_isValid nodes_].
    by intros ->.
  - intros Hnodes. split; [unfold getBoundingBox; by rewrite Hnodes|].
    destruct (loadFile_opened fs filename file r Hfs) as (Hok & Hn & He).
    rewrite Hok, He, andb_true_iff. rewrite Hn in Hnodes.
    by rewrite (validateData_without_nodes _ Hnodes).
Qed.

End NoNodes.

(** ** Writing a model and reading it back *)

Section RoundTrip.
Import Str Reader Spec.
Context `{L : CxxLib}.

Lemma append_cons a s t : String a s +:+ t = String a (s +:+ t).
Proof. reflexivity. Qed.

Lemma append_assoc s t u : (s +:+ t) +:+ u = s +:+ (t +:+ u).
Proof. induction s as [|a s IH]; [done|]. by rewrite !append_cons, IH. Qed.

Lemma append_nil_r s : s +:+ "" = s.
Proof. induction s as [|a s IH]; [done|]. by rewrite append_cons, IH. Qed.

(** The lines of a text in which a delimiter occurs are the lines up to that
    delimiter followed by the lines after it. *)
Lemma getline_app_delim d s t :
  getline d (s +:+ String d t) = (getline d (s +:+ String d "") ++ getline d t)%list.
Proof.
  induction s as [|a s IH].
  - change ("" +:+ String d t) with (String d t).
    change ("" +:+ String d "") with (String d "").
    simpl. by rewrite Ascii.eqb_refl.
  - rewrite !append_cons. simpl. destruct (Ascii.eqb a d); [by rewrite IH|].
    rewrite IH. destruct (getline d (s +:+ String d "")) eqn:Hg; [|done].
    apply getline_nil in Hg. by destruct s.
Qed.

(** A material block without property values, as [writeMaterials] emits it,
    at the end of a file: the line under the marker has one token, and the
    read fails on it at the latest. *)
Lemma parseLoop_bare_material_fails pre currentState lineNumber r :
  loop_ok (parseLoop (pre ++ ["/MAT/LAW1"; "         1"]) currentState lineNumber r) = false.
Proof.
  rewrite parseLoop_app. cbv zeta.
  destruct (loop_ok (parseLoop pre currentState lineNumber r)) eqn:Hok; [|done].
  generalize (loop_state (parseLoop pre currentState lineNumber r)),
    (loop_line (parseLoop pre currentState lineNumber r)),
    (loop_reader (parseLoop pre currentState lineNumber r)).
  intros s n r'. reflexivity.
Qed.

Lemma saveFile_bare_material_model :
  saveFile bare_material_model =
  Some (("#RADIOSS STARTER" +:+ newline +:+ "/BEGIN" +:+ newline +:+ "/NODE" +:+ newline
         +:+ write_int 1 +:+ write_float float_zero +:+ write_float float_zero
         +:+ write_float float_zero)
        +:+ String "010" ("/MAT/LAW1" +:+ newline +:+ "         1" +:+ newline)).
Proof.
  unfold saveFile.
  change (isValid_ bare_material_model) with true. cbn [negb]. f_equal.
  change (writeElements _) with "".
  change (writeMaterials _) with ("/MAT/LAW1" +:+ newline +:+ "         1" +:+ newline).
  change (writeProperties _) with "".
  change (writeLoadCases _) with "".
  change (writeBoundaryConditions _) with "".
  change (writeHeader _) with ("#RADIOSS STARTER" +:+ newline +:+ "/BEGIN" +:+ newline).
  change (writeNodes _) with
    ("/NODE" +:+ newline +:+ write_int 1 +:+ write_float float_zero +:+ write_float float_zero
     +:+ write_float float_zero +:+ newline).
  change ("" +:+ ?x) with x.
  rewrite !append_nil_r, !append_assoc. reflexivity.
Qed.

(** C8 (what the code does): the file that [saveFile] writes for a valid
    model with one node and one material without property values is rejected
    by [loadFile], whatever the reader held before: the line under [/MAT/LAW1]
    carries the identifier alone and [parseMaterial] asks for two tokens. *)
Theorem saved_bare_material_does_not_load :
  exists file,
    saveFile bare_material_model = Some file
    /\ length (nodes_ bare_material_model) = 1%nat
    /\ length (materials_ bare_material_model) = 1%nat
    /\ validateData bare_material_model = true
    /\ forall filename r, (loadFile (fun _ => Some file) filename r).1 = false.
Proof.
  eexists. split; [apply saveFile_bare_material_model|].
  split; [done|]. split; [done|]. split; [reflexivity|].
  intros filename r. unfold loadFile, parseFile. cbv zeta.
  rewrite getline_app_delim.
  change (getline "010" ("/MAT/LAW1" +:+ newline +:+ "         1" +:+ newline))
    with ["/MAT/LAW1"; "         1"].
  rewrite parseLoop_bare_material_fails. done.
Qed.

End RoundTrip.

(** ** Index consistency of the model store *)

Section IndexConsistency.
Import Model Spec.
Context `{L : CxxLib}.

Lemma consistent_empty {A} (key : A -> Z) : consistent key [] ∅.
Proof. intros k i H. by rewrite lookup_empty in H. Qed.

Lemma consistent_add {A} (key : A -> Z) items table x :
  consistent key items table ->
  consistent key (items ++ [x]) (<[key x := length items]> table).
Proof.
  intros Hc k i Hk. destruct (decide (key x = k)) as [<-|Hne].
  - rewrite lookup_insert_eq in Hk. injection Hk as <-. exists x. split; [|done].
    rewrite lookup_app_r by lia. by rewrite Nat.sub_diag.
  - rewrite lookup_insert_ne in Hk by done. destruct (Hc k i Hk) as (y & Hy & Hkey).
    exists y. split; [|done]. by apply lookup_app_l_Some.
Qed.

Lemma consistent_in_range {A} (key : A -> Z) items table k i :
  consistent key items table -> table !! k = Some i -> (i < length items)%nat.
Proof. intros Hc Hk. destruct (Hc k i Hk) as (x & Hx & _). by eapply lookup_lt_Some. Qed.

Lemma consistent_remove {A} (key : A -> Z) items table k i :
  consistent key items table ->
  table !! k = Some i ->
  consistent key (delete i items) (shift_down i (delete k table)).
Proof.
  intros Hc Hk k' j Hj. unfold shift_down in Hj. rewrite lookup_fmap in Hj.
  destruct (delete k table !! k') as [j0|] eqn:Hj0; [|done].
  injection Hj as <-.
  destruct (decide (k = k')) as [->|Hne]; [by rewrite lookup_delete_eq in Hj0|].
  rewrite lookup_delete_ne in Hj0 by done.
  destruct (Hc k' j0 Hj0) as (y & Hy & Hkey). destruct (Hc k i Hk) as (x & Hx & Hkx).
  assert (j0 ≠ i) as Hji. { intros ->. congruence. }
  exists y. split; [|done].
  destruct (Nat.ltb_spec i j0) as [Hlt|Hge].
  - rewrite list_lookup_delete_ge by lia. by replace (S (j0 - 1)) with j0 by lia.
  - rewrite list_lookup_delete_lt by lia. done.
Qed.

Lemma empty_consistent : indices_consistent empty.
Proof. repeat split; apply consistent_empty. Qed.

Lemma apply_consistent op m :
  indices_consistent m -> exists m', apply op m = Some m' /\ indices_consistent m'.
Proof.
  intros (Hn & He & Hm). destruct op as [node|nodeId|element|elementId|material|]; simpl.
  - eexists. split; [done|]. repeat split; simpl; try done. by apply consistent_add.
  - unfold RemoveNode. destruct (m_NodeIdToIndex m !! nodeId) as [index|] eqn:Hi.
    + pose proof (consistent_in_range _ _ _ _ _ Hn Hi) as Hlt.
      destruct (Nat.ltb_spec index (length (m_Nodes m))) as [_|?]; [|lia].
      eexists. split; [done|]. repeat split; simpl; try done.
      by apply consistent_remove.
    + by exists m.
  - eexists. split; [done|]. repeat split; simpl; try done. by apply consistent_add.
  - unfold RemoveElement. destruct (m_ElementIdToIndex m !! elementId) as [index|] eqn:Hi.
    + pose proof (consistent_in_range _ _ _ _ _ He Hi) as Hlt.
      destruct (Nat.ltb_spec index (length (m_Elements m))) as [_|?]; [|lia].
      eexists. split; [done|]. repeat split; simpl; try done.
      by apply consistent_remove.
    + by exists m.
  - eexists. split; [done|]. repeat split; simpl; try done. by apply consistent_add.
  - eexists. split; [done|]. apply empty_consistent.
Qed.

Lemma run_consistent ops m :
  indices_consistent m -> exists m', run ops m = Some m' /\ indices_consistent m'.
Proof.
  revert m. induction ops as [|op ops IH]; intros m Hm; simpl; [by exists m|].
  destruct (apply_consistent op m Hm) as (m1 & -> & Hm1). simpl. by apply IH.
Qed.

Lemma consistent_resolves {A} (key : A -> Z) items table k :
  consistent key items table ->
  resolves key items table k
    (match table !! k with Some index => at_index items index | None => Null end).
Proof.
  intros Hc. destruct (table !! k) as [i|] eqn:Hk; [|done].
  destruct (Hc k i Hk) as (x & Hx & Hkey). unfold at_index. rewrite Hx. simpl.
  split; [|done]. by eapply list_elem_of_lookup_2.
Qed.

(** C9: every run of [AddNode], [RemoveNode], [AddElement], [RemoveElement],
    [AddMaterial] and [Clear] from the empty model is defined, and in the
    model it reaches [GetNode], [GetElement] and [GetMaterial] return, for
    every identifier, a stored entity with that identifier, or the null
    pointer when the table holds no entry for it. *)
Theorem lookups_resolve_after_any_run (ops : list Operation) :
  exists m,
    run ops empty = Some m
    /\ forall k,
         resolves id (m_Nodes m) (m_NodeIdToIndex m) k (GetNode k m)
         /\ resolves element_id (m_Elements m) (m_ElementIdToIndex m) k (GetElement k m)
         /\ resolves material_id (m_Materials m) (m_MaterialIdToIndex m) k (GetMaterial k m).
Proof.
  destruct (run_consistent ops empty empty_consistent) as (m & Hrun & Hn & He & Hm).
  exists m. split; [done|]. intros k.
  repeat split; by apply consistent_resolves.
Qed.

End IndexConsistency.

(** ** The theorems on concrete decks *)

Section ConcreteDecks.
Import Str Reader Sample Spec.

(** C1 fails as stated: the node line [5 1.0 2.0] is not skipped.  The read
    returns [false] with a parse error for line 3, and the node of line 4 is
    never read, although the same deck without line 3 loads both nodes. *)
Lemma short_node_line_fails_the_read :
  (parseNode "5 1.0 2.0" empty_reader).1 = false
  /\ (loadFile (one_file "deck.rad" short_node_deck) "deck.rad" empty_reader).1 = false
  /\ lastError_ (loadFile (one_file "deck.rad" short_node_deck) "deck.rad" empty_reader).2
     = "Parse error at line 3: 5 1.0 2.0"
  /\ node_id <$> nodes_ (loadFile (one_file "deck.rad" short_node_deck) "deck.rad" empty_reader).2
     = [1]
  /\ node_id <$> nodes_
       (loadFile (one_file "deck.rad" (deck ["/NODE"; "1 0.0 0.0 0.0"; "2 1.0 0.0 0.0"]))
          "deck.rad" empty_reader).2
     = [1; 2].
Proof. repeat split; vm_compute; reflexivity. Qed.

Lemma loadFile_stops_at_rejected_line_witness :
  one_file "deck.rad" short_node_deck "deck.rad" = Some short_node_deck
  /\ getline "010" short_node_deck
     = (["/NODE"; "1 0.0 0.0 0.0"] ++ "5 1.0 2.0" :: ["2 1.0 0.0 0.0"])%list
  /\ loadFile (one_file "deck.rad" short_node_deck) "deck.rad" empty_reader
     = (false,
        setError
          ("Parse error at line "
           +:+ to_string (Z.of_nat (length ["/NODE"; "1 0.0 0.0 0.0"]) + 1)
           +:+ ": " +:+ "5 1.0 2.0")
          (loop_reader
             (parseLoop ["/NODE"; "1 0.0 0.0 0.0"] STATE_HEADER 0
                (with_filename "deck.rad" (clear empty_reader))))).
Proof.
  split; [reflexivity|]. split; [reflexivity|].
  apply (loadFile_stops_at_rejected_line
           (one_file "deck.rad" short_node_deck) "deck.rad" short_node_deck empty_reader
           ["/NODE"; "1 0.0 0.0 0.0"] "5 1.0 2.0" ["2 1.0 0.0 0.0"]);
    vm_compute; reflexivity.
Defined.

Lemma end_marker_fails_the_read :
  determineSection "/END" = STATE_UNKNOWN
  /\ (loadFile (one_file "deck.rad" end_marker_deck) "deck.rad" empty_reader).1 = false
  /\ lastError_ (loadFile (one_file "deck.rad" end_marker_deck) "deck.rad" empty_reader).2
     = "Parse error at line 3: /END".
Proof. repeat split; vm_compute; reflexivity. Qed.

(** The sample deck of the repository ends with [/END].  Without its property
    block the reader of [io/RadFileReader.cpp] rejects it at that line; with
    the block it already stops at line 15, because [/PROP/SHELL] holds
    [/SHELL], which [determineSection] tests first.  The basic reader loads
    the deck. *)
Example repository_test_deck_is_rejected :
  (loadFile (one_file "test.rad" (deck (take 13 repository_test_deck ++ ["/END"])))
     "test.rad" empty_reader).1 = false
  /\ lastError_
       (loadFile (one_file "test.rad" (deck (take 13 repository_test_deck ++ ["/END"])))
          "test.rad" empty_reader).2
     = "Parse error at line 14: /END"
  /\ determineSection "/PROP/SHELL" = STATE_ELEMENTS
  /\ (loadFile (one_file "test.rad" (deck repository_test_deck)) "test.rad" empty_reader).1
     = false
  /\ lastError_
       (loadFile (one_file "test.rad" (deck repository_test_deck)) "test.rad" empty_reader).2
     = "Parse error at line 15:         1               0.001"
  /\ (BasicReader.loadFile (one_file "test.rad" (deck repository_test_deck)) "test.rad"
        empty_reader).1 = true
  /\ length (nodes_ (BasicReader.loadFile (one_file "test.rad" (deck repository_test_deck))
                       "test.rad" empty_reader).2) = 4%nat
  /\ length (elements_ (BasicReader.loadFile (one_file "test.rad" (deck repository_test_deck))
                          "test.rad" empty_reader).2) = 1%nat.
Proof. repeat split; vm_compute; reflexivity. Qed.

Lemma unknown_marker_stops_read_witness :
  first_nonblank "/END" = Some "/"%char
  /\ determineSection "/END" = STATE_UNKNOWN
  /\ is_data_section STATE_NODES = true
  /\ parseLoop ("/END" :: ["2 1.0 0.0 0.0"]) STATE_NODES 2 empty_reader
     = {| loop_ok := false; loop_state := STATE_NODES; loop_line := 2 + 1;
          loop_reader :=
            setError ("Parse error at line " +:+ to_string (2 + 1) +:+ ": " +:+ "/END")
              empty_reader |}.
Proof.
  split; [reflexivity|]. split; [reflexivity|]. split; [reflexivity|].
  apply (unknown_marker_stops_read "/END" ["2 1.0 0.0 0.0"] STATE_NODES 2 empty_reader);
    reflexivity.
Defined.

(** C3 fails as stated for the reader of [io/RadFileReader.cpp]: an empty file
    and a deck with a material only both open, hold no node record, and load
    with result [true]. *)
Lemma nodeless_files_load :
  (loadFile (one_file "empty.rad" "") "empty.rad" empty_reader).1 = true
  /\ nodes_ (loadFile (one_file "empty.rad" "") "empty.rad" empty_reader).2 = []
  /\ (loadFile (one_file "mat.rad" (deck ["#RADIOSS STARTER"; "/BEGIN"; "/MAT"; "1 LAW1"]))
        "mat.rad" empty_reader).1 = true
  /\ nodes_ (loadFile (one_file "mat.rad" (deck ["#RADIOSS STARTER"; "/BEGIN"; "/MAT"; "1 LAW1"]))
               "mat.rad" empty_reader).2 = [].
Proof. repeat split; vm_compute; reflexivity. Qed.

Lemma load_without_nodes_witness :
  one_file "empty.rad" "" "empty.rad" = Some ""
  /\ (nodes_ (BasicReader.loadFile (one_file "empty.rad" "") "empty.rad" empty_reader).2 = [] ->
        (BasicReader.loadFile (one_file "empty.rad" "") "empty.rad" empty_reader).1 = false
        /\ BasicReader.getBoundingBox
             (BasicReader.loadFile (one_file "empty.rad" "") "empty.rad" empty_reader).2
           = (vec3_zero, vec3_zero))
  /\ (nodes_ (loadFile (one_file "empty.rad" "") "empty.rad" empty_reader).2 = [] ->
        getBoundingBox (loadFile (one_file "empty.rad" "") "empty.rad" empty_reader).2
        = (vec3_zero, vec3_zero)
        /\ ((loadFile (one_file "empty.rad" "") "empty.rad" empty_reader).1 = true <->
            (parseFile "" (with_filename "empty.rad" (clear empty_reader))).1 = true
            /\ NoDup (elem_id <$> elements_
                        (loadFile (one_file "empty.rad" "") "empty.rad" empty_reader).2)
            /\ Forall (fun element => elem_nodeIds element = []
                                      /\ getElementNodeCount (elem_type element) = 0)
                 (elements_ (loadFile (one_file "empty.rad" "") "empty.rad" empty_reader).2))).
Proof.
  split; [reflexivity|].
  apply (load_without_nodes (one_file "empty.rad" "") "empty.rad" "" empty_reader).
  reflexivity.
Defined.

(** C5 fails as stated: in [1 SPC 17 8] the token [17] is not made of the
    digits 1 to 6 alone, yet it is read as a degree-of-freedom specification
    (its [1] is stored, its [7] is dropped) and not as node 17. *)
Lemma mixed_token_read_as_dofs :
  (parseBoundaryCondition "1 SPC 17 8" empty_reader).1 = true
  /\ (fun bc => (bc_id bc, bc_type bc, bc_nodeIds bc, bc_dofs bc))
       <$> boundaryConditions_ (parseBoundaryCondition "1 SPC 17 8" empty_reader).2
     = [(1, "SPC", [8], [1])].
Proof. split; vm_compute; reflexivity. Qed.


(** C7 fails as stated for white-space tokens: with a tab between two node
    identifiers the line has six of them, which would make a triangle on the
    nodes 1, 2 and 3; [tokenizeLine] cuts it into five tokens, and the stored
    element has the unknown topology and the nodes 1 and 3, the value that
    [std::stoi] reads in front of the tab and the last token. *)
Lemma tab_between_node_identifiers :
  let line := "1 1 1 1" +:+ String "009" "2 3" in
  whitespace_tokens line = ["1"; "1"; "1"; "1"; "2"; "3"]
  /\ tokenizeLine line = ["1"; "1"; "1"; String "1" (String "009" "2"); "3"]
  /\ (parseElement line empty_reader).1 = true
  /\ (fun e => (elem_id e, elem_type e, elem_materialId e, elem_propertyId e, elem_nodeIds e))
     <$> elements_ (parseElement line empty_reader).2
     = [(1, UNKNOWN, 1, 1, [1; 3])].
Proof. repeat split; vm_compute; reflexivity. Qed.

Lemma parseElement_topology_from_count_witness :
  parseElement "1 1 1 1 2 3" empty_reader
  = (true,
     with_elements
       [{| elem_id := 1; elem_type := TRIA3; elem_materialId := 1; elem_propertyId := 1;
           elem_nodeIds := [1; 2; 3] |}] empty_reader)
  /\ (5 <= length (tokenizeLine "1 1 1 1 2 3"))%nat
  /\ exists element,
       with_elements
         [{| elem_id := 1; elem_type := TRIA3; elem_materialId := 1; elem_propertyId := 1;
             elem_nodeIds := [1; 2; 3] |}] empty_reader
       = with_elements (elements_ empty_reader ++ [element]) empty_reader
       /\ mapM stoi (drop 3 (tokenizeLine "1 1 1 1 2 3")) = Some (elem_nodeIds element)
       /\ length (elem_nodeIds element) = (length (tokenizeLine "1 1 1 1 2 3") - 3)%nat
       /\ elem_type element = TRIA3.
Proof.
  split; [reflexivity|]. split; [vm_compute; lia|].
  apply (parseElement_topology_from_count "1 1 1 1 2 3" empty_reader); [reflexivity|].
  vm_compute. lia.
Defined.

Lemma loadFile_unopened_leaves_cleared_witness :
  let r0 := (loadFile (one_file "deck.rad" short_node_deck) "deck.rad" empty_reader).2 in
  let r' := (loadFile (one_file "deck.rad" short_node_deck) "missing.rad" r0).2 in
  one_file "deck.rad" short_node_deck "missing.rad" = None
  /\ length (nodes_ r0) = 1%nat
  /\ loadFile (one_file "deck.rad" short_node_deck) "missing.rad" r0
     = loadFile (one_file "deck.rad" short_node_deck) "missing.rad" empty_reader
  /\ (loadFile (one_file "deck.rad" short_node_deck) "missing.rad" r0).1 = false
  /\ (nodes_ r' = [] /\ elements_ r' = [] /\ materials_ r' = [] /\ properties_ r' = []
      /\ loadCases_ r' = [] /\ boundaryConditions_ r' = []
      /\ title_ r' = "" /\ version_ r' = ""
      /\ nodeIdToIndex_ r' = ∅ /\ elementIdToIndex_ r' = ∅
      /\ materialIdToIndex_ r' = ∅ /\ propertyIdToIndex_ r' = ∅
      /\ isValid_ r' = false
      /\ lastError_ r' = "Cannot open file: " +:+ "missing.rad"
      /\ lastError_ r' <> "").
Proof.
  intros r0 r'. split; [reflexivity|]. split; [reflexivity|].
  destruct (loadFile_unopened_leaves_cleared
              (one_file "deck.rad" short_node_deck) "missing.rad" r0) as [Hsame Hfail].
  split; [exact Hsame|]. apply Hfail. reflexivity.
Defined.

(** The scenario of a node section with three nodes followed by a 3-node
    shell section with the line [1 1 1 1 2 3]. *)
Example triangle_deck_loads :
  let loaded :=
    loadFile
      (one_file "tri.rad"
         (deck ["/NODE"; "1 0.0 0.0 0.0"; "2 1.0 0.0 0.0"; "3 1.0 1.0 0.0"; "/SH3N";
                "1 1 1 1 2 3"]))
      "tri.rad" empty_reader in
  loaded.1 = true
  /\ node_id <$> nodes_ loaded.2 = [1; 2; 3]
  /\ (fun e => (elem_id e, elem_type e, elem_nodeIds e)) <$> elements_ loaded.2
     = [(1, TRIA3, [1; 2; 3])]
  /\ getBoundingBox loaded.2
     = ({| vec_x := {| mantissa := 0; exponent := -1 |};
           vec_y := {| mantissa := 0; exponent := -1 |};
           vec_z := {| mantissa := 0; exponent := -1 |} |},
        {| vec_x := {| mantissa := 10; exponent := -1 |};
           vec_y := {| mantissa := 10; exponent := -1 |};
           vec_z := {| mantissa := 0; exponent := -1 |} |}).
Proof. repeat split; vm_compute; reflexivity. Qed.

(** The model of the material defect is what [loadFile] leaves after a deck
    with one node and one material line without property values. *)
Example bare_material_model_is_loaded :
  loadFile (one_file "model.rad" (deck ["/NODE"; "1 0 0 0"; "/MAT"; "1 LAW1"]))
    "model.rad" empty_reader
  = (true, bare_material_model).
Proof. reflexivity. Qed.

(** The file written for five nodes and one pyramid does not load either:
    [writeElements] announces the pyramid with [/PYRAM5], which
    [determineSection] does not know, and the line reaches [parseNode]. *)
Example saved_pyramid_does_not_load :
  let model :=
    (loadFile
       (one_file "pyr.rad"
          (deck ["/NODE"; "1 0 0 0"; "2 1 0 0"; "3 1 1 0"; "4 0 1 0"; "5 0 0 1"; "/SHELL";
                 "1 1 1 1 2 3 4 5"]))
       "pyr.rad" empty_reader) in
  model.1 = true
  /\ (fun e => (elem_type e, elem_nodeIds e)) <$> elements_ model.2 = [(PYRAM5, [1; 2; 3; 4; 5])]
  /\ exists file,
       saveFile model.2 = Some file
       /\ getline "010" file
          = ["#RADIOSS STARTER"; "/BEGIN"; "/NODE";
             "         1                 0e0                 0e0                 0e0";
             "         2                 1e0                 0e0                 0e0";
             "         3                 1e0                 1e0                 0e0";
             "         4                 0e0                 1e0                 0e0";
             "         5                 0e0                 0e0                 1e0";
             "/PYRAM5";
             "         1         1         1         1         2         3         4         5"]
       /\ (loadFile (one_file "out.rad" file) "out.rad" empty_reader).1 = false
       /\ lastError_ (loadFile (one_file "out.rad" file) "out.rad" empty_reader).2
          = "Parse error at line 9: /PYRAM5".
Proof.
  split; [vm_compute; reflexivity|]. split; [vm_compute; reflexivity|].
  eexists. split; [vm_compute; reflexivity|]. repeat split; vm_compute; reflexivity.
Qed.

End ConcreteDecks.

(** * Further properties of the code *)

(** ** Lookup tables *)

Section LookupTables.
Import Str Reader Spec.
Context `{L : CxxLib}.

(** An entry of the table that [index_from] returns is the position of the
    last item with that key, or what the table held when no item has it. *)
Lemma index_from_last {A} (key : A -> Z) i0 (items : list A) table k :
  match last (filter (fun x => key x = k) items) with
  | Some x =>
      exists i, index_from key i0 items table !! k = Some i
                /\ (i0 <= i)%nat /\ items !! (i - i0)%nat = Some x
  | None => index_from key i0 items table !! k = table !! k
  end.
Proof.
  revert i0 table. induction items as [|x rest IH]; intros i0 table; [done|].
  cbn [index_from]. specialize (IH (S i0) (<[key x := i0]> table)).
  rewrite filter_cons. destruct (decide (key x = k)) as [Hk|Hk].
  - rewrite last_cons. destruct (last (filter (fun x => key x = k) rest)) as [y|].
    + destruct IH as (i & Hi & Hle & Hy). exists i. split; [done|]. split; [lia|].
      by replace (i - i0)%nat with (S (i - S i0)) by lia.
    + rewrite IH, Hk, lookup_insert_eq. exists i0. split; [done|]. split; [lia|].
      by rewrite Nat.sub_diag.
  - destruct (last (filter (fun x => key x = k) rest)) as [y|].
    + destruct IH as (i & Hi & Hle & Hy). exists i. split; [done|]. split; [lia|].
      by replace (i - i0)%nat with (S (i - S i0)) by lia.
    + by rewrite IH, lookup_insert_ne.
Qed.

(** A lookup through a freshly built table. *)
Lemma lookup_built {A} (key : A -> Z) (items : list A) k :
  match index_from key 0 items ∅ !! k with
  | Some i => if (i <? length items)%nat then items !! i else None
  | None => None
  end = last (filter (fun x => key x = k) items).
Proof.
  pose proof (index_from_last key 0 items ∅ k) as H.
  destruct (last (filter (fun x => key x = k) items)) as [x|].
  - destruct H as (i & -> & _ & Hx). rewrite Nat.sub_0_r in Hx.
    pose proof (lookup_lt_Some _ _ _ Hx) as Hlt.
    destruct (Nat.ltb_spec i (length items)); [done|lia].
  - by rewrite H, lookup_empty.
Qed.

Lemma find_built_last (r : RadFileReader) (id : Z) :
  findNode (buildLookupTables r) id = last (filter (fun n => node_id n = id) (nodes_ r))
  /\ findElement (buildLookupTables r) id
     = last (filter (fun e => elem_id e = id) (elements_ r))
  /\ findMaterial (buildLookupTables r) id
     = last (filter (fun m => mat_id m = id) (materials_ r))
  /\ findProperty (buildLookupTables r) id
     = last (filter (fun p => prop_id p = id) (properties_ r)).
Proof. repeat split; apply lookup_built. Qed.

(** X1: once [buildLookupTables] has run, each of the four lookups returns
    the last stored entity that carries the identifier, and the null pointer
    when no stored entity carries it. *)
Theorem find_after_build_is_last (r : RadFileReader) (id : Z) :
  findNode (buildLookupTables r) id = last (filter (fun n => node_id n = id) (nodes_ r))
  /\ findElement (buildLookupTables r) id
     = last (filter (fun e => elem_id e = id) (elements_ r))
  /\ findMaterial (buildLookupTables r) id
     = last (filter (fun m => mat_id m = id) (materials_ r))
  /\ findProperty (buildLookupTables r) id
     = last (filter (fun p => prop_id p = id) (properties_ r)).
Proof. apply find_built_last. Qed.

Lemma last_filter_snoc_eq {A} (key : A -> Z) (items : list A) x :
  last (filter (fun y => key y = key x) (items ++ [x])%list) = Some x.
Proof.
  rewrite filter_app, filter_cons, decide_True by done.
  rewrite filter_nil. apply last_snoc.
Qed.

Lemma last_filter_snoc_ne {A} (key : A -> Z) (items : list A) x k :
  k <> key x ->
  last (filter (fun y => key y = k) (items ++ [x])%list) = last (filter (fun y => key y = k) items).
Proof.
  intros Hne. rewrite filter_app, filter_cons, decide_False by done.
  by rewrite filter_nil, app_nil_r.
Qed.

(** X2: [addNode], [addElement], [addMaterial] and [addProperty] make the
    new entity the one its identifier resolves to, also when the identifier
    was already in use, and every other identifier resolves as it does after
    rebuilding the tables without the new entity. *)
Theorem add_then_find (r : RadFileReader)
    (node : Node) (element : Element) (material : Material) (property : Property) :
  (findNode (addNode node r) (node_id node) = Some node
   /\ forall id, id <> node_id node ->
        findNode (addNode node r) id = findNode (buildLookupTables r) id)
  /\ (findElement (addElement element r) (elem_id element) = Some element
      /\ forall id, id <> elem_id element ->
           findElement (addElement element r) id = findElement (buildLookupTables r) id)
  /\ (findMaterial (addMaterial material r) (mat_id material) = Some material
      /\ forall id, id <> mat_id material ->
           findMaterial (addMaterial material r) id = findMaterial (buildLookupTables r) id)
  /\ (findProperty (addProperty property r) (prop_id property) = Some property
      /\ forall id, id <> prop_id property ->
           findProperty (addProperty property r) id = findProperty (buildLookupTables r) id).
Proof.
  unfold addNode, addElement, addMaterial, addProperty.
  repeat split.
  - destruct (find_built_last (with_nodes (nodes_ r ++ [node]) r) (node_id node))
      as (-> & _). apply last_filter_snoc_eq.
  - intros id Hne.
    destruct (find_built_last (with_nodes (nodes_ r ++ [node]) r) id) as (-> & _).
    destruct (find_built_last r id) as (-> & _).
    by apply last_filter_snoc_ne.
  - destruct (find_built_last (with_elements (elements_ r ++ [element]) r)
                (elem_id element)) as (_ & -> & _). apply last_filter_snoc_eq.
  - intros id Hne.
    destruct (find_built_last (with_elements (elements_ r ++ [element]) r) id)
      as (_ & -> & _).
    destruct (find_built_last r id) as (_ & -> & _).
    by apply last_filter_snoc_ne.
  - destruct (find_built_last (with_materials (materials_ r ++ [material]) r)
                (mat_id material)) as (_ & _ & -> & _). apply last_filter_snoc_eq.
  - intros id Hne.
    destruct (find_built_last (with_materials (materials_ r ++ [material]) r) id)
      as (_ & _ & -> & _).
    destruct (find_built_last r id) as (_ & _ & -> & _).
    by apply last_filter_snoc_ne.
  - destruct (find_built_last (with_properties (properties_ r ++ [property]) r)
                (prop_id property)) as (_ & _ & _ & ->). apply last_filter_snoc_eq.
  - intros id Hne.
    destruct (find_built_last (with_properties (properties_ r ++ [property]) r) id)
      as (_ & _ & _ & ->).
    destruct (find_built_last r id) as (_ & _ & _ & ->).
    by apply last_filter_snoc_ne.
Qed.

Lemma find_if_head {A} (key : A -> Z) (items : list A) k :
  BasicReader.find_if (fun x => key x =? k) items = head (filter (fun x => key x = k) items).
Proof.
  induction items as [|x rest IH]; [done|]. cbn [BasicReader.find_if].
  rewrite filter_cons. destruct (Z.eqb_spec (key x) k) as [Hk|Hk].
  - by rewrite decide_True.
  - by rewrite decide_False.
Qed.

Lemma head_last_filter_NoDup {A} (key : A -> Z) (items : list A) k :
  NoDup (key <$> items) ->
  head (filter (fun x => key x = k) items) = last (filter (fun x => key x = k) items).
Proof.
  induction items as [|x rest IH]; [done|].
  rewrite fmap_cons, NoDup_cons. intros (Hx & Hnd). rewrite filter_cons.
  destruct (decide (key x = k)) as [Hk|Hk]; [|by apply IH].
  assert (filter (fun y => key y = k) rest = []) as ->; [|done].
  destruct (filter (fun y => key y = k) rest) as [|y ys] eqn:Hf; [done|].
  assert (y ∈ filter (fun y => key y = k) rest) as Hy by (rewrite Hf; apply elem_of_cons; by left).
  apply list_elem_of_filter in Hy as (Hyk & Hy). exfalso. apply Hx.
  apply list_elem_of_fmap. exists y. split; [congruence|done].
Qed.

(** X3: the basic reader's [findNode] and [findElement] return the first
    stored entity with the identifier; the reader with lookup tables returns
    the last one, and the two agree when the identifiers are pairwise
    distinct. *)
Theorem basic_find_is_first (r : RadFileReader) (id : Z) :
  BasicReader.findNode r id = head (filter (fun n => node_id n = id) (nodes_ r))
  /\ BasicReader.findElement r id = head (filter (fun e => elem_id e = id) (elements_ r))
  /\ (NoDup (node_id <$> nodes_ r) ->
      BasicReader.findNode r id = findNode (buildLookupTables r) id)
  /\ (NoDup (elem_id <$> elements_ r) ->
      BasicReader.findElement r id = findElement (buildLookupTables r) id).
Proof.
  unfold BasicReader.findNode, BasicReader.findElement.
  destruct (find_built_last r id) as (Hn & He & _).
  rewrite !find_if_head, Hn, He.
  repeat split; intros H; by apply head_last_filter_NoDup.
Qed.

End LookupTables.

(** ** What the reading loop keeps *)

Section LoopInvariants.
Import Str Reader Spec.
Context `{L : CxxLib}.

Lemma grows_refl r : grows r r.
Proof. unfold grows. repeat split; done. Qed.

Lemma grows_trans r1 r2 r3 : grows r1 r2 -> grows r2 r3 -> grows r1 r3.
Proof.
  unfold grows. intros (?&?&?&?&?&?&?&?&?&?&?&?) (?&?&?&?&?&?&?&?&?&?&?&?).
  repeat split; try (etrans; eassumption); congruence.
Qed.

Ltac grows_step :=
  unfold grows; simpl; repeat split; try reflexivity; try (by apply prefix_app_r).

Lemma parseContent_grows currentState line r :
  grows r (parseContent currentState line r).2
  /\ lastError_ (parseContent currentState line r).2 = lastError_ r.
Proof.
  destruct currentState; simpl.
  - unfold parseHeader. repeat case_match; simpl; split; try done; grows_step.
  - unfold parseTitle. repeat case_match; simpl; split; try done; grows_step.
  - unfold parseNode. repeat case_match; simpl; split; try done; grows_step.
  - unfold parseElement. repeat case_match; simpl; split; try done; grows_step.
  - unfold parseMaterial. repeat case_match; simpl; split; try done; grows_step.
  - unfold parseProperty. repeat case_match; simpl; split; try done; grows_step.
  - unfold parseLoadCase. repeat case_match; simpl; split; try done; grows_step.
  - unfold parseBoundaryCondition. repeat case_match; simpl; split; try done; grows_step.
  - split; [apply grows_refl|done].
Qed.

Lemma parseLoop_grows lines currentState lineNumber r :
  grows r (loop_reader (parseLoop lines currentState lineNumber r))
  /\ (loop_ok (parseLoop lines currentState lineNumber r) = true ->
      lastError_ (loop_reader (parseLoop lines currentState lineNumber r)) = lastError_ r).
Proof.
  revert currentState lineNumber r.
  induction lines as [|line lines IH]; intros currentState lineNumber r; cbn [parseLoop].
  { split; [apply grows_refl|done]. }
  destruct (isEmpty line || isComment line); [apply IH|].
  destruct (negb (is_unknown (determineSection line))); [apply IH|].
  destruct (parseContent_grows currentState line r) as (Hg & He).
  destruct (parseContent currentState line r) as [[] r']; simpl in *.
  - destruct (IH currentState (lineNumber + 1) r') as (Hg' & He'). split.
    + by eapply grows_trans.
    + intros Hok. by rewrite He', He.
  - split; [|done]. eapply grows_trans; [exact Hg|]. grows_step.
Qed.

(** X4: reading lines only appends.  Whatever the lines are, each of the six
    collections of the reader afterwards starts with what it held before,
    and the loop touches neither the file name, the validity flag nor the
    lookup tables; when it reads to the end it leaves the last error as it
    was. *)
Theorem parseLoop_only_appends
    (lines : list string) (currentState : ParseState) (lineNumber : Z) (r : RadFileReader) :
  grows r (loop_reader (parseLoop lines currentState lineNumber r))
  /\ (loop_ok (parseLoop lines currentState lineNumber r) = true ->
      lastError_ (loop_reader (parseLoop lines currentState lineNumber r)) = lastError_ r).
Proof. apply parseLoop_grows. Qed.

Lemma parseLoop_failed_error lines currentState lineNumber r :
  loop_ok (parseLoop lines currentState lineNumber r) = false ->
  exists n line,
    lastError_ (loop_reader (parseLoop lines currentState lineNumber r))
    = "Parse error at line " +:+ to_string n +:+ ": " +:+ line.
Proof.
  revert currentState lineNumber r.
  induction lines as [|line lines IH]; intros currentState lineNumber r; cbn [parseLoop]; [done|].
  destruct (isEmpty line || isComment line); [apply IH|].
  destruct (negb (is_unknown (determineSection line))); [apply IH|].
  destruct (parseContent currentState line r) as [[] r']; [apply IH|].
  intros _. by exists (lineNumber + 1), line.
Qed.

(** X5: what the result of [loadFile] tells.  When it returns [true] the
    file was opened, the reader is valid, carries the file name, passes
    [validateData] and has an empty last error; when it returns [false] the
    reader is not valid and its last error is not empty. *)
Theorem loadFile_result_meaning
    (fs : string -> option string) (filename : string) (r : RadFileReader) :
  let r' := (loadFile fs filename r).2 in
  if (loadFile fs filename r).1
  then is_Some (fs filename) /\ isValid_ r' = true /\ validateData r' = true
       /\ lastError_ r' = "" /\ filename_ r' = filename
  else isValid_ r' = false /\ lastError_ r' <> "" /\ filename_ r' = filename.
Proof.
  unfold loadFile, parseFile. cbv zeta. rewrite clear_is_empty.
  destruct (fs filename) as [file|]; [|by repeat split].
  pose proof (parseLoop_grows (getline "010" file) STATE_HEADER 0
                (with_filename filename empty_reader)) as (Hg & He).
  pose proof (parseLoop_failed_error (getline "010" file) STATE_HEADER 0
                (with_filename filename empty_reader)) as Hf.
  destruct Hg as (_ & _ & _ & _ & _ & _ & Hname & Hvalid & _).
  destruct (parseLoop (getline "010" file) STATE_HEADER 0 (with_filename filename empty_reader))
    as [ok s n p]. simpl in *.
  destruct ok; simpl.
  - destruct (validateData (buildLookupTables p)) eqn:Hv; simpl.
    + repeat split; try done. by apply He.
    + repeat split; done.
  - destruct (Hf eq_refl) as (k & line & Hmsg). rewrite Hvalid. simpl.
    repeat split; try done. rewrite Hmsg. done.
Qed.

Lemma parseContent_keeps_counts currentState line r :
  Forall count_matches (elements_ r) ->
  Forall count_matches (elements_ (parseContent currentState line r).2).
Proof.
  intros Hall. destruct currentState; simpl; try done.
  - unfold parseHeader. by repeat case_match.
  - unfold parseTitle. by repeat case_match.
  - unfold parseNode. by repeat case_match.
  - unfold parseElement.
    destruct (Nat.ltb_spec (length (tokenizeLine line)) 3) as [?|Hlen]; [done|].
    destruct (mapM stoi (drop 3 (tokenizeLine line))) as [ids|] eqn:Hids;
      destruct (stoi (token (tokenizeLine line) 0)) as [id|];
      destruct (stoi (token (tokenizeLine line) 1)) as [m|];
      destruct (stoi (token (tokenizeLine line) 2)) as [p|];
      destruct (Nat.leb_spec 2 (length (tokenizeLine line) - 3)) as [Hn|Hn];
      simpl; try done;
      apply Forall_app; (split; [done|]); apply Forall_singleton;
      unfold count_matches; simpl; try lia.
    apply length_mapM in Hids. rewrite length_drop in Hids. rewrite <- Hids.
    unfold type_of_node_count.
    destruct (length (tokenizeLine line) - 3)%nat as [|[|[|[|[|[|[|[|[|k]]]]]]]]];
      simpl; lia.
  - unfold parseMaterial. by repeat case_match.
  - unfold parseProperty. by repeat case_match.
  - unfold parseLoadCase. by repeat case_match.
  - unfold parseBoundaryCondition. by repeat case_match.
Qed.

Lemma parseLoop_keeps_counts lines currentState lineNumber r :
  Forall count_matches (elements_ r) ->
  Forall count_matches (elements_ (loop_reader (parseLoop lines currentState lineNumber r))).
Proof.
  revert currentState lineNumber r.
  induction lines as [|line lines IH]; intros currentState lineNumber r Hall;
    cbn [parseLoop]; [done|].
  destruct (isEmpty line || isComment line); [by apply IH|].
  destruct (negb (is_unknown (determineSection line))); [by apply IH|].
  pose proof (parseContent_keeps_counts currentState line r Hall) as Hc.
  destruct (parseContent currentState line r) as [[] r']; simpl in *; [by apply IH|done].
Qed.

(** X6: the node-count test of [validateElements] never fails on what
    [parseElement] stored, so that a file that opens loads with result [true]
    exactly when no line is rejected, the node identifiers and the element
    identifiers are pairwise distinct, and every node identifier listed by an
    element is the identifier of a node that was read. *)
Theorem loadFile_fails_only_for_lines_duplicates_or_references
    (fs : string -> option string) (filename file : string) (r : RadFileReader) :
  fs filename = Some file ->
  let parsed := parseFile file (with_filename filename (clear r)) in
  Forall count_matches (elements_ parsed.2)
  /\ ((loadFile fs filename r).1 = true <->
      parsed.1 = true
      /\ NoDup (node_id <$> nodes_ parsed.2)
      /\ NoDup (elem_id <$> elements_ parsed.2)
      /\ (forall element nodeId,
            element ∈ elements_ parsed.2 -> nodeId ∈ elem_nodeIds element ->
            exists node, node ∈ nodes_ parsed.2 /\ node_id node = nodeId)).
Proof.
  intros Hfs parsed.
  assert (Forall count_matches (elements_ parsed.2)) as Hcounts.
  { unfold parsed, parseFile. simpl. apply parseLoop_keeps_counts. constructor. }
  split; [done|].
  destruct (loadFile_opened fs filename file r Hfs) as (-> & _ & _). fold parsed.
  rewrite andb_true_iff, validateData_built_spec.
  rewrite Forall_forall in Hcounts. split.
  - intros (Hp & Hn & He & _ & Hr). done.
  - intros (Hp & Hn & He & Hr). repeat split; done.
Qed.

(** The number that the loop starts counting lines from shows in the text
    of a parse error only. *)
Lemma parseLoop_line_number_irrelevant lines currentState n n' r :
  loop_ok (parseLoop lines currentState n r) = loop_ok (parseLoop lines currentState n' r)
  /\ loop_state (parseLoop lines currentState n r)
     = loop_state (parseLoop lines currentState n' r)
  /\ setError "" (loop_reader (parseLoop lines currentState n r))
     = setError "" (loop_reader (parseLoop lines currentState n' r)).
Proof.
  revert currentState n n' r.
  induction lines as [|line lines IH]; intros currentState n n' r; cbn [parseLoop]; [done|].
  destruct (isEmpty line || isComment line); [apply IH|].
  destruct (negb (is_unknown (determineSection line))); [apply IH|].
  destruct (parseContent currentState line r) as [[] r']; [apply IH|done].
Qed.

(** X7: blank lines and comment lines carry nothing.  Reading a sequence of
    lines and reading it with these lines taken out end alike: with the same
    result, in the same section and with the same reader but for the text of
    the last error, which names a line number. *)
Theorem comment_lines_can_be_removed
    (lines : list string) (currentState : ParseState) (n n' : Z) (r : RadFileReader) :
  let kept := filter (fun line => is_skipped line = false) lines in
  loop_ok (parseLoop kept currentState n r) = loop_ok (parseLoop lines currentState n' r)
  /\ loop_state (parseLoop kept currentState n r)
     = loop_state (parseLoop lines currentState n' r)
  /\ setError "" (loop_reader (parseLoop kept currentState n r))
     = setError "" (loop_reader (parseLoop lines currentState n' r)).
Proof.
  cbv zeta. revert currentState n n' r.
  induction lines as [|line lines IH]; intros currentState n n' r; [done|].
  rewrite filter_cons. destruct (decide (is_skipped line = false)) as [Hs|Hs].
  - unfold is_skipped in Hs. cbn [parseLoop]. rewrite Hs.
    destruct (negb (is_unknown (determineSection line))); [apply IH|].
    destruct (parseContent currentState line r) as [[] r']; [apply IH|done].
  - apply not_false_is_true in Hs. unfold is_skipped in Hs.
    cbn [parseLoop]. rewrite Hs. apply IH.
Qed.

End LoopInvariants.

(** ** Text: trimming, tokens and integers *)

Section TextRoundTrips.
Import Str Reader Spec.
Context `{L : CxxLib}.

Lemma substring_0_0 s : String.substring 0 0 s = "".
Proof. by destruct s. Qed.

Lemma substring_0_idem n s :
  String.substring 0 n (String.substring 0 n s) = String.substring 0 n s.
Proof.
  revert s. induction n as [|n IH]; intros s.
  - by rewrite !substring_0_0.
  - destruct s as [|c r]; [done|]. simpl. by rewrite IH.
Qed.

Lemma substring_0_length n s : (String.length (String.substring 0 n s) <= String.length s)%nat.
Proof.
  revert s. induction n as [|n IH]; intros s.
  - rewrite substring_0_0. simpl. lia.
  - destruct s as [|c r]; [done|]. simpl. specialize (IH r). lia.
Qed.

Lemma substring_length_le n m s :
  (String.length (String.substring n m s) <= String.length s)%nat.
Proof.
  revert s. induction n as [|n IH]; intros s; [apply substring_0_length|].
  destruct s as [|c r]; [done|]. simpl. specialize (IH r). lia.
Qed.

Lemma rstrip_cons c r : is_blank c = false -> rstrip (String c r) = String c (rstrip r).
Proof.
  intros Hc. unfold rstrip. cbn [find_last_not_of]. rewrite Hc.
  destruct (find_last_not_of is_blank r) as [j|]; [done|].
  simpl. by rewrite substring_0_0.
Qed.

Lemma trim_nonblank_cons c r : is_blank c = false -> trim (String c r) = String c (rstrip r).
Proof.
  intros Hc. rewrite <- (rstrip_cons _ _ Hc). unfold trim, rstrip.
  cbn [find_first_not_of find_last_not_of]. rewrite Hc.
  destruct (find_last_not_of is_blank r) as [j|].
  - by replace (S j - 0 + 1)%nat with (S (S j)) by lia.
  - done.
Qed.

Lemma find_last_rstrip s :
  find_last_not_of is_blank (rstrip s) = find_last_not_of is_blank s.
Proof.
  unfold rstrip. destruct (find_last_not_of is_blank s) as [j|] eqn:Hj; [|done].
  revert j Hj. induction s as [|c r IH]; intros j Hj; [done|].
  cbn [find_last_not_of] in Hj.
  destruct (find_last_not_of is_blank r) as [i|] eqn:Hi.
  - injection Hj as <-. change (String.substring 0 (S (S i)) (String c r))
      with (String c (String.substring 0 (S i) r)).
    cbn [find_last_not_of]. by rewrite (IH i eq_refl).
  - destruct (is_blank c) eqn:Hc; [done|]. injection Hj as <-.
    simpl. rewrite substring_0_0. simpl. by rewrite Hc.
Qed.

Lemma rstrip_idem s : rstrip (rstrip s) = rstrip s.
Proof.
  unfold rstrip at 1. rewrite find_last_rstrip. unfold rstrip.
  destruct (find_last_not_of is_blank s) as [j|]; [|done].
  apply substring_0_idem.
Qed.

Lemma trim_shape s :
  trim s = "" \/ exists c r, is_blank c = false /\ trim s = String c (rstrip r).
Proof.
  induction s as [|c r IH]; [by left|].
  destruct (is_blank c) eqn:Hc.
  - by rewrite (trim_skips_blank _ _ Hc).
  - right. exists c, r. split; [done|]. by apply trim_nonblank_cons.
Qed.

Lemma trim_trim s : trim (trim s) = trim s.
Proof.
  destruct (trim_shape s) as [->|(c & r & Hc & ->)]; [done|].
  by rewrite (trim_nonblank_cons _ _ Hc), rstrip_idem.
Qed.

Lemma trim_length s : (String.length (trim s) <= String.length s)%nat.
Proof.
  unfold trim. destruct (find_first_not_of is_blank s); [|simpl; lia].
  destruct (find_last_not_of is_blank s); [|simpl; lia].
  apply substring_length_le.
Qed.

(** X8: [trim] is a projection: trimming a trimmed text changes nothing, the
    result is never longer than the text, and it is empty or begins with the
    first character of the text that is not a blank. *)
Theorem trim_is_a_projection (s : string) :
  trim (trim s) = trim s
  /\ (String.length (trim s) <= String.length s)%nat
  /\ match first_nonblank s with
     | None => trim s = ""
     | Some c => exists rest, trim s = String c rest /\ is_blank c = false
     end.
Proof.
  split; [apply trim_trim|]. split; [apply trim_length|].
  pose proof (trim_first_nonblank s) as H.
  destruct (first_nonblank s) as [c|] eqn:Hc; [|done].
  destruct H as (rest & ->). exists rest. split; [done|].
  by eapply first_nonblank_not_blank.
Qed.

(** *** Tokens *)

Lemma has_any_of_substring_0 (set : ascii -> bool) n s :
  has_any_of set s = false -> has_any_of set (String.substring 0 n s) = false.
Proof.
  revert s. induction n as [|n IH]; intros s; [by rewrite substring_0_0|].
  destruct s as [|c r]; [done|]. simpl.
  intros [-> Hr]%orb_false_iff. simpl. by apply IH.
Qed.

Lemma has_any_of_substring (set : ascii -> bool) n m s :
  has_any_of set s = false -> has_any_of set (String.substring n m s) = false.
Proof.
  revert s. induction n as [|n IH]; intros s; [apply has_any_of_substring_0|].
  destruct s as [|c r]; [done|]. simpl.
  intros [_ Hr]%orb_false_iff. by apply IH.
Qed.

Lemma has_any_of_trim (set : ascii -> bool) s :
  has_any_of set s = false -> has_any_of set (trim s) = false.
Proof.
  intros H. unfold trim. destruct (find_first_not_of is_blank s); [|done].
  destruct (find_last_not_of is_blank s); [|done]. by apply has_any_of_substring.
Qed.

Lemma has_any_of_app (set : ascii -> bool) s t :
  has_any_of set (s +:+ t) = has_any_of set s || has_any_of set t.
Proof.
  induction s as [|c r IH]; [done|]. rewrite append_cons. simpl. by rewrite IH, orb_assoc.
Qed.

(** No piece that [std::getline] cuts holds the delimiter. *)
Lemma getline_no_delim d s :
  Forall (fun t => has_any_of (fun c => Ascii.eqb c d) t = false) (getline d s).
Proof.
  induction s as [|c r IH]; simpl; [constructor|].
  destruct (Ascii.eqb c d) eqn:Hcd; [by constructor|].
  destruct (getline d r) as [|t ts]; constructor; simpl; rewrite ?Hcd; try done.
  - by inversion IH.
  - by inversion IH.
Qed.

Lemma getline_piece_delim d t s :
  has_any_of (fun c => Ascii.eqb c d) t = false ->
  getline d (t +:+ String d s) = t :: getline d s.
Proof.
  induction t as [|a t IH]; intros Ht.
  - change ("" +:+ String d s) with (String d s). simpl. by rewrite Ascii.eqb_refl.
  - simpl in Ht. apply orb_false_iff in Ht as [Ha Ht].
    rewrite append_cons. simpl. rewrite Ha, (IH Ht). done.
Qed.

Lemma getline_piece d t :
  t <> "" -> has_any_of (fun c => Ascii.eqb c d) t = false -> getline d t = [t].
Proof.
  induction t as [|a t IH]; intros Hne Ht; [done|].
  simpl in Ht. apply orb_false_iff in Ht as [Ha Ht]. simpl. rewrite Ha.
  destruct t as [|b t]; [done|]. by rewrite IH.
Qed.

Lemma tokenizeLine_tokens line : Forall is_token (tokenizeLine line).
Proof.
  unfold tokenizeLine. apply Forall_forall. intros t [Hne Ht]%list_elem_of_filter.
  apply list_elem_of_fmap in Ht as (piece & -> & Hpiece).
  pose proof (getline_no_delim " " line) as Hd. rewrite Forall_forall in Hd.
  repeat split.
  - by destruct (trim piece).
  - apply trim_trim.
  - apply has_any_of_trim. by apply Hd.
Qed.

Lemma tokenizeLine_space s : tokenizeLine (String " " s) = tokenizeLine s.
Proof. reflexivity. Qed.

Lemma tokenizeLine_token_space t s :
  is_token t -> tokenizeLine (t +:+ String " " s) = t :: tokenizeLine s.
Proof.
  intros (Hne & Htrim & Hsp). unfold tokenizeLine.
  rewrite (getline_piece_delim _ _ _ Hsp), fmap_cons, Htrim, filter_cons.
  by destruct t.
Qed.

Lemma tokenizeLine_token t : is_token t -> tokenizeLine t = [t].
Proof.
  intros (Hne & Htrim & Hsp). unfold tokenizeLine.
  rewrite (getline_piece _ _ Hne Hsp). simpl. rewrite Htrim, filter_cons.
  by destruct t.
Qed.

Lemma tokenizeLine_concat tokens :
  Forall is_token tokens -> tokenizeLine (String.concat " " tokens) = tokens.
Proof.
  induction 1 as [|t ts Ht Hts IH]; [done|].
  destruct ts as [|t' ts].
  - by apply tokenizeLine_token.
  - change (String.concat " " (t :: t' :: ts))
      with (t +:+ String " " (String.concat " " (t' :: ts))).
    by rewrite (tokenizeLine_token_space _ _ Ht), IH.
Qed.

(** X9: the tokens of a line are in normal form.  Every token that
    [tokenizeLine] returns is non-empty, holds no space and is its own
    [trim]; and a line is equivalent to its tokens joined by single spaces:
    tokenizing that line returns the same tokens. *)
Theorem tokenizeLine_normal_form (line : string) :
  Forall (fun t => t <> "" /\ trim t = t /\ has_any_of (fun c => Ascii.eqb c " ") t = false)
    (tokenizeLine line)
  /\ tokenizeLine (String.concat " " (tokenizeLine line)) = tokenizeLine line.
Proof.
  split; [apply tokenizeLine_tokens|].
  apply tokenizeLine_concat, tokenizeLine_tokens.
Qed.

End TextRoundTrips.

(** ** Integers as text, and the element line *)

Section WrittenIntegers.
Import Str Reader Spec.
Context `{L : CxxLib}.

Lemma digits_value_acc d acc :
  fold_left (fun a x => 10 * a + x) (leading_digits (NilEmpty.string_of_uint d)) (Z.pos acc)
  = Z.pos (Pos.of_uint_acc d acc).
Proof.
  revert acc. induction d; intros acc; [done|..];
    cbn [NilEmpty.string_of_uint leading_digits Pos.of_uint_acc];
    match goal with
    | |- context [is_digit ?c] => change (is_digit c) with true; cbv iota
    end;
    cbn [fold_left]; rewrite <- IHd; f_equal;
    try match goal with
        | |- context [digit_value ?c] =>
            let v := eval vm_compute in (digit_value c) in change (digit_value c) with v
        end;
    lia.
Qed.

Lemma digits_value d :
  decimal_value (leading_digits (NilEmpty.string_of_uint d)) = Z.of_N (Pos.of_uint d).
Proof.
  unfold decimal_value. induction d; [done|..];
    cbn [NilEmpty.string_of_uint leading_digits Pos.of_uint];
    match goal with
    | |- context [is_digit ?c] => change (is_digit c) with true; cbv iota
    end;
    cbn [fold_left];
    match goal with
    | |- context [digit_value ?c] =>
        let v := eval vm_compute in (digit_value c) in change (digit_value c) with v
    end;
    first [ exact IHd | apply digits_value_acc ].
Qed.

(** The text of a number without sign starts with a digit. *)
Lemma string_of_uint_head d :
  d <> Decimal.Nil ->
  exists c r, NilEmpty.string_of_uint d = String c r
    /\ is_digit c = true /\ isspace c = false
    /\ forall t, sign_and_rest (String c t) = (false, String c t).
Proof. destruct d; [done|..]; intros _; simpl; eauto 10. Qed.

(** The digits of a number, with any text after them that does not begin
    with a digit. *)
Lemma uint_digits_then d rest :
  leading_digits rest = [] ->
  leading_digits (NilEmpty.string_of_uint d +:+ rest)
  = leading_digits (NilEmpty.string_of_uint d)
  /\ drop_digits (NilEmpty.string_of_uint d +:+ rest) = rest.
Proof.
  intros Hrest. induction d; cbn [NilEmpty.string_of_uint];
    [|change (String ?c ?s +:+ rest) with (String c (s +:+ rest));
      cbn [leading_digits drop_digits];
      match goal with
      | |- context [is_digit ?c] => change (is_digit c) with true; cbv iota
      end;
      destruct IHd as [-> ->]; done..].
  change ("" +:+ rest) with rest. split; [done|].
  destruct rest as [|c r]; [done|]. simpl in *. by destruct (is_digit c).
Qed.

(** The number denoted by the text of a number, with or without a minus
    sign, and any text after it that does not begin with a digit; and what a
    stream keeps of it. *)
Lemma integer_prefix_digits_then d rest :
  d <> Decimal.Nil ->
  leading_digits rest = [] ->
  (integer_prefix (NilEmpty.string_of_uint d +:+ rest) = Some (Z.of_N (Pos.of_uint d))
   /\ drop_digits (sign_and_rest (skip_space (NilEmpty.string_of_uint d +:+ rest))).2 = rest)
  /\ (integer_prefix (String "-" (NilEmpty.string_of_uint d +:+ rest))
       = Some (- Z.of_N (Pos.of_uint d))
      /\ drop_digits
           (sign_and_rest (skip_space (String "-" (NilEmpty.string_of_uint d +:+ rest)))).2
         = rest).
Proof.
  intros Hd Hrest. pose proof (digits_value d) as Hv.
  destruct (uint_digits_then d rest Hrest) as [Hlead Hdrop].
  destruct (string_of_uint_head d Hd) as (c & r & Hs & Hdig & Hsp & Hsign).
  rewrite Hs in *. unfold integer_prefix.
  change (String c r +:+ rest) with (String c (r +:+ rest)) in *.
  change (skip_space (String "-" ?s)) with (String "-" s).
  cbn [skip_space sign_and_rest]. rewrite Hsp, Hsign. cbn [snd].
  rewrite Hlead, Hdrop. cbn [leading_digits] in *. rewrite Hdig in *.
  by rewrite Hv.
Qed.

Lemma integer_prefix_digits d :
  d <> Decimal.Nil ->
  integer_prefix (NilEmpty.string_of_uint d) = Some (Z.of_N (Pos.of_uint d))
  /\ integer_prefix (String "-" (NilEmpty.string_of_uint d)) = Some (- Z.of_N (Pos.of_uint d)).
Proof.
  intros Hd. destruct (integer_prefix_digits_then d "" Hd eq_refl) as [[Hpos _] [Hneg _]].
  by rewrite append_nil_r in Hpos, Hneg.
Qed.

Lemma integer_prefix_to_string z : integer_prefix (to_string z) = Some z.
Proof.
  destruct z as [|p|p]; [done|..]; unfold to_string; simpl Z.to_int;
    pose proof (DecimalPos.Unsigned.to_uint_nonnil p) as Hnn;
    destruct (integer_prefix_digits _ Hnn) as [Hpos Hneg];
    rewrite DecimalPos.Unsigned.of_to in Hpos, Hneg.
  - simpl. destruct (Pos.to_uint p); done.
  - simpl. destruct (Pos.to_uint p); done.
Qed.

Lemma stoi_to_string z :
  stoi (to_string z) = if (INT_MIN <=? z) && (z <=? INT_MAX) then Some z else None.
Proof. by rewrite stoi_integer_prefix, integer_prefix_to_string. Qed.

Lemma stoi_to_string_in_range z : INT_MIN <= z <= INT_MAX -> stoi (to_string z) = Some z.
Proof.
  intros [Hlo Hhi]. rewrite stoi_to_string.
  apply Z.leb_le in Hlo, Hhi. by rewrite Hlo, Hhi.
Qed.

(** X10: [std::stoi] reads back what [std::to_string] wrote.  For every
    integer, converting its decimal text returns the integer when it lies in
    the range of [int] and fails (the [out_of_range] exception) when it does
    not. *)
Theorem stoi_reads_back_to_string (z : Z) :
  stoi (to_string z) = if (INT_MIN <=? z) && (z <=? INT_MAX) then Some z else None.
Proof. apply stoi_to_string. Qed.

End WrittenIntegers.

(** ** The element line of the writer, read back *)

Section ElementLine.
Import Str Reader Spec.
Context `{L : CxxLib}.

Lemma has_any_of_weaken (set set' : ascii -> bool) s :
  (forall c, set c = true -> set' c = true) ->
  has_any_of set' s = false -> has_any_of set s = false.
Proof.
  intros Hsub. induction s as [|c r IH]; simpl; [done|].
  intros [Hc Hr]%orb_false_iff. rewrite (IH Hr), orb_false_r.
  destruct (set c) eqn:Hs; [|done]. by rewrite (Hsub c Hs) in Hc.
Qed.

Lemma rstrip_no_blank s : has_any_of is_blank s = false -> rstrip s = s.
Proof.
  induction s as [|c r IH]; simpl; [done|].
  intros [Hc Hr]%orb_false_iff. by rewrite (rstrip_cons _ _ Hc), (IH Hr).
Qed.

Lemma no_blank_is_token t : t <> "" -> has_any_of is_blank t = false -> is_token t.
Proof.
  intros Hne Hb. repeat split; [done|..].
  - destruct t as [|c r]; [done|]. simpl in Hb. apply orb_false_iff in Hb as [Hc Hr].
    by rewrite (trim_nonblank_cons _ _ Hc), (rstrip_no_blank _ Hr).
  - apply (has_any_of_weaken _ is_blank); [|done].
    intros c Hc. apply Ascii.eqb_eq in Hc. by subst.
Qed.

Lemma string_of_uint_no_blank d : has_any_of is_blank (NilEmpty.string_of_uint d) = false.
Proof. induction d; simpl; done. Qed.

Lemma to_string_no_blank z : to_string z <> "" /\ has_any_of is_blank (to_string z) = false.
Proof.
  destruct z as [|p|p]; [done|..]; unfold to_string; simpl;
    pose proof (string_of_uint_no_blank (Pos.to_uint p)) as Hb;
    destruct (Pos.to_uint p); done.
Qed.

Lemma to_string_is_token z : is_token (to_string z).
Proof. destruct (to_string_no_blank z). by apply no_blank_is_token. Qed.

(** *** Fields of fixed width *)

Lemma spaces_S k :
  String.concat "" (repeat " " (S k)) = String " " (String.concat "" (repeat " " k)).
Proof. by destruct k. Qed.

Lemma concat_cons x (l : list string) : String.concat "" (x :: l) = x +:+ String.concat "" l.
Proof. destruct l; simpl; [by rewrite append_nil_r|done]. Qed.

Lemma tokenizeLine_spaces k s :
  tokenizeLine (String.concat "" (repeat " " k) +:+ s) = tokenizeLine s.
Proof.
  induction k as [|k IH]; [done|].
  by rewrite spaces_S, append_cons, tokenizeLine_space.
Qed.

Lemma tokenizeLine_setw w t s : tokenizeLine (setw w t +:+ s) = tokenizeLine (t +:+ s).
Proof. unfold setw. by rewrite append_assoc, tokenizeLine_spaces. Qed.

Lemma setw_narrow w t :
  (String.length t < w)%nat -> exists padded, setw w t = String " " padded.
Proof.
  intros Hlt. unfold setw.
  replace (w - String.length t)%nat with (S (w - String.length t - 1)) by lia.
  rewrite spaces_S, append_cons. eauto.
Qed.

(** The tokens of a line made of right-aligned fields, each but the first
    narrower than the field width. *)
Lemma tokenizeLine_fields w t ts :
  is_token t ->
  Forall (fun t => is_token t /\ (String.length t < w)%nat) ts ->
  tokenizeLine (setw w t +:+ String.concat "" (setw w <$> ts)) = t :: ts.
Proof.
  intros Ht Hts. revert t Ht. induction Hts as [|t' ts [Ht' Hlt] _ IH]; intros t Ht.
  - simpl. rewrite append_nil_r. unfold setw. rewrite tokenizeLine_spaces.
    by apply tokenizeLine_token.
  - rewrite tokenizeLine_setw, fmap_cons, concat_cons.
    specialize (IH t' Ht'). destruct (setw_narrow w t' Hlt) as (padded & Hp).
    rewrite Hp in *. rewrite append_cons in *.
    rewrite (tokenizeLine_token_space _ _ Ht). rewrite tokenizeLine_space in IH.
    by rewrite IH.
Qed.

Lemma setw_no_newline w t :
  has_any_of is_blank t = false ->
  has_any_of (fun c => Ascii.eqb c "010") (setw w t) = false.
Proof.
  intros Ht. unfold setw. rewrite has_any_of_app. apply orb_false_iff. split.
  - induction (w - String.length t)%nat as [|k IH]; [done|]. by rewrite spaces_S.
  - apply (has_any_of_weaken _ is_blank); [|done].
    intros c Hc. apply Ascii.eqb_eq in Hc. by subst.
Qed.

Lemma fields_no_newline w (zs : list Z) :
  has_any_of (fun c => Ascii.eqb c "010")
    (String.concat "" ((fun z => setw w (to_string z)) <$> zs)) = false.
Proof.
  induction zs as [|z zs IH]; [done|].
  rewrite fmap_cons, concat_cons, has_any_of_app, IH, orb_false_r.
  apply setw_no_newline, to_string_no_blank.
Qed.

Lemma mapM_stoi_to_string (zs : list Z) :
  Forall (fun z => INT_MIN <= z <= INT_MAX) zs -> mapM stoi (to_string <$> zs) = Some zs.
Proof.
  induction 1 as [|z zs Hz _ IH]; [done|].
  rewrite fmap_cons. cbn [mapM]. rewrite (stoi_to_string_in_range _ Hz). simpl.
  rewrite IH. done.
Qed.

(** What [writeElements] puts on the line of an element, up to the newline. *)
Lemma write_element_line element :
  write_element element
  = (setw 10 (to_string (elem_id element))
     +:+ String.concat ""
           (setw 10 <$> (to_string <$> elem_materialId element :: elem_propertyId element
                                        :: elem_nodeIds element)))
    +:+ String "010" "".
Proof.
  unfold write_element, write_int, newline.
  rewrite !fmap_cons, !concat_cons, <- list_fmap_compose, !append_assoc. done.
Qed.

(** X11: an element line of the writer reads back.  When the identifier of
    the element lies in the range of [int], its material, property and node
    identifiers do as well and print in fewer than ten characters, and it
    has at least two nodes, [writeElements] writes it as one line, and
    [parseElement] accepts that line and appends an element with the same
    identifier, material, property and nodes; its type is the one the parser
    derives from the number of nodes. *)
Theorem written_element_line_reads_back (element : Element) (r : RadFileReader) :
  INT_MIN <= elem_id element <= INT_MAX ->
  Forall (fun z => INT_MIN <= z <= INT_MAX /\ (String.length (to_string z) < 10)%nat)
    (elem_materialId element :: elem_propertyId element :: elem_nodeIds element) ->
  (2 <= length (elem_nodeIds element))%nat ->
  exists line,
    getline "010" (write_element element) = [line]
    /\ parseElement line r
       = (true,
          with_elements
            (elements_ r
             ++ [{| elem_id := elem_id element;
                    elem_type := type_of_node_count (length (elem_nodeIds element));
                    elem_materialId := elem_materialId element;
                    elem_propertyId := elem_propertyId element;
                    elem_nodeIds := elem_nodeIds element |}]) r).
Proof.
  intros Hid Hrest Hcount. eexists. split.
  - rewrite write_element_line. apply getline_piece_delim.
    rewrite has_any_of_app, <- list_fmap_compose. apply orb_false_iff. split.
    + apply setw_no_newline, to_string_no_blank.
    + apply fields_no_newline.
  - unfold parseElement. rewrite tokenizeLine_fields; first last.
    + apply Forall_fmap. eapply Forall_impl; [exact Hrest|].
      intros z [_ Hz]. split; [apply to_string_is_token|exact Hz].
    + apply to_string_is_token.
    + inversion Hrest as [|? ? [Hmat _] Hrest1]; subst.
      inversion Hrest1 as [|? ? [Hprop _] Hnodes]; subst.
      assert (Forall (fun z => INT_MIN <= z <= INT_MAX) (elem_nodeIds element)) as Hn.
      { eapply Forall_impl; [exact Hnodes|]. by intros z [Hz _]. }
      rewrite !fmap_cons. cbn [length token nth drop].
      rewrite length_fmap. cbn [Nat.ltb Nat.leb].
      rewrite (stoi_to_string_in_range _ Hid), (stoi_to_string_in_range _ Hmat),
        (stoi_to_string_in_range _ Hprop). cbn [mbind option_bind].
      replace (S (S (S (length (elem_nodeIds element)))) - 3)%nat
        with (length (elem_nodeIds element)) by lia.
      rewrite drop_0, (mapM_stoi_to_string _ Hn).
      destruct (elem_nodeIds element) as [|n1 [|n2 nodes]]; simpl in Hcount; [lia..|].
      done.
Qed.

End ElementLine.

(** ** Names of element types, file names and file formats *)

Section Utilities.
Import Str Reader Spec.
Context `{L : CxxLib}.

Lemma toupper_tolower c : toupper (tolower c) = toupper c.
Proof. destruct c as [[] [] [] [] [] [] [] []]; reflexivity. Qed.

Lemma toupper_toupper c : toupper (toupper c) = toupper c.
Proof. destruct c as [[] [] [] [] [] [] [] []]; reflexivity. Qed.

Lemma map_chars_compose (f g h : ascii -> ascii) s :
  (forall c, f (g c) = h c) -> map_chars f (map_chars g s) = map_chars h s.
Proof. intros Hc. induction s as [|c r IH]; simpl; [done|]. by rewrite Hc, IH. Qed.

(** X12: the names of the element types.  [stringToElementType] returns
    every type from the name [elementTypeToString] gives it, and it does not
    see the case of letters: a name, the name in lower case and the name in
    upper case are converted alike. *)
Theorem stringToElementType_reads_names :
  (forall t, stringToElementType (elementTypeToString t) = t)
  /\ (forall typeStr,
        stringToElementType (map_chars tolower typeStr) = stringToElementType typeStr
        /\ stringToElementType (map_chars toupper typeStr) = stringToElementType typeStr).
Proof.
  split; [by intros []|]. intros typeStr. unfold stringToElementType.
  rewrite (map_chars_compose toupper tolower toupper typeStr toupper_tolower),
    (map_chars_compose toupper toupper toupper typeStr toupper_toupper).
  split; reflexivity.
Qed.

(** X13: the names of the element types of the core model.
    [Element::StringToType] returns every type from the name
    [Element::TypeToString] gives it, and a text that it converts to a type
    other than [UNKNOWN] is the name of that type. *)
Theorem core_type_names_round_trip :
  (forall t, Model.StringToType (Model.TypeToString t) = t)
  /\ (forall typeStr,
        Model.StringToType typeStr = Model.UNKNOWN
        \/ Model.TypeToString (Model.StringToType typeStr) = typeStr).
Proof.
  split; [by intros []|]. intros typeStr. unfold Model.StringToType.
  destruct (String.eqb_spec typeStr "SH3N") as [->|_]; [by right|].
  destruct (String.eqb_spec typeStr "SHELL") as [->|_]; [by right|].
  destruct (String.eqb_spec typeStr "TETRA") as [->|_]; [by right|].
  destruct (String.eqb_spec typeStr "BRICK") as [->|_]; [by right|].
  destruct (String.eqb_spec typeStr "BEAM") as [->|_]; [by right|].
  destruct (String.eqb_spec typeStr "SPRING") as [->|_]; [by right|].
  by left.
Qed.

(** *** File names *)

Lemma find_last_of_absent c s :
  has_any_of (fun a => Ascii.eqb a c) s = false -> find_last_of c s = None.
Proof.
  induction s as [|a r IH]; simpl; [done|].
  intros [Ha Hr]%orb_false_iff. by rewrite (IH Hr), Ha.
Qed.

Lemma find_last_of_last c base ext :
  has_any_of (fun a => Ascii.eqb a c) ext = false ->
  find_last_of c (base +:+ String c ext) = Some (String.length base).
Proof.
  intros Hext. induction base as [|a base IH].
  - change ("" +:+ String c ext) with (String c ext). simpl.
    by rewrite (find_last_of_absent _ _ Hext), Ascii.eqb_refl.
  - rewrite append_cons. simpl. by rewrite IH.
Qed.

Lemma substring_all s : String.substring 0 (String.length s) s = s.
Proof. induction s as [|a r IH]; simpl; [done|]. by rewrite IH. Qed.

Lemma substr_from_0 s : substr_from 0 s = s.
Proof. unfold substr_from. rewrite Nat.sub_0_r. apply substring_all. Qed.

Lemma substr_from_after base c ext :
  substr_from (S (String.length base)) (base +:+ String c ext) = ext.
Proof.
  unfold substr_from. induction base as [|a base IH].
  - change ("" +:+ String c ext) with (String c ext). simpl.
    rewrite Nat.sub_0_r. apply substring_all.
  - rewrite append_cons. exact IH.
Qed.

(** X14: [isRadFile] looks at the text after the last dot only, whatever
    stands before it, and a name without a dot is judged as if the whole name
    were the extension: the answer is whether that text, in lower case, is
    [rad], [key] or [k]. *)
Theorem isRadFile_by_extension (base extension : string) :
  has_any_of (fun c => Ascii.eqb c ".") extension = false ->
  isRadFile (base +:+ "." +:+ extension) = isRadFile extension
  /\ isRadFile extension
     = (String.eqb (map_chars tolower extension) "rad"
        || String.eqb (map_chars tolower extension) "key"
        || String.eqb (map_chars tolower extension) "k").
Proof.
  intros Hext.
  assert (isRadFile extension
          = (String.eqb (map_chars tolower extension) "rad"
             || String.eqb (map_chars tolower extension) "key"
             || String.eqb (map_chars tolower extension) "k")) as Hplain.
  { unfold isRadFile. by rewrite (find_last_of_absent _ _ Hext), substr_from_0. }
  split; [|exact Hplain]. rewrite Hplain.
  change (base +:+ "." +:+ extension) with (base +:+ String "." extension).
  unfold isRadFile.
  by rewrite (find_last_of_last _ base _ Hext), substr_from_after.
Qed.

(** *** The format of a saved file *)

Lemma saveFile_first_line r text :
  saveFile r = Some text ->
  exists rest, text = "#RADIOSS STARTER" +:+ String "010" rest.
Proof.
  unfold saveFile. destruct (negb (isValid_ r)); [done|]. intros [= <-].
  unfold writeHeader, newline. rewrite !append_assoc.
  change (String "010" "" +:+ ?s) with (String "010" s). eauto.
Qed.

(** X15: a file that [saveFile] wrote is a RADIOSS file for
    [detectFileFormat], whatever the reader held: the first line of the file
    is the [#RADIOSS] header. *)
Theorem saved_file_is_detected_as_radioss
    (r : RadFileReader) (text : string) (fs : string -> option string) (filename : string) :
  saveFile r = Some text ->
  fs filename = Some text ->
  head (getline "010" text) = Some "#RADIOSS STARTER"
  /\ detectFileFormat fs filename = "RADIOSS".
Proof.
  intros Hsave Hfs. destruct (saveFile_first_line r text Hsave) as (rest & ->).
  unfold detectFileFormat. rewrite Hfs.
  rewrite getline_piece_delim by reflexivity. done.
Qed.

End Utilities.

(** ** The model store: what an addition and a removal change *)

Section StoreUpdates.
Import Model Spec.
Context `{L : CxxLib}.

Lemma lookup_after_add {A} (key : A -> Z) items table x k :
  consistent key items table ->
  match <[key x := length items]> table !! k with
  | Some index => at_index (items ++ [x]) index
  | None => Null
  end
  = if decide (k = key x) then Stored x
    else match table !! k with
         | Some index => at_index items index
         | None => Null
         end.
Proof.
  intros Hc. destruct (decide (k = key x)) as [->|Hne].
  - rewrite lookup_insert_eq. unfold at_index.
    rewrite lookup_app_r by lia. by rewrite Nat.sub_diag.
  - rewrite lookup_insert_ne by done.
    destruct (table !! k) as [i|] eqn:Hk; [|done].
    destruct (Hc k i Hk) as (y & Hy & _). unfold at_index.
    by rewrite (lookup_app_l_Some _ _ _ _ Hy), Hy.
Qed.

Lemma lookup_after_remove {A} (key : A -> Z) items table k0 i k :
  consistent key items table ->
  table !! k0 = Some i ->
  match shift_down i (delete k0 table) !! k with
  | Some index => at_index (delete i items) index
  | None => Null
  end
  = if decide (k = k0) then Null
    else match table !! k with
         | Some index => at_index items index
         | None => Null
         end.
Proof.
  intros Hc Hk0. unfold shift_down. rewrite lookup_fmap.
  destruct (decide (k = k0)) as [->|Hne]; [by rewrite lookup_delete_eq|].
  rewrite lookup_delete_ne by done.
  destruct (table !! k) as [j|] eqn:Hk; [|done]. simpl.
  destruct (Hc k j Hk) as (y & Hy & Hkey). destruct (Hc k0 i Hk0) as (x & Hx & Hkx).
  assert (j ≠ i) as Hji. { intros ->. congruence. }
  unfold at_index. destruct (Nat.ltb_spec i j) as [Hlt|Hge].
  - rewrite list_lookup_delete_ge by lia. by replace (S (j - 1)) with j by lia.
  - by rewrite list_lookup_delete_lt by lia.
Qed.

(** X16: what [AddNode], [AddElement] and [AddMaterial] change.  In a model
    reached by any run of the operations from the empty model, a lookup after
    an addition returns the added entity for its identifier, also when an
    entity with that identifier was stored before, and what it returned
    before for every other identifier. *)
Theorem lookup_after_addition (ops : list Operation) :
  exists m,
    run ops empty = Some m
    /\ (forall node k,
          GetNode k (AddNode node m)
          = if decide (k = id node) then Stored node else GetNode k m)
    /\ (forall element k,
          GetElement k (AddElement element m)
          = if decide (k = element_id element) then Stored element else GetElement k m)
    /\ (forall material k,
          GetMaterial k (AddMaterial material m)
          = if decide (k = material_id material) then Stored material else GetMaterial k m).
Proof.
  destruct (run_consistent ops empty empty_consistent) as (m & Hrun & Hn & He & Hm).
  exists m. split; [done|]. repeat split; intros x k.
  - apply (lookup_after_add id _ _ x k Hn).
  - apply (lookup_after_add element_id _ _ x k He).
  - apply (lookup_after_add material_id _ _ x k Hm).
Qed.

(** X17: what [RemoveNode] and [RemoveElement] change.  In a model reached
    by any run of the operations from the empty model a removal is defined;
    afterwards the lookup of the removed identifier returns the null pointer,
    the lookup of every other identifier returns what it returned before, and
    the collection holds one entity less exactly when the identifier had an
    entry in the table. *)
Theorem lookup_after_removal (ops : list Operation) (removed : Z) :
  exists m,
    run ops empty = Some m
    /\ (exists m',
          RemoveNode removed m = Some m'
          /\ (forall k, GetNode k m' = if decide (k = removed) then Null else GetNode k m)
          /\ length (m_Nodes m')
             = (length (m_Nodes m)
                - match m_NodeIdToIndex m !! removed with Some _ => 1 | None => 0 end)%nat)
    /\ (exists m',
          RemoveElement removed m = Some m'
          /\ (forall k,
                GetElement k m' = if decide (k = removed) then Null else GetElement k m)
          /\ length (m_Elements m')
             = (length (m_Elements m)
                - match m_ElementIdToIndex m !! removed with Some _ => 1 | None => 0 end)%nat).
Proof.
  destruct (run_consistent ops empty empty_consistent) as (m & Hrun & Hn & He & Hm).
  exists m. split; [done|]. split.
  - unfold RemoveNode. destruct (m_NodeIdToIndex m !! removed) as [i|] eqn:Hi.
    + pose proof (consistent_in_range _ _ _ _ _ Hn Hi) as Hlt.
      destruct (Nat.ltb_spec i (length (m_Nodes m))) as [_|?]; [|lia].
      eexists. split; [done|]. split.
      * intros k. apply (lookup_after_remove id _ _ removed i k Hn Hi).
      * simpl. rewrite length_delete; [lia|]. by apply lookup_lt_is_Some.
    + exists m. split; [done|]. split; [|lia].
      intros k. destruct (decide (k = removed)) as [->|_]; [|done].
      unfold GetNode. by rewrite Hi.
  - unfold RemoveElement. destruct (m_ElementIdToIndex m !! removed) as [i|] eqn:Hi.
    + pose proof (consistent_in_range _ _ _ _ _ He Hi) as Hlt.
      destruct (Nat.ltb_spec i (length (m_Elements m))) as [_|?]; [|lia].
      eexists. split; [done|]. split.
      * intros k. apply (lookup_after_remove element_id _ _ removed i k He Hi).
      * simpl. rewrite length_delete; [lia|]. by apply lookup_lt_is_Some.
    + exists m. split; [done|]. split; [|lia].
      intros k. destruct (decide (k = removed)) as [->|_]; [|done].
      unfold GetElement. by rewrite Hi.
Qed.

End StoreUpdates.

(** ** The element buffers built for rendering *)

Section GeometryBuffers.
Import Str Reader Spec.
Context `{L : CxxLib}.

(** The loop over the nodes of an element appends to [elementData], and
    [elementIndices] receives the numbers of the appended vertices. *)
Lemma collect_vertices_spec r t nodeIds elementData elementIndices :
  exists vertices numbers,
    collect_vertices r t nodeIds elementData elementIndices
    = ((elementData ++ vertices)%list, (elementIndices ++ numbers)%list)
    /\ Forall (fun i => (i < length elementData + length vertices)%nat) numbers
    /\ (Forall (fun nodeId => is_Some (findNode r nodeId)) nodeIds ->
        length numbers = length nodeIds).
Proof.
  revert elementData elementIndices.
  induction nodeIds as [|nodeId rest IH]; intros elementData elementIndices.
  { exists [], []. rewrite !app_nil_r. repeat split; constructor. }
  cbn [collect_vertices]. destruct (findNode r nodeId) as [node|] eqn:Hnode.
  - edestruct IH as (vertices & numbers & -> & Hbound & Hlen).
    eexists (_ :: vertices), (length elementData :: numbers).
    rewrite <- !app_assoc. split; [reflexivity|]. split.
    + constructor; [simpl; lia|]. eapply Forall_impl; [exact Hbound|].
      intros i. rewrite length_app. simpl. lia.
    + intros Hall. inversion Hall; subst. simpl. f_equal. by apply Hlen.
  - destruct (IH elementData elementIndices) as (vertices & numbers & -> & Hbound & Hlen).
    exists vertices, numbers. split; [done|]. split; [done|].
    intros Hall. inversion Hall as [|? ? Hsome _]; subst.
    rewrite Hnode in Hsome. by destruct Hsome.
Qed.

Lemma face_corners_bound t (n : nat) :
  (3 <= n)%nat ->
  (0 < getElementNodeCount t -> Z.of_nat n = getElementNodeCount t) ->
  Forall (fun corner => (corner < n)%nat) (face_corners t)
  /\ exists k, length (face_corners t) = (3 * k)%nat.
Proof.
  intros Hn Hcount. destruct t; simpl in Hcount; simpl; (split; [|]);
    try (repeat (apply List.Forall_cons; [lia|]); apply List.Forall_nil).
  - by exists 0%nat.
  - by exists 1%nat.
  - by exists 2%nat.
  - by exists 4%nat.
  - by exists 12%nat.
  - by exists 0%nat.
  - by exists 0%nat.
Qed.

Lemma picked_in_bounds (elementIndices : list nat) corners picked bound :
  Forall (fun i => (i < bound)%nat) elementIndices ->
  mapM (fun corner => elementIndices !! corner) corners = Some picked ->
  Forall (fun i => (i < bound)%nat) picked.
Proof.
  intros Hb Hp. apply mapM_Some_1 in Hp. rewrite Forall_forall in Hb.
  induction Hp as [|corner i corners picked Hi _ IH]; constructor; [|done].
  apply Hb. by eapply list_elem_of_lookup_2.
Qed.

Lemma add_element_geometry_in_bounds r element elementData indices :
  count_matches element ->
  Forall (fun nodeId => is_Some (findNode r nodeId)) (elem_nodeIds element) ->
  Forall (fun i => (i < length elementData)%nat) indices ->
  (exists k, length indices = (3 * k)%nat) ->
  exists elementData' indices',
    add_element_geometry r element (elementData, indices) = Some (elementData', indices')
    /\ Forall (fun i => (i < length elementData')%nat) indices'
    /\ exists k, length indices' = (3 * k)%nat.
Proof.
  intros Hcount Hrefs Hbound Htri. unfold add_element_geometry.
  destruct (Nat.ltb_spec (length (elem_nodeIds element)) 3) as [Hshort|Hlong].
  { by exists elementData, indices. }
  destruct (collect_vertices_spec r (elem_type element) (elem_nodeIds element) elementData [])
    as (vertices & numbers & -> & Hnumbers & Hlen).
  specialize (Hlen Hrefs). rewrite app_nil_l.
  assert (Forall (fun i => (i < length (elementData ++ vertices))%nat) indices) as Hbound'.
  { eapply Forall_impl; [exact Hbound|]. intros i. rewrite length_app. lia. }
  assert (Forall (fun i => (i < length (elementData ++ vertices))%nat) numbers) as Hnumbers'.
  { by rewrite length_app. }
  destruct (Nat.leb_spec 3 (length numbers)) as [_|?]; [|lia].
  destruct (face_corners_bound (elem_type element) (length numbers)) as (Hcorners & k & Hk).
  { lia. } { rewrite Hlen. exact Hcount. }
  destruct (mapM (fun corner => numbers !! corner) (face_corners (elem_type element)))
    as [picked|] eqn:Hpicked.
  - simpl. eexists _, _. split; [done|]. split.
    + apply Forall_app. split; [done|].
      apply (picked_in_bounds numbers _ _ _ Hnumbers' Hpicked).
    + destruct Htri as (k0 & Hk0). exists (k0 + k)%nat.
      rewrite length_app, Hk0, <- (length_mapM _ _ _ Hpicked), Hk. lia.
  - apply mapM_None_1, Exists_exists in Hpicked as (corner & Hin & Hnone).
    rewrite Forall_forall in Hcorners. specialize (Hcorners corner Hin).
    apply lookup_ge_None in Hnone. lia.
Qed.

Lemma element_geometry_from_in_bounds r elements elementData indices :
  Forall count_matches elements ->
  Forall (fun element => Forall (fun nodeId => is_Some (findNode r nodeId))
                           (elem_nodeIds element)) elements ->
  Forall (fun i => (i < length elementData)%nat) indices ->
  (exists k, length indices = (3 * k)%nat) ->
  exists elementData' indices',
    element_geometry_from r elements (elementData, indices) = Some (elementData', indices')
    /\ Forall (fun i => (i < length elementData')%nat) indices'
    /\ exists k, length indices' = (3 * k)%nat.
Proof.
  intros Hcounts. revert elementData indices.
  induction Hcounts as [|element elements Hcount _ IH];
    intros elementData indices Hrefs Hbound Htri.
  { by exists elementData, indices. }
  inversion Hrefs as [|? ? Href Hrefs']; subst. cbn [element_geometry_from].
  destruct (add_element_geometry_in_bounds r element elementData indices
              Hcount Href Hbound Htri) as (data1 & indices1 & -> & Hbound1 & Htri1).
  simpl. by apply IH.
Qed.

(** X18: the element buffers of the viewer are sound for a validated
    reader.  When [validateData] holds, [createGeometryBuffers] reads
    [elementIndices] inside its bounds for every element, every index it
    emits points at a vertex of [elementData], and the indices come in
    triples. *)
Theorem element_geometry_in_bounds (r : RadFileReader) :
  validateData r = true ->
  exists elementData indices,
    element_geometry r = Some (elementData, indices)
    /\ Forall (fun i => (i < length elementData)%nat) indices
    /\ exists k, length indices = (3 * k)%nat.
Proof.
  intros Hvalid. unfold element_geometry.
  destruct (negb (isValid_ r)).
  { exists [], []. repeat split; [constructor|by exists 0%nat]. }
  apply validateData_spec in Hvalid as (_ & _ & Hcounts & Hrefs).
  apply element_geometry_from_in_bounds.
  - by apply Forall_forall.
  - apply Forall_forall. intros element Hel. apply Forall_forall. intros nodeId Hid.
    apply findNode_is_Some. by eapply Hrefs.
  - constructor.
  - by exists 0%nat.
Qed.

End GeometryBuffers.

(** ** Section markers and the title *)

Section MarkersAndTitle.
Import Str Reader Spec.
Context `{L : CxxLib}.

(** X19: section markers are recognised whatever the case of their letters:
    a line, the line in upper case and the line in lower case select the
    same section. *)
Theorem determineSection_ignores_case (line : string) :
  determineSection (map_chars toupper line) = determineSection line
  /\ determineSection (map_chars tolower line) = determineSection line.
Proof.
  unfold determineSection. cbv zeta.
  rewrite (map_chars_compose toupper tolower toupper line toupper_tolower),
    (map_chars_compose toupper toupper toupper line toupper_toupper).
  split; reflexivity.
Qed.

Lemma parseContent_title currentState line r :
  is_skipped line = false ->
  title_start_ok (title_ r) ->
  title_start_ok (title_ (parseContent currentState line r).2).
Proof.
  intros Hskip Hok. apply orb_false_iff in Hskip as [Hempty Hcomment].
  destruct currentState; simpl; try done.
  - unfold parseHeader. repeat case_match; exact Hok.
  - unfold parseTitle. destruct (title_ r) as [|c rest] eqn:Ht; simpl.
    + unfold isEmpty in Hempty. unfold isComment in Hcomment.
      destruct (trim_shape line) as [Hnil|(c & rest & Hc & Htrim)].
      { by rewrite Hnil in Hempty. }
      rewrite Htrim in *. split; [done|].
      unfold is_comment_char. cbn [is_empty first_char_is orb] in Hcomment. exact Hcomment.
    + done.
  - unfold parseNode. repeat case_match; exact Hok.
  - unfold parseElement. repeat case_match; exact Hok.
  - unfold parseMaterial. repeat case_match; exact Hok.
  - unfold parseProperty. repeat case_match; exact Hok.
  - unfold parseLoadCase. repeat case_match; exact Hok.
  - unfold parseBoundaryCondition. repeat case_match; exact Hok.
Qed.

Lemma parseLoop_title lines currentState lineNumber r :
  title_start_ok (title_ r) ->
  title_start_ok (title_ (loop_reader (parseLoop lines currentState lineNumber r))).
Proof.
  revert currentState lineNumber r.
  induction lines as [|line lines IH]; intros currentState lineNumber r Hok;
    cbn [parseLoop]; [done|].
  destruct (isEmpty line || isComment line) eqn:Hskip; [by apply IH|].
  destruct (negb (is_unknown (determineSection line))); [by apply IH|].
  pose proof (parseContent_title currentState line r Hskip Hok) as Hstep.
  destruct (parseContent currentState line r) as [[] r']; [by apply IH|done].
Qed.

(** X20: the title that [loadFile] leaves never begins with a blank, a [#],
    a [C] or a [c], whatever the file holds: the reading loop takes a line
    that begins so for a comment before the title section sees it, and a
    title line is stored trimmed. *)
Theorem loaded_title_start
    (fs : string -> option string) (filename : string) (r : RadFileReader) :
  match title_ (loadFile fs filename r).2 with
  | EmptyString => True
  | String c _ =>
      is_blank c = false /\ c <> "#"%char /\ c <> "C"%char /\ c <> "c"%char
  end.
Proof.
  assert (title_start_ok (title_ (loadFile fs filename r).2)) as Hok.
  { unfold loadFile, parseFile. cbv zeta. rewrite clear_is_empty.
    destruct (fs filename) as [file|]; [|done].
    pose proof (parseLoop_title (getline "010" file) STATE_HEADER 0
                  (with_filename filename empty_reader) I) as Hloop.
    destruct (parseLoop (getline "010" file) STATE_HEADER 0
                (with_filename filename empty_reader)) as [ok s n p].
    simpl in *. destruct ok; simpl; [|done].
    by destruct (validateData (buildLookupTables p)). }
  destruct (title_ (loadFile fs filename r).2) as [|c rest]; [done|].
  destruct Hok as [Hb Hc]. split; [done|]. unfold is_comment_char in Hc.
  apply orb_false_iff in Hc as [[H1 H2]%orb_false_iff H3].
  apply Ascii.eqb_neq in H1, H2, H3. done.
Qed.

End MarkersAndTitle.

(** ** The basic reader: no parse errors, and the element lines of the writer *)

Section BasicReaderLines.
Import Str Reader Spec.
Context `{L : CxxLib}.

(** The loop of the basic reader touches the node and element collections
    and the title only, and it only appends to the collections. *)
Lemma load_loop_keeps terminated lines inNodes inElements r :
  lastError_ (BasicReader.load_loop terminated lines inNodes inElements r) = lastError_ r
  /\ nodes_ r `prefix_of`
       nodes_ (BasicReader.load_loop terminated lines inNodes inElements r)
  /\ elements_ r `prefix_of`
       elements_ (BasicReader.load_loop terminated lines inNodes inElements r).
Proof.
  remember (length lines) as n eqn:Hn.
  assert (length lines <= n)%nat as Hle by lia. clear Hn.
  revert lines inNodes inElements r Hle.
  induction n as [|n IH]; intros lines inNodes inElements r Hle.
  { destruct lines; [done|simpl in Hle; lia]. }
  destruct lines as [|line rest]; [done|]. simpl in Hle.
  cbn [BasicReader.load_loop].
  destruct (BasicReader.skipped line); [apply IH; lia|].
  destruct (contains "/NODE" line); [apply IH; lia|].
  destruct (contains "/SHELL" line || contains "/BRICK" line || contains "/TRIA" line);
    [apply IH; lia|].
  destruct (contains "/TITLE" line).
  { destruct rest as [|title rest']; [by destruct terminated|].
    simpl in Hle. destruct (IH rest' inNodes inElements (with_title title r)) as (? & ? & ?);
      [lia|done]. }
  match goal with
  | |- context [BasicReader.load_loop terminated rest inNodes inElements ?r'] =>
      destruct (IH rest inNodes inElements r') as (He & Hn & Hel); [lia|];
      rewrite He; clear He;
      assert (lastError_ r' = lastError_ r
              /\ nodes_ r `prefix_of` nodes_ r'
              /\ elements_ r `prefix_of` elements_ r') as (He' & Hn' & Hel')
  end.
  { destruct inNodes, inElements; repeat case_match; simpl;
      repeat split; try done; by apply prefix_app_r. }
  repeat split; [done|by etrans|by etrans].
Qed.

(** X21: the basic reader reports no parse error.  Whatever the lines of an
    opened file hold, its [loadFile] leaves the last error empty; it returns
    [true] exactly when the file was opened and at least one node line was
    read, and the validity flag is its result. *)
Theorem basic_loadFile_reports_no_parse_error
    (fs : string -> option string) (filename : string) (r : RadFileReader) :
  lastError_ (BasicReader.loadFile fs filename r).2
  = match fs filename with
    | Some _ => ""
    | None => "Cannot open file: " +:+ filename
    end
  /\ isValid_ (BasicReader.loadFile fs filename r).2 = (BasicReader.loadFile fs filename r).1
  /\ ((BasicReader.loadFile fs filename r).1 = true <->
      is_Some (fs filename) /\ nodes_ (BasicReader.loadFile fs filename r).2 <> []).
Proof.
  unfold BasicReader.loadFile. cbv zeta. destruct (fs filename) as [file|].
  - pose proof (load_loop_keeps (ends_with "010" file) (getline "010" file) false false
                  (BasicReader.clear r))
      as (He & _ & _).
    simpl. split; [by rewrite He|]. split; [done|].
    destruct (nodes_ (BasicReader.load_loop (ends_with "010" file) (getline "010" file)
                        false false
                        (BasicReader.clear r))); simpl.
    + split; [done|]. by intros [_ ?].
    + split; [|done]. intros _. split; [by eexists|done].
  - simpl. split; [done|]. split; [done|]. split; [done|]. intros [[? ?] _]. done.
Qed.

End BasicReaderLines.

(** ** Stream extraction on the fields of the writer *)

Section StreamExtraction.
Import Str Reader Spec.
Context `{L : CxxLib}.

Lemma length_append s t : String.length (s +:+ t) = (String.length s + String.length t)%nat.
Proof. induction s as [|c r IH]; [done|]. rewrite append_cons. simpl. by rewrite IH. Qed.

Lemma skip_space_spaces k s :
  skip_space (String.concat "" (repeat " " k) +:+ s) = skip_space s.
Proof. induction k as [|k IH]; [done|]. by rewrite spaces_S, append_cons. Qed.

(** The text of an integer is the text of a number with at least one
    digit, with a minus sign when the integer is negative. *)
Lemma to_string_shape z :
  exists d, d <> Decimal.Nil
    /\ ((to_string z = NilEmpty.string_of_uint d /\ Z.of_N (Pos.of_uint d) = z)
        \/ (to_string z = String "-" (NilEmpty.string_of_uint d)
            /\ - Z.of_N (Pos.of_uint d) = z)).
Proof.
  destruct z as [|p|p].
  - exists (Decimal.D0 Decimal.Nil). split; [done|]. by left.
  - exists (Pos.to_uint p). split; [apply DecimalPos.Unsigned.to_uint_nonnil|]. left.
    rewrite DecimalPos.Unsigned.of_to. split; [|done].
    unfold to_string. simpl. pose proof (DecimalPos.Unsigned.to_uint_nonnil p).
    by destruct (Pos.to_uint p).
  - exists (Pos.to_uint p). split; [apply DecimalPos.Unsigned.to_uint_nonnil|]. right.
    rewrite DecimalPos.Unsigned.of_to. split; [|done].
    unfold to_string. simpl. pose proof (DecimalPos.Unsigned.to_uint_nonnil p).
    by destruct (Pos.to_uint p).
Qed.

(** [stream >> int] on a right-aligned field followed by text that does not
    begin with a digit. *)
Lemma extract_int_field w z rest :
  INT_MIN <= z <= INT_MAX ->
  leading_digits rest = [] ->
  extract_int (setw w (to_string z) +:+ rest) = Some (z, rest).
Proof.
  intros [Hlo Hhi] Hrest. apply Z.leb_le in Hlo, Hhi.
  unfold extract_int, setw. rewrite stoi_integer_prefix, append_assoc.
  replace (integer_prefix (String.concat "" (repeat " " (w - String.length (to_string z)))
                           +:+ to_string z +:+ rest))
    with (integer_prefix (to_string z +:+ rest))
    by (unfold integer_prefix; by rewrite skip_space_spaces).
  rewrite skip_space_spaces.
  destruct (to_string_shape z) as (d & Hd & [[-> Hz]|[-> Hz]]);
    destruct (integer_prefix_digits_then d rest Hd Hrest) as [[Hpos Hpos'] [Hneg Hneg']].
  - rewrite Hpos, Hpos', Hz. simpl. by rewrite Hlo, Hhi.
  - change (String "-" (NilEmpty.string_of_uint d) +:+ rest)
      with (String "-" (NilEmpty.string_of_uint d +:+ rest)).
    rewrite Hneg, Hneg', Hz. simpl. by rewrite Hlo, Hhi.
Qed.

(** [while (iss >> val)] on a line of right-aligned fields, each but the
    first narrower than the field width. *)
Lemma read_ints_fields fuel w z zs :
  (length zs < fuel)%nat ->
  Forall (fun z => INT_MIN <= z <= INT_MAX) (z :: zs) ->
  Forall (fun z => (String.length (to_string z) < w)%nat) zs ->
  BasicReader.read_ints fuel
    (setw w (to_string z) +:+ String.concat "" ((fun z => setw w (to_string z)) <$> zs))
  = z :: zs.
Proof.
  revert z zs. induction fuel as [|fuel IH]; intros z zs Hfuel Hrange Hnarrow; [lia|].
  inversion Hrange as [|? ? Hz Hzs]; subst. cbn [BasicReader.read_ints].
  destruct zs as [|z' zs].
  - cbn [fmap list_fmap String.concat]. rewrite (extract_int_field w z "" Hz eq_refl).
    f_equal. by destruct fuel.
  - inversion Hnarrow as [|? ? Hw Hnarrow']; subst.
    rewrite fmap_cons, concat_cons.
    destruct (setw_narrow w (to_string z') Hw) as (padded & Hp).
    rewrite (extract_int_field w z _ Hz); [|by rewrite Hp].
    f_equal. apply IH; [simpl in Hfuel; lia|done..].
Qed.

Lemma fields_length w (zs : list Z) :
  (length zs <= String.length
                  (String.concat "" ((fun z => setw w (to_string z)) <$> zs)))%nat.
Proof.
  induction zs as [|z zs IH]; [done|].
  rewrite fmap_cons, concat_cons, length_append. unfold setw at 1. rewrite length_append.
  destruct (to_string_no_blank z) as [Hne _].
  destruct (to_string z); [done|]. simpl in *. lia.
Qed.

(** X22: the basic reader reads the element lines of the writer as the
    validating reader does.  When the identifiers of an element lie in the
    range of [int], all but the first print in fewer than ten characters and
    the element has a node, the line [writeElements] writes for it is read by
    the basic reader as an element with the same identifier, material,
    property and nodes.  Its type is decided by the number of nodes, and is
    the type the validating reader derives unless that number is five or
    six, for which the basic reader has no type. *)
Theorem basic_reader_reads_written_element (element : Element) :
  Forall (fun z => INT_MIN <= z <= INT_MAX)
    (elem_id element :: elem_materialId element :: elem_propertyId element
     :: elem_nodeIds element) ->
  Forall (fun z => (String.length (to_string z) < 10)%nat)
    (elem_materialId element :: elem_propertyId element :: elem_nodeIds element) ->
  (1 <= length (elem_nodeIds element))%nat ->
  exists line,
    getline "010" (write_element element) = [line]
    /\ BasicReader.read_element line
       = Some {| elem_id := elem_id element;
                 elem_type :=
                   match length (elem_nodeIds element) with
                   | 3 => TRIA3
                   | 4 => QUAD4
                   | 8 => HEXA8
                   | _ => UNKNOWN
                   end%nat;
                 elem_materialId := elem_materialId element;
                 elem_propertyId := elem_propertyId element;
                 elem_nodeIds := elem_nodeIds element |}
    /\ (length (elem_nodeIds element) <> 5%nat ->
        length (elem_nodeIds element) <> 6%nat ->
        match length (elem_nodeIds element) with
        | 3 => TRIA3
        | 4 => QUAD4
        | 8 => HEXA8
        | _ => UNKNOWN
        end%nat
        = type_of_node_count (length (elem_nodeIds element))).
Proof.
  intros Hrange Hnarrow Hcount. eexists. split; [|split].
  - rewrite write_element_line. apply getline_piece_delim.
    rewrite has_any_of_app, <- list_fmap_compose. apply orb_false_iff. split.
    + apply setw_no_newline, to_string_no_blank.
    + apply fields_no_newline.
  - unfold BasicReader.read_element. cbv zeta.
    rewrite <- list_fmap_compose. unfold compose.
    assert (length (elem_materialId element :: elem_propertyId element
                    :: elem_nodeIds element)
            < S (String.length
                   (setw 10 (to_string (elem_id element))
                    +:+ String.concat ""
                          ((fun z => setw 10 (to_string z))
                           <$> elem_materialId element :: elem_propertyId element
                               :: elem_nodeIds element))))%nat as Hfuel.
    { pose proof (fields_length 10 (elem_materialId element :: elem_propertyId element
                                     :: elem_nodeIds element)) as Hlen.
      rewrite length_append. lia. }
    rewrite (read_ints_fields _ 10 _ _ Hfuel Hrange Hnarrow).
    cbn [length nth drop]. rewrite drop_0.
    destruct (Nat.leb_spec 4 (S (S (S (length (elem_nodeIds element)))))) as [_|?]; [|lia].
    reflexivity.
  - intros H5 H6.
    destruct (elem_nodeIds element) as [|n1 [|n2 [|n3 [|n4 [|n5 [|n6 [|n7 ns]]]]]]];
      simpl in *; try done.
Qed.

End StreamExtraction.

(** ** The render mesh *)

Section MeshIndices.
Import Model Spec.
Context `{L : CxxLib}.
Variable CalculateNormal : Reader.vec3 -> Reader.vec3 -> Reader.vec3 -> Reader.vec3.

Lemma element_positions_defined m nodeIds :
  consistent id (m_Nodes m) (m_NodeIdToIndex m) ->
  is_Some (Mesh.element_positions m nodeIds).
Proof.
  intros Hc. induction nodeIds as [|nodeId rest IH]; simpl; [by eexists|].
  pose proof (consistent_resolves id _ _ nodeId Hc) as Hres.
  fold (GetNode nodeId m) in Hres. destruct (GetNode nodeId m); [done| |done].
  destruct IH as [positions ->]. by eexists.
Qed.

Lemma wire_indices_bound baseIndex count :
  Forall (fun i => (i < baseIndex + count)%nat) (Mesh.wire_indices baseIndex count).
Proof.
  unfold Mesh.wire_indices. apply Forall_forall. intros i Hi.
  apply list_elem_of_In, in_flat_map in Hi as (j & Hj & Hi).
  apply in_seq in Hj. simpl in Hi. destruct Hi as [<-|[<-|[]]]; [lia|].
  pose proof (Nat.mod_upper_bound (j + 1) count). lia.
Qed.

(** What one element adds: the indices stay in bounds, those of the
    triangles provided that a [SHELL4] element does not resolve to exactly
    three positions. *)
Lemma add_element_bounds m element mesh positions :
  Mesh.element_positions m (nodeIds element) = Some positions ->
  Forall (fun i => (i < length (Mesh.m_Vertices mesh))%nat) (Mesh.m_WireIndices mesh) ->
  exists mesh',
    Mesh.add_element CalculateNormal m element mesh = Some mesh'
    /\ Mesh.m_NodePositions mesh' = Mesh.m_NodePositions mesh
    /\ Forall (fun i => (i < length (Mesh.m_Vertices mesh'))%nat) (Mesh.m_WireIndices mesh')
    /\ ((element_type element = SHELL4 -> length positions <> 3%nat) ->
        Forall (fun i => (i < length (Mesh.m_Vertices mesh))%nat) (Mesh.m_Indices mesh) ->
        Forall (fun i => (i < length (Mesh.m_Vertices mesh'))%nat) (Mesh.m_Indices mesh')).
Proof.
  intros Hpos Hwire. unfold Mesh.add_element. rewrite Hpos. cbn [mbind option_bind].
  destruct positions as [|p0 [|p1 [|p2 more]]]; try (by exists mesh).
  eexists. split; [reflexivity|].
  cbn [Mesh.m_Vertices Mesh.m_Indices Mesh.m_WireIndices Mesh.m_NodePositions].
  rewrite length_app, length_fmap. cbn [length].
  split; [done|]. split.
  - apply Forall_app. split.
    + eapply Forall_impl; [exact Hwire|]. intros i. simpl. lia.
    + apply wire_indices_bound.
  - intros Hquad Hsolid. apply Forall_app. split.
    + eapply Forall_impl; [exact Hsolid|]. intros i. simpl. lia.
    + destruct (element_type element) eqn:Ht; simpl;
        repeat (apply List.Forall_cons; [lia|]); try apply List.Forall_nil.
      destruct more; [by specialize (Hquad eq_refl)|].
      repeat (apply List.Forall_cons; [simpl; lia|]). apply List.Forall_nil.
Qed.

Lemma add_elements_bounds m elements mesh :
  consistent id (m_Nodes m) (m_NodeIdToIndex m) ->
  Forall (fun i => (i < length (Mesh.m_Vertices mesh))%nat) (Mesh.m_WireIndices mesh) ->
  exists mesh',
    Mesh.add_elements CalculateNormal m elements mesh = Some mesh'
    /\ Mesh.m_NodePositions mesh' = Mesh.m_NodePositions mesh
    /\ Forall (fun i => (i < length (Mesh.m_Vertices mesh'))%nat) (Mesh.m_WireIndices mesh')
    /\ ((forall element positions,
           element ∈ elements -> element_type element = SHELL4 ->
           Mesh.element_positions m (nodeIds element) = Some positions ->
           length positions <> 3%nat) ->
        Forall (fun i => (i < length (Mesh.m_Vertices mesh))%nat) (Mesh.m_Indices mesh) ->
        Forall (fun i => (i < length (Mesh.m_Vertices mesh'))%nat) (Mesh.m_Indices mesh')).
Proof.
  intros Hc. revert mesh. induction elements as [|element rest IH]; intros mesh Hwire.
  { exists mesh. by repeat split. }
  destruct (element_positions_defined m (nodeIds element) Hc) as [positions Hpos].
  destruct (add_element_bounds m element mesh positions Hpos Hwire)
    as (mesh1 & Hadd & Hnodes1 & Hwire1 & Hsolid1).
  destruct (IH mesh1 Hwire1) as (mesh' & Hrest & Hnodes' & Hwire' & Hsolid').
  exists mesh'. cbn [Mesh.add_elements]. rewrite Hadd. simpl.
  split; [done|]. split; [congruence|]. split; [done|].
  intros Hquad Hsolid. apply Hsolid'.
  - intros e ps He. apply Hquad. by apply elem_of_cons; right.
  - apply Hsolid1; [|done]. intros Ht. eapply Hquad; [by apply elem_of_cons; left|done..].
Qed.

(** X23: the indices of the render mesh.  For a model reached by any run of
    the store operations from the empty model, [BuildFromModel] never reads
    through a pointer past the end of the node vector; it keeps the position
    of every node, every wireframe index it emits points at a vertex of the
    mesh, and so does every triangle index provided that no [SHELL4] element
    resolves to exactly three node positions. *)
Theorem mesh_indices_in_bounds (ops : list Operation) :
  exists m mesh,
    run ops empty = Some m
    /\ Mesh.BuildFromModel CalculateNormal m = Some mesh
    /\ Mesh.m_NodePositions mesh = position <$> m_Nodes m
    /\ Forall (fun i => (i < length (Mesh.m_Vertices mesh))%nat) (Mesh.m_WireIndices mesh)
    /\ ((forall element positions,
           element ∈ m_Elements m -> element_type element = SHELL4 ->
           Mesh.element_positions m (nodeIds element) = Some positions ->
           length positions <> 3%nat) ->
        Forall (fun i => (i < length (Mesh.m_Vertices mesh))%nat) (Mesh.m_Indices mesh)).
Proof.
  destruct (run_consistent ops empty empty_consistent) as (m & Hrun & Hn & _).
  destruct (add_elements_bounds m (m_Elements m)
              {| Mesh.m_Vertices := []; Mesh.m_Indices := []; Mesh.m_WireIndices := [];
                 Mesh.m_NodePositions := position <$> m_Nodes m |} Hn)
    as (mesh & Hbuild & Hnodes & Hwire & Hsolid); [constructor|].
  exists m, mesh. split; [done|]. split; [exact Hbuild|]. split; [done|].
  split; [done|]. intros Hquad. apply Hsolid; [done|constructor].
Qed.

End MeshIndices.

(** ** The element lines of the basic writer *)

Section BasicWriterLines.
Import Str Reader Spec.
Context `{L : CxxLib}.

Lemma concat_space_cons t (ts : list string) :
  String.concat " " (t :: ts) = t +:+ String.concat "" ((fun x => " " +:+ x) <$> ts).
Proof.
  revert t. induction ts as [|t' ts IH]; intros t.
  - simpl. by rewrite append_nil_r.
  - change (String.concat " " (t :: t' :: ts))
      with (t +:+ " " +:+ String.concat " " (t' :: ts)).
    by rewrite IH, fmap_cons, concat_cons, append_assoc.
Qed.

Lemma save_element_line_fields element :
  BasicReader.save_element_line element
  = String.concat " "
      (to_string <$> elem_id element :: elem_materialId element :: elem_propertyId element
                     :: elem_nodeIds element)
    +:+ String "010" "".
Proof.
  unfold BasicReader.save_element_line, newline.
  rewrite !fmap_cons, !concat_space_cons, !fmap_cons, !concat_cons, <- list_fmap_compose,
    !append_assoc.
  reflexivity.
Qed.

Lemma read_ints_space fuel s :
  BasicReader.read_ints fuel (String " " s) = BasicReader.read_ints fuel s.
Proof. by destruct fuel. Qed.

Lemma extract_int_text z rest :
  INT_MIN <= z <= INT_MAX ->
  leading_digits rest = [] ->
  extract_int (to_string z +:+ rest) = Some (z, rest).
Proof. intros Hz Hrest. exact (extract_int_field 0 z rest Hz Hrest). Qed.

(** [while (iss >> val)] on integers separated by single blanks. *)
Lemma read_ints_separated fuel z zs :
  (length zs < fuel)%nat ->
  Forall (fun z => INT_MIN <= z <= INT_MAX) (z :: zs) ->
  BasicReader.read_ints fuel
    (to_string z +:+ String.concat "" ((fun z => " " +:+ to_string z) <$> zs))
  = z :: zs.
Proof.
  revert z zs. induction fuel as [|fuel IH]; intros z zs Hfuel Hrange; [lia|].
  inversion Hrange as [|? ? Hz Hzs]; subst. cbn [BasicReader.read_ints].
  destruct zs as [|z' zs].
  - cbn [fmap list_fmap String.concat].
    rewrite (extract_int_text z "" Hz eq_refl). f_equal. by destruct fuel.
  - rewrite fmap_cons, concat_cons, append_assoc.
    change (" " +:+ ?s) with (String " " s).
    rewrite (extract_int_text z (String " " _) Hz eq_refl).
    f_equal. rewrite read_ints_space.
    apply IH; [simpl in Hfuel; lia|done].
Qed.

Lemma separated_length (zs : list Z) :
  (length zs
   <= String.length (String.concat "" ((fun z => " " +:+ to_string z) <$> zs)))%nat.
Proof.
  induction zs as [|z zs IH]; [done|].
  rewrite fmap_cons, concat_cons, !length_append. simpl. lia.
Qed.

Lemma to_string_no_newline z : has_any_of (fun c => Ascii.eqb c "010") (to_string z) = false.
Proof.
  apply (has_any_of_weaken _ is_blank); [|apply to_string_no_blank].
  intros c Hc. apply Ascii.eqb_eq in Hc. by subst.
Qed.

Lemma separated_no_newline (zs : list Z) :
  has_any_of (fun c => Ascii.eqb c "010")
    (String.concat "" ((fun x => " " +:+ x) <$> (to_string <$> zs))) = false.
Proof.
  induction zs as [|z zs IH]; [done|].
  rewrite !fmap_cons, concat_cons, !has_any_of_app, IH, orb_false_r, to_string_no_newline.
  done.
Qed.

(** What [parseElement] stores for a line whose tokens are the texts of the
    fields of an element with at least two nodes. *)
Lemma parseElement_of_fields line r id materialId propertyId nodeIds :
  tokenizeLine line = to_string <$> id :: materialId :: propertyId :: nodeIds ->
  Forall (fun z => INT_MIN <= z <= INT_MAX) (id :: materialId :: propertyId :: nodeIds) ->
  (2 <= length nodeIds)%nat ->
  parseElement line r
  = (true,
     with_elements
       (elements_ r
        ++ [{| elem_id := id; elem_type := type_of_node_count (length nodeIds);
               elem_materialId := materialId; elem_propertyId := propertyId;
               elem_nodeIds := nodeIds |}]) r).
Proof.
  intros Htokens Hrange Hcount. unfold parseElement. rewrite Htokens.
  inversion Hrange as [|? ? Hid Hrange1]; subst.
  inversion Hrange1 as [|? ? Hmat Hrange2]; subst.
  inversion Hrange2 as [|? ? Hprop Hnodes]; subst.
  rewrite !fmap_cons. cbn [length token nth drop].
  rewrite length_fmap. cbn [Nat.ltb Nat.leb].
  rewrite (stoi_to_string_in_range _ Hid), (stoi_to_string_in_range _ Hmat),
    (stoi_to_string_in_range _ Hprop). cbn [mbind option_bind].
  replace (S (S (S (length nodeIds))) - 3)%nat with (length nodeIds) by lia.
  rewrite drop_0, (mapM_stoi_to_string _ Hnodes).
  destruct nodeIds as [|n1 [|n2 nodes]]; simpl in Hcount; [lia..|].
  done.
Qed.

(** X24: both readers read the element lines of the basic writer.  The
    basic [saveFile] writes the identifier, the material, the property and
    the nodes of an element on one line, separated by single blanks.  When
    they lie in the range of [int], the tokens of that line are their texts,
    the basic reader reads the line back as the element when it has a node,
    and the validating reader does when it has at least two; the type is
    then the one each reader derives from the number of nodes. *)
Theorem basic_saved_element_line_is_read (element : Element) (r : RadFileReader) :
  Forall (fun z => INT_MIN <= z <= INT_MAX)
    (elem_id element :: elem_materialId element :: elem_propertyId element
     :: elem_nodeIds element) ->
  exists line,
    getline "010" (BasicReader.save_element_line element) = [line]
    /\ tokenizeLine line
       = to_string <$> elem_id element :: elem_materialId element
                       :: elem_propertyId element :: elem_nodeIds element
    /\ ((1 <= length (elem_nodeIds element))%nat ->
        BasicReader.read_element line
        = Some {| elem_id := elem_id element;
                  elem_type :=
                    match length (elem_nodeIds element) with
                    | 3 => TRIA3
                    | 4 => QUAD4
                    | 8 => HEXA8
                    | _ => UNKNOWN
                    end%nat;
                  elem_materialId := elem_materialId element;
                  elem_propertyId := elem_propertyId element;
                  elem_nodeIds := elem_nodeIds element |})
    /\ ((2 <= length (elem_nodeIds element))%nat ->
        parseElement line r
        = (true,
           with_elements
             (elements_ r
              ++ [{| elem_id := elem_id element;
                     elem_type := type_of_node_count (length (elem_nodeIds element));
                     elem_materialId := elem_materialId element;
                     elem_propertyId := elem_propertyId element;
                     elem_nodeIds := elem_nodeIds element |}]) r)).
Proof.
  intros Hrange.
  assert (tokenizeLine
            (String.concat " "
               (to_string <$> elem_id element :: elem_materialId element
                              :: elem_propertyId element :: elem_nodeIds element))
          = to_string <$> elem_id element :: elem_materialId element
                          :: elem_propertyId element :: elem_nodeIds element) as Htokens.
  { apply tokenizeLine_concat, Forall_fmap, Forall_forall.
    intros z _. apply to_string_is_token. }
  eexists. split; [|split; [exact Htokens|split]].
  - rewrite save_element_line_fields. apply getline_piece_delim.
    rewrite fmap_cons, concat_space_cons, has_any_of_app. apply orb_false_iff. split.
    + apply to_string_no_newline.
    + apply separated_no_newline.
  - intros Hcount. unfold BasicReader.read_element. cbv zeta.
    rewrite fmap_cons, concat_space_cons, <- list_fmap_compose. unfold compose.
    assert (length (elem_materialId element :: elem_propertyId element
                    :: elem_nodeIds element)
            < S (String.length
                   (to_string (elem_id element)
                    +:+ String.concat ""
                          ((fun x => " " +:+ to_string x)
                           <$> elem_materialId element :: elem_propertyId element
                               :: elem_nodeIds element))))%nat as Hfuel.
    { pose proof (separated_length (elem_materialId element :: elem_propertyId element
                                     :: elem_nodeIds element)) as Hlen.
      rewrite length_append. lia. }
    rewrite (read_ints_separated _ _ _ Hfuel Hrange).
    cbn [length nth drop]. rewrite drop_0.
    destruct (Nat.leb_spec 4 (S (S (S (length (elem_nodeIds element)))))) as [_|?]; [|lia].
    reflexivity.
  - intros Hcount. by apply parseElement_of_fields.
Qed.

End BasicWriterLines.

(** ** The files of the basic writer *)

Section BasicWriter.
Import Str Reader Spec.
Context `{L : CxxLib}.
Variable float_text : float -> string.

Ltac unfold_texts := unfold slash_free, ends_with_newline in *.

(** *** Lines without a slash *)

Lemma contains_slash_absent name hay :
  slash_free hay -> contains (String "/" name) hay = false.
Proof.
  unfold_texts.
  induction hay as [|c r IH]; [done|]. cbn [has_any_of contains String.prefix].
  intros [Hc Hr]%orb_false_iff. rewrite (IH Hr), orb_false_r.
  destruct (ascii_dec "/" c) as [<-|_]; [|done].
  by rewrite Ascii.eqb_refl in Hc.
Qed.

Lemma toupper_slash c : Ascii.eqb (toupper c) "/" = Ascii.eqb c "/".
Proof. destruct c as [[] [] [] [] [] [] [] []]; reflexivity. Qed.

Lemma map_toupper_slash_free s : slash_free s -> slash_free (map_chars toupper s).
Proof.
  unfold_texts.
  induction s as [|c r IH]; [done|]. simpl.
  intros [Hc Hr]%orb_false_iff. by rewrite toupper_slash, Hc, (IH Hr).
Qed.

(** Every section marker starts with a slash. *)
Lemma determineSection_no_slash line : slash_free line -> determineSection line = STATE_UNKNOWN.
Proof.
  intros H. apply map_toupper_slash_free in H. unfold determineSection. cbv zeta.
  by rewrite !(contains_slash_absent _ _ H).
Qed.

Lemma getline_keeps_absent (set : ascii -> bool) d s :
  has_any_of set s = false -> Forall (fun t => has_any_of set t = false) (getline d s).
Proof.
  induction s as [|c r IH]; simpl; [constructor|].
  intros [Hc Hr]%orb_false_iff. specialize (IH Hr).
  destruct (Ascii.eqb c d); [by constructor|].
  destruct (getline d r) as [|t ts]; constructor; simpl; rewrite ?Hc; try done.
  - by inversion IH.
  - by inversion IH.
Qed.

(** Lines without a slash leave the section as it is. *)
Lemma parseLoop_slash_free_state lines currentState lineNumber r :
  Forall slash_free lines ->
  loop_state (parseLoop lines currentState lineNumber r) = currentState.
Proof.
  intros Hlines. revert lineNumber r.
  induction Hlines as [|line lines Hline _ IH]; intros lineNumber r; cbn [parseLoop]; [done|].
  destruct (isEmpty line || isComment line); [apply IH|].
  rewrite (determineSection_no_slash _ Hline). cbn [is_unknown negb].
  destruct (parseContent currentState line r) as [[] r']; [apply IH|done].
Qed.

Lemma string_of_uint_slash_free d : slash_free (NilEmpty.string_of_uint d).
Proof.
  unfold_texts. induction d; simpl; done. Qed.

Lemma to_string_slash_free z : slash_free (to_string z).
Proof.
  unfold_texts.
  destruct z as [|p|p]; [done|..]; unfold to_string; simpl;
    pose proof (string_of_uint_slash_free (Pos.to_uint p)) as Hb;
    destruct (Pos.to_uint p); done.
Qed.

Lemma save_element_line_slash_free element :
  slash_free (BasicReader.save_element_line element).
Proof.
  unfold_texts.
  unfold BasicReader.save_element_line.
  rewrite !has_any_of_app, !to_string_slash_free. simpl.
  rewrite orb_false_r. induction (elem_nodeIds element) as [|nodeId rest IH]; [done|].
  rewrite fmap_cons, concat_cons, !has_any_of_app, to_string_slash_free, IH. done.
Qed.

Lemma element_lines_slash_free (elements : list Element) :
  slash_free (String.concat "" (BasicReader.save_element_line <$> elements)).
Proof.
  unfold_texts. induction elements as [|e es IH]; [done|].
  rewrite fmap_cons, concat_cons, has_any_of_app, save_element_line_slash_free.
  exact IH.
Qed.

(** *** Texts made of whole lines *)

Lemma getline_app_lines s t :
  ends_with_newline s ->
  getline "010" (s +:+ t) = (getline "010" s ++ getline "010" t)%list.
Proof.
  unfold_texts.
  intros (s0 & ->). rewrite append_assoc.
  change (String "010" "" +:+ t) with (String "010" t).
  by rewrite getline_app_delim.
Qed.

Lemma ends_with_newline_app s t :
  ends_with_newline t -> ends_with_newline (s +:+ t).
Proof.
  unfold_texts. intros (t0 & ->). exists (s +:+ t0). by rewrite append_assoc. Qed.

Lemma concat_ends_with_newline (texts : list string) :
  texts <> [] ->
  Forall ends_with_newline texts ->
  ends_with_newline (String.concat "" texts).
Proof.
  unfold_texts.
  intros Hne Hall. induction Hall as [|t ts Ht Hts IH]; [done|].
  rewrite concat_cons. destruct ts as [|t' ts].
  - simpl. by rewrite append_nil_r.
  - apply ends_with_newline_app, IH. done.
Qed.

(** What [saveFile] writes when the reader holds an element: lines that end
    with the header of the element section, lines without a slash, and the
    line [/END]. *)
Lemma saveFile_lines r text :
  BasicReader.saveFile float_text r = Some text ->
  elements_ r <> [] ->
  exists pre mid,
    getline "010" text = (pre ++ "/SHELL" :: mid ++ ["/END"])%list
    /\ Forall slash_free mid.
Proof.
  unfold BasicReader.saveFile. destruct (negb (isValid_ r)); [done|].
  intros [= <-] Hne.
  set (head_part := "#RADIOSS STARTER" +:+ newline +:+ "/BEGIN" +:+ newline).
  set (title_part := if is_empty (title_ r) then ""
                     else "/TITLE" +:+ newline +:+ title_ r +:+ newline).
  set (node_part := match nodes_ r with
                    | [] => ""
                    | _ => "/NODE" +:+ newline
                           +:+ String.concat "" (BasicReader.save_node_line float_text
                                                 <$> nodes_ r)
                    end).
  set (element_lines := String.concat "" (BasicReader.save_element_line <$> elements_ r)).
  assert (ends_with_newline (head_part +:+ title_part +:+ node_part)) as Hpre.
  { assert (ends_with_newline head_part) as Hhead.
    { exists ("#RADIOSS STARTER" +:+ newline +:+ "/BEGIN"). reflexivity. }
    assert (title_part = "" \/ ends_with_newline title_part) as [Ht|Ht].
    { unfold title_part. destruct (is_empty (title_ r)); [by left|right].
      exists ("/TITLE" +:+ newline +:+ title_ r).
      unfold newline. by rewrite !append_assoc. }
    all: assert (node_part = "" \/ ends_with_newline node_part) as [Hn|Hn].
    all: try (unfold node_part; destruct (nodes_ r) as [|node nodes] eqn:Hnodes;
              [by left|right];
              do 2 apply ends_with_newline_app;
              apply concat_ends_with_newline; [done|];
              apply Forall_fmap, Forall_forall; intros n _;
              eexists; unfold BasicReader.save_node_line, newline;
              rewrite <- !append_assoc; reflexivity).
    - rewrite Ht, Hn. change ("" +:+ "") with "". by rewrite append_nil_r.
    - rewrite Ht. change ("" +:+ node_part) with node_part. by apply ends_with_newline_app.
    - rewrite Hn, append_nil_r. by apply ends_with_newline_app.
    - by do 2 apply ends_with_newline_app. }
  assert (ends_with_newline element_lines) as Hel.
  { apply concat_ends_with_newline.
    - by destruct (elements_ r).
    - apply Forall_fmap, Forall_forall. intros e _. eexists.
      unfold BasicReader.save_element_line, newline.
      rewrite <- !append_assoc. reflexivity. }
  assert (slash_free element_lines) as Hfree.
  { apply element_lines_slash_free. }
  exists (getline "010" (head_part +:+ title_part +:+ node_part)), (getline "010" element_lines).
  split; [|by apply getline_keeps_absent].
  destruct (elements_ r) as [|e es] eqn:He; [done|]. fold element_lines.
  match goal with
  | |- getline _ ?t = _ =>
      replace t
        with ((head_part +:+ title_part +:+ node_part)
              +:+ ("/SHELL" +:+ newline) +:+ element_lines +:+ ("/END" +:+ newline))
        by (unfold head_part; by rewrite !append_assoc)
  end.
  rewrite (getline_app_lines _ _ Hpre). f_equal.
  rewrite (getline_app_lines ("/SHELL" +:+ newline)); [|by exists "/SHELL"].
  rewrite (getline_app_lines _ _ Hel). reflexivity.
Qed.

(** X25: the validating reader rejects what the basic reader saves.  Every
    file that the [saveFile] of [radfilereader.cpp] writes for a reader with
    at least one element ends with the line [/END] after the element section,
    and the [loadFile] of [io/RadFileReader.cpp] returns [false] on it,
    whatever the title, the nodes and the formatting of the coordinates
    are. *)
Theorem basic_saved_file_is_rejected
    (r previous : RadFileReader) (text : string)
    (fs : string -> option string) (filename : string) :
  BasicReader.saveFile float_text r = Some text ->
  elements_ r <> [] ->
  fs filename = Some text ->
  last (getline "010" text) = Some "/END"
  /\ (loadFile fs filename previous).1 = false.
Proof.
  intros Hsave Hne Hfs.
  destruct (saveFile_lines r text Hsave Hne) as (pre & mid & Hlines & Hmid).
  split.
  { rewrite Hlines, app_comm_cons, app_assoc. apply last_snoc. }
  destruct (loadFile_opened fs filename text previous Hfs) as (-> & _).
  apply andb_false_iff. left. unfold parseFile. cbn [fst].
  rewrite Hlines, parseLoop_app. cbv zeta.
  destruct (loop_ok (parseLoop pre STATE_HEADER 0 _)) eqn:Hpre; [|exact Hpre].
  cbn [parseLoop]. rewrite (slash_line_not_skipped "/SHELL" eq_refl).
  change (determineSection "/SHELL") with STATE_ELEMENTS. cbn [is_unknown negb].
  rewrite parseLoop_app. cbv zeta.
  destruct (loop_ok (parseLoop mid STATE_ELEMENTS _ _)) eqn:Hmidok; [|exact Hmidok].
  rewrite (parseLoop_slash_free_state mid _ _ _ Hmid).
  rewrite parseLoop_rejected; [done|by apply slash_line_not_skipped|reflexivity|].
  by apply parseContent_slash_rejected.
Qed.

End BasicWriter.

(** ** The further theorems on concrete inputs *)

Section ConcreteInputs.
Import Str Reader Sample Spec.

Lemma loadFile_fails_only_for_lines_duplicates_or_references_witness :
  one_file "tri.rad" triangle_deck "tri.rad" = Some triangle_deck
  /\ (let parsed := parseFile triangle_deck (with_filename "tri.rad" (clear empty_reader)) in
      Forall count_matches (elements_ parsed.2)
      /\ ((loadFile (one_file "tri.rad" triangle_deck) "tri.rad" empty_reader).1 = true <->
          parsed.1 = true
          /\ NoDup (node_id <$> nodes_ parsed.2)
          /\ NoDup (elem_id <$> elements_ parsed.2)
          /\ (forall element nodeId,
                element ∈ elements_ parsed.2 -> nodeId ∈ elem_nodeIds element ->
                exists node, node ∈ nodes_ parsed.2 /\ node_id node = nodeId))).
Proof.
  split; [reflexivity|].
  apply (loadFile_fails_only_for_lines_duplicates_or_references
           (one_file "tri.rad" triangle_deck) "tri.rad" triangle_deck empty_reader).
  reflexivity.
Defined.

Lemma written_element_line_reads_back_witness :
  INT_MIN <= elem_id sample_quad <= INT_MAX
  /\ (2 <= length (elem_nodeIds sample_quad))%nat
  /\ exists line,
       getline "010" (write_element sample_quad) = [line]
       /\ parseElement line empty_reader
          = (true,
             with_elements
               (elements_ empty_reader
                ++ [{| elem_id := elem_id sample_quad;
                       elem_type := type_of_node_count (length (elem_nodeIds sample_quad));
                       elem_materialId := elem_materialId sample_quad;
                       elem_propertyId := elem_propertyId sample_quad;
                       elem_nodeIds := elem_nodeIds sample_quad |}]) empty_reader).
Proof.
  split; [vm_compute; split; discriminate|]. split; [vm_compute; lia|].
  apply (written_element_line_reads_back sample_quad empty_reader).
  - vm_compute; split; discriminate.
  - repeat (constructor; [split; [vm_compute; split; discriminate|vm_compute; lia]|]).
    constructor.
  - vm_compute; lia.
Defined.

Lemma isRadFile_by_extension_witness :
  has_any_of (fun c => Ascii.eqb c ".") "RAD" = false
  /\ isRadFile ("models/plate.v2" +:+ "." +:+ "RAD") = isRadFile "RAD"
  /\ isRadFile "RAD"
     = (String.eqb (map_chars tolower "RAD") "rad"
        || String.eqb (map_chars tolower "RAD") "key"
        || String.eqb (map_chars tolower "RAD") "k").
Proof.
  split; [reflexivity|].
  apply (isRadFile_by_extension "models/plate.v2" "RAD"). reflexivity.
Defined.

Lemma saved_file_is_detected_as_radioss_witness :
  let model := (loadFile (one_file "tri.rad" triangle_deck) "tri.rad" empty_reader).2 in
  let text := default "" (saveFile model) in
  saveFile model = Some text
  /\ one_file "out.rad" text "out.rad" = Some text
  /\ head (getline "010" text) = Some "#RADIOSS STARTER"
  /\ detectFileFormat (one_file "out.rad" text) "out.rad" = "RADIOSS".
Proof.
  intros model text. split; [vm_compute; reflexivity|]. split; [reflexivity|].
  apply (saved_file_is_detected_as_radioss model text (one_file "out.rad" text) "out.rad").
  - vm_compute; reflexivity.
  - reflexivity.
Defined.

Lemma element_geometry_in_bounds_witness :
  let model := (loadFile (one_file "tri.rad" triangle_deck) "tri.rad" empty_reader).2 in
  validateData model = true
  /\ exists elementData indices,
       element_geometry model = Some (elementData, indices)
       /\ Forall (fun i => (i < length elementData)%nat) indices
       /\ exists k, length indices = (3 * k)%nat.
Proof.
  intros model. split; [vm_compute; reflexivity|].
  apply (element_geometry_in_bounds model). vm_compute; reflexivity.
Defined.

Lemma basic_reader_reads_written_element_witness :
  (1 <= length (elem_nodeIds sample_quad))%nat
  /\ exists line,
       getline "010" (write_element sample_quad) = [line]
       /\ BasicReader.read_element line
          = Some {| elem_id := elem_id sample_quad;
                    elem_type :=
                      match length (elem_nodeIds sample_quad) with
                      | 3 => TRIA3
                      | 4 => QUAD4
                      | 8 => HEXA8
                      | _ => UNKNOWN
                      end%nat;
                    elem_materialId := elem_materialId sample_quad;
                    elem_propertyId := elem_propertyId sample_quad;
                    elem_nodeIds := elem_nodeIds sample_quad |}
       /\ (length (elem_nodeIds sample_quad) <> 5%nat ->
           length (elem_nodeIds sample_quad) <> 6%nat ->
           match length (elem_nodeIds sample_quad) with
           | 3 => TRIA3
           | 4 => QUAD4
           | 8 => HEXA8
           | _ => UNKNOWN
           end%nat
           = type_of_node_count (length (elem_nodeIds sample_quad))).
Proof.
  split; [vm_compute; lia|].
  apply (basic_reader_reads_written_element sample_quad).
  - repeat (constructor; [vm_compute; split; discriminate|]). constructor.
  - repeat (constructor; [vm_compute; lia|]). constructor.
  - vm_compute; lia.
Defined.

Lemma basic_saved_element_line_is_read_witness :
  (2 <= length (elem_nodeIds sample_quad))%nat
  /\ exists line,
       getline "010" (BasicReader.save_element_line sample_quad) = [line]
       /\ tokenizeLine line
          = to_string <$> elem_id sample_quad :: elem_materialId sample_quad
                          :: elem_propertyId sample_quad :: elem_nodeIds sample_quad
       /\ ((1 <= length (elem_nodeIds sample_quad))%nat ->
           BasicReader.read_element line
           = Some {| elem_id := elem_id sample_quad;
                     elem_type :=
                       match length (elem_nodeIds sample_quad) with
                       | 3 => TRIA3
                       | 4 => QUAD4
                       | 8 => HEXA8
                       | _ => UNKNOWN
                       end%nat;
                     elem_materialId := elem_materialId sample_quad;
                     elem_propertyId := elem_propertyId sample_quad;
                     elem_nodeIds := elem_nodeIds sample_quad |})
       /\ ((2 <= length (elem_nodeIds sample_quad))%nat ->
           parseElement line empty_reader
           = (true,
              with_elements
                (elements_ empty_reader
                 ++ [{| elem_id := elem_id sample_quad;
                        elem_type := type_of_node_count (length (elem_nodeIds sample_quad));
                        elem_materialId := elem_materialId sample_quad;
                        elem_propertyId := elem_propertyId sample_quad;
                        elem_nodeIds := elem_nodeIds sample_quad |}]) empty_reader)).
Proof.
  split; [vm_compute; lia|].
  apply (basic_saved_element_line_is_read sample_quad empty_reader).
  repeat (constructor; [vm_compute; split; discriminate|]). constructor.
Defined.

Lemma basic_saved_file_is_rejected_witness :
  let model := (loadFile (one_file "tri.rad" triangle_deck) "tri.rad" empty_reader).2 in
  let text := default "" (BasicReader.saveFile decimal_text model) in
  BasicReader.saveFile decimal_text model = Some text
  /\ length (elements_ model) = 1%nat
  /\ one_file "saved.rad" text "saved.rad" = Some text
  /\ last (getline "010" text) = Some "/END"
  /\ (loadFile (one_file "saved.rad" text) "saved.rad" empty_reader).1 = false.
Proof.
  intros model text. split; [vm_compute; reflexivity|]. split; [vm_compute; reflexivity|].
  split; [reflexivity|].
  apply (basic_saved_file_is_rejected (L := decimal_lib) decimal_text model empty_reader text
           (one_file "saved.rad" text) "saved.rad").
  - vm_compute; reflexivity.
  - vm_compute; discriminate.
  - reflexivity.
Defined.

(** The triangle deck, read and shown: three vertices in green and one
    triangle. *)
Example triangle_deck_geometry :
  let model := (loadFile (one_file "tri.rad" triangle_deck) "tri.rad" empty_reader).2 in
  (fun buffers : list Vertex * list nat => (vertex_colour <$> buffers.1, buffers.2))
    <$> element_geometry model
  = Some ([Green; Green; Green], [0; 1; 2]%nat).
Proof. vm_compute; reflexivity. Qed.

(** Validation is what keeps the element buffers in bounds: a four-node shell
    added by [addElement] with a node that is not stored leaves the reader
    flagged valid, and building the buffers reads [elementIndices[3]] of a
    vector of three. *)
Example unvalidated_quad_reads_past_end :
  let model := (loadFile (one_file "tri.rad" triangle_deck) "tri.rad" empty_reader).2 in
  let edited :=
    addElement {| elem_id := 2; elem_type := QUAD4; elem_materialId := 1;
                  elem_propertyId := 1; elem_nodeIds := [1; 2; 3; 9] |} model in
  isValid_ edited = true
  /\ validateData edited = false
  /\ element_geometry edited = None.
Proof. repeat split; vm_compute; reflexivity. Qed.

(** An identifier of ten digits fills its field: the writer puts no blank in
    front of it, the fields run together and the line is rejected. *)
Example wide_identifier_joins_fields :
  let element :=
    {| elem_id := 7; elem_type := QUAD4; elem_materialId := 1234567890;
       elem_propertyId := 2; elem_nodeIds := [1; 2; 3; 4] |} in
  String.length (to_string 1234567890) = 10%nat
  /\ head (tokenizeLine (write_element element)) = Some "71234567890"
  /\ stoi "71234567890" = None
  /\ (parseElement
        (default "" (head (getline "010" (write_element element)))) empty_reader).1 = false.
Proof. repeat split; vm_compute; reflexivity. Qed.

(** A title line that begins with [C] is taken for a comment and lost. *)
Example title_with_capital_c_is_lost :
  title_ (loadFile (one_file "deck.rad" (deck ["/TITLE"; "Crash box"; "plate model"]))
            "deck.rad" empty_reader).2
  = "plate model".
Proof. vm_compute; reflexivity. Qed.

(** [AddNode] does not look for an identifier that is stored already: after
    two additions with one identifier and one removal a node with the
    identifier is still in the vector, and no lookup finds it. *)
Example duplicate_addition_leaves_unreachable_node :
  (fun m => (Model.id <$> Model.m_Nodes m, Model.GetNode 1 m))
  <$> Model.run [Model.OpAddNode (store_node 1); Model.OpAddNode (store_node 1);
                 Model.OpRemoveNode 1] Model.empty
  = Some ([1], Model.Null).
Proof. reflexivity. Qed.

(** A [SHELL4] element of which three nodes are stored: the mesh gets three
    vertices and a triangle index [3] that points past them. *)
Example short_quad_index_past_vertices :
  (fun m =>
     (fun mesh => (length (Mesh.m_Vertices mesh), Mesh.m_Indices mesh, Mesh.m_WireIndices mesh))
     <$> Mesh.BuildFromModel (fun a _ _ => a) m)
  <$> Model.run [Model.OpAddNode (store_node 1); Model.OpAddNode (store_node 2);
                 Model.OpAddNode (store_node 3);
                 Model.OpAddElement (store_shell 1 Model.SHELL4 [1; 2; 3; 99])] Model.empty
  = Some (Some (3, [0; 1; 2; 0; 2; 3], [0; 1; 1; 2; 2; 0]))%nat.
Proof. vm_compute; reflexivity. Qed.

(** The basic reader takes the line after [/TITLE] as the title.  When
    [/TITLE] is the last line, the title is emptied if the line ends with a
    newline, and kept if the stream ends with the line. *)
Example basic_title_at_end_of_stream :
  let unterminated := "/TITLE" +:+ newline +:+ "plate" +:+ newline +:+ "/TITLE" in
  title_ (BasicReader.loadFile (one_file "deck.rad" unterminated) "deck.rad" empty_reader).2
  = "plate"
  /\ title_ (BasicReader.loadFile (one_file "deck.rad" (unterminated +:+ newline)) "deck.rad"
               empty_reader).2
     = "".
Proof. split; vm_compute; reflexivity. Qed.

End ConcreteInputs.
